(** * planningproj: hexagonal planning grid and overlap engine

    A shallow embedding of [src/planning.py]: [create_hexagon],
    [create_hexgrid], the grid-producing fragment of
    [create_planning_unit_grid], [calculate] and [calculate_overlap].

    Python floats are IEEE binary64 numbers.  The grid code is written once
    over an arithmetic interface ([PyFloat]) and instantiated twice: at the
    kernel's binary64 floats (what the interpreter computes) and at the real
    numbers (the exact arithmetic the geometry is meant to follow). *)

From Stdlib Require Import Floats.
From Stdlib Require Import ZArith List Bool Lia.
From Stdlib Require Import QArith Qround.
From Stdlib Require Lqa.
From Stdlib Require Import Reals Lra.
From Stdlib Require Import Permutation Sorted.
From Stdlib Require String.
Import ListNotations String.StringSyntax.

Abbreviation string := String.string.
Delimit Scope string_scope with string.

Set Implicit Arguments.

(** ** Outcomes of a Python call *)

Inductive exn : Set :=
| ZeroDivisionError
| OverflowError
| ValueError
| GEOSException
| NotImplementedError
| TypeError.

(** A call returns a value, raises, or (in the model only) runs out of the
    fuel that bounds its [while] loops. *)
Inductive result (A : Type) : Type :=
| Done (a : A)
| Raised (e : exn)
| OutOfFuel.

Arguments Done {A} a.
Arguments Raised {A} e.
Arguments OutOfFuel {A}.

Definition bind {A B : Type} (m : result A) (k : A -> result B) : result B :=
  match m with
  | Done a => k a
  | Raised e => Raised e
  | OutOfFuel => OutOfFuel
  end.


Notation "x <- m ;; k" := (bind m (fun x => k))
  (at level 61, m at next level, right associativity).

(** ** The float interface used by the grid code *)

Class PyFloat (F : Type) : Type := {
  fadd : F -> F -> F;
  fsub : F -> F -> F;
  fmul : F -> F -> F;
  fdiv : F -> F -> F;          (* quotient for a non-zero divisor *)
  flt : F -> F -> bool;        (* [a < b] *)
  fis_zero : F -> bool;        (* [a == 0.0] *)
  fsqrt : F -> F;              (* [math.sqrt] on a non-negative argument *)
  of_int : Z -> F;             (* an int used where a float is expected *)
  lit_1_5 : F;                 (* the literal [1.5] *)
  lit_2_0 : F;                 (* the literal [2.0] *)
  ceil : F -> result Z         (* [math.ceil]: raises on inf and nan *)
}.

(** [a / b] as [create_hexgrid] computes it. At both call sites the box
    is a numpy array ([total_bounds]), so the dividend is a numpy float64
    and the division itself does not raise: a zero divisor gives an
    infinity, or nan when the dividend is zero or nan. The quotient goes at
    once to [math.ceil], which raises [OverflowError] on an infinity and
    [ValueError] on nan: that is the exception recorded here. *)
Definition truediv {F} `{PyFloat F} (a b : F) : result F :=
  if fis_zero b then
    if flt a (of_int 0) || flt (of_int 0) a then Raised OverflowError
    else Raised ValueError
  else Done (fdiv a b).

(** [min(a, b)] keeps [a] unless [b < a]; [max(a, b)] keeps [a] unless
    [b > a]. *)
Definition py_min {F} `{PyFloat F} (a b : F) : F := if flt b a then b else a.
Definition py_max {F} `{PyFloat F} (a b : F) : F := if flt a b then b else a.

(** ** create_hexgrid *)

Section HexGrid.
Context {F : Type} `{PyFloat F}.

(** A bounding box as the 4-sequence [bbx[0..3]]. *)
Definition bbox : Type := (F * F * F * F)%type.
Definition bbx0 (b : bbox) : F := fst (fst (fst b)).
Definition bbx1 (b : bbox) : F := snd (fst (fst b)).
Definition bbx2 (b : bbox) : F := snd (fst b).
Definition bbx3 (b : bbox) : F := snd b.

(** [v_start_array[v_start_idx]] for the two-element list. *)
Definition index2 (arr : F * F) (i : Z) : F :=
  if (i =? 0)%Z then fst arr else snd arr.

(** The inner loop [while c_y < v_end]: appends to [grid], returns the
    list after the loop. *)
Fixpoint inner_loop (fuel : nat) (grid : list (F * F))
         (c_x c_y v_step v_end : F) : result (list (F * F)) :=
  match fuel with
  | O => OutOfFuel
  | S fuel' =>
      if flt c_y v_end
      then inner_loop fuel' (grid ++ [(c_x, c_y)]) c_x (fadd c_y v_step)
                      v_step v_end
      else Done grid
  end.

(** The outer loop [while c_x < h_end]. [n] bounds its own iterations,
    [fuel] those of each run of the inner loop. *)
Fixpoint outer_loop (fuel n : nat) (grid : list (F * F))
         (c_x c_y : F) (v_start_idx : Z)
         (h_step v_step h_end v_end : F) (v_start_array : F * F)
  : result (list (F * F)) :=
  match n with
  | O => OutOfFuel
  | S n' =>
      if flt c_x h_end
      then
        grid' <- inner_loop fuel grid c_x c_y v_step v_end ;;
        outer_loop fuel n' grid' (fadd c_x h_step)
                   (index2 v_start_array v_start_idx)
                   ((v_start_idx + 1) mod 2)%Z
                   h_step v_step h_end v_end v_start_array
      else Done grid
  end.

Definition create_hexgrid (fuel : nat) (bbx : bbox) (side : F)
  : result (list (F * F)) :=
  let grid := [] in
  let v_step := fmul (fsqrt (of_int 3)) side in
  let h_step := fmul lit_1_5 side in
  let x_min := py_min (bbx0 bbx) (bbx2 bbx) in
  let x_max := py_max (bbx0 bbx) (bbx2 bbx) in
  let y_min := py_min (bbx1 bbx) (bbx3 bbx) in
  let y_max := py_max (bbx1 bbx) (bbx3 bbx) in
  qx <- truediv x_min h_step ;;
  cx <- ceil qx ;;
  let h_skip := (cx - 1)%Z in
  let h_start := fmul (of_int h_skip) h_step in
  qy <- truediv y_min v_step ;;
  cy <- ceil qy ;;
  let v_skip := (cy - 1)%Z in
  let v_start := fmul (of_int v_skip) v_step in
  let h_end := fadd x_max h_step in
  let v_end := fadd y_max v_step in
  let v_start_array :=
    if flt (fsub v_start (fdiv v_step lit_2_0)) y_min
    then (fadd v_start (fdiv v_step lit_2_0), v_start)
    else (fsub v_start (fdiv v_step lit_2_0), v_start) in
  let v_start_idx := (Z.abs h_skip mod 2)%Z in
  let c_x := h_start in
  let c_y := index2 v_start_array v_start_idx in
  let v_start_idx := ((v_start_idx + 1) mod 2)%Z in
  outer_loop fuel fuel grid c_x c_y v_start_idx
             h_step v_step h_end v_end v_start_array.



End HexGrid.

(** ** The two instances *)

(** *** binary64, as CPython computes *)

Module Binary64.

(** int -> float conversion: round to nearest, ties to even. (CPython
    raises [OverflowError] beyond the largest float; [create_hexgrid] only
    converts [h_skip] and [v_skip], which come from finite floats.) *)
Definition float_of_Z (z : Z) : float :=
  SF2Prim (binary_normalize prec emax z 0 false).

Definition float_ceil (x : float) : result Z :=
  match Prim2SF x with
  | S754_zero _ => Done 0%Z
  | S754_finite s m e =>
      let n := if s then Z.neg m else Z.pos m in
      Done (if (0 <=? e)%Z then n * 2 ^ e
            else - ((- n) / 2 ^ (- e)))%Z
  | S754_infinity _ => Raised OverflowError
  | S754_nan => Raised ValueError
  end.

#[export] Instance float_PyFloat : PyFloat float := {
  fadd := PrimFloat.add;
  fsub := PrimFloat.sub;
  fmul := PrimFloat.mul;
  fdiv := PrimFloat.div;
  flt := PrimFloat.ltb;
  fis_zero := fun x => PrimFloat.eqb x PrimFloat.zero;
  fsqrt := PrimFloat.sqrt;
  of_int := float_of_Z;
  lit_1_5 := 1.5%float;
lit_2_0 := 2%float;
  ceil := float_ceil
}.

End Binary64.

(** *** exact real arithmetic *)

Module Exact.

Definition Rltb (a b : R) : bool := if Rlt_dec a b then true else false.
Definition Reqb (a b : R) : bool := if Req_dec_T a b then true else false.

(** The least integer at or above [x]. *)
Definition Rceil (x : R) : Z := (1 - up (- x))%Z.

#[export] Instance R_PyFloat : PyFloat R := {
  fadd := Rplus;
  fsub := Rminus;
  fmul := Rmult;
  fdiv := Rdiv;
  flt := Rltb;
  fis_zero := fun x => Reqb x 0%R;
  fsqrt := R_sqrt.sqrt;
  of_int := IZR;
  lit_1_5 := 1.5%R;
lit_2_0 := 2%R;
  ceil := fun x => Done (Rceil x)
}.

End Exact.

(** ** create_hexagon and the planning-unit grid (exact arithmetic) *)

(** A row of the grid's GeoDataFrame: a geometry and its "PUID" column. *)
Record planning_unit (G : Type) : Type := {
  geometry : G;
  PUID : Z
}.

(** [range(start, stop, step)] for a positive step. *)
Definition py_range (start stop step : Z) : list Z :=
  map (fun k => (start + step * Z.of_nat k)%Z)
      (seq 0 (Z.to_nat ((stop - start + step - 1) / step))).

(** The index pandas gives a frame built from a list of [n] rows. *)
Definition RangeIndex (n : nat) : list Z := map Z.of_nat (seq 0 n).

Module Hexagon.
Import Exact.
Local Open Scope R_scope.

(** A shapely [Polygon] given by the vertices of its shell. *)
Definition Polygon : Type := list (R * R).

(** [math.radians]. *)
Definition radians (deg : R) : R := deg * (PI / 180).

Definition create_hexagon (l x y : R) : Polygon :=
  map (fun angle : Z =>
         (x + cos (radians (IZR angle)) * l,
          y + sin (radians (IZR angle)) * l))
      (py_range 0 360 60).

(** shapely's [area] of a polygon without holes: the absolute value of the
    shoelace sum over the closed shell. *)
Definition cross (p q : R * R) : R := fst p * snd q - fst q * snd p.

Fixpoint shoelace (first : R * R) (shell : list (R * R)) : R :=
  match shell with
  | [] => 0
  | p :: tl =>
      match tl with
      | [] => cross p first
      | q :: _ => cross p q + shoelace first tl
      end
  end.

Definition polygon_area (p : Polygon) : R :=
  match p with
  | [] => 0
  | v :: _ => Rabs (shoelace v p / 2)
  end.

(** A point is covered by a convex polygon whose shell runs
    counter-clockwise when it lies to the left of, or on, every edge. *)
Definition left_of (a b p : R * R) : Prop :=
  0 <= (fst b - fst a) * (snd p - snd a) - (snd b - snd a) * (fst p - fst a).

Fixpoint within_shell (first : R * R) (shell : list (R * R)) (p : R * R)
  : Prop :=
  match shell with
  | [] => True
  | a :: tl =>
      match tl with
      | [] => left_of a first p
      | b :: _ => left_of a b p /\ within_shell first tl p
      end
  end.

Definition covers (polygon : Polygon) (p : R * R) : Prop :=
  match polygon with
  | [] => False
  | v :: _ => within_shell v polygon p
  end.

(** Lines 181 and 238: the edge length derived from the cell area. *)
Definition hex_edge (Area : R) : R := sqrt (Area ^ 2 / (3 / 2 * sqrt 3)).

(** The grid-producing code shared by menu entries 1 and 3 of
    [create_planning_unit_grid] (lines 181-189 and 238-247): [box] and
    [Area] are the values the menu code has read. *)
Definition create_planning_unit_grid (fuel : nat) (box : bbox) (Area : R)
  : result (list (planning_unit Polygon)) :=
  let edge := hex_edge Area in
  hex_centers <- create_hexgrid fuel box edge ;;
  let hexagons :=
    map (fun center => create_hexagon edge (fst center) (snd center))
        hex_centers in
  let index := RangeIndex (length hexagons) in
  Done (map (fun ig => {| geometry := snd ig; PUID := (fst ig + 1)%Z |})
            (combine index hexagons)).

(** The centers of a column: its abscissa paired with each ordinate. *)
Definition place (col : R * list R) : list (R * R) :=
  map (pair (fst col)) (snd col).

(** The greatest integer at or below [x]. *)
Definition Rfloor (x : R) : Z := (up x - 1)%Z.

(** The start column as the specification words it: the largest multiple
    of [h_step] at or below [x_min], minus one step. *)
Definition claimed_start_x (bbx : bbox) (side : R) : R :=
  let h_step := 1.5 * side in
  let x_min := Rmin (bbx0 bbx) (bbx2 bbx) in
  IZR (Rfloor (x_min / h_step)) * h_step - h_step.

End Hexagon.

(** ** numpy and pandas helpers used by the overlap engine *)

(** [np.array_split(ary, n)]: [len % n] sections of [len // n + 1] rows, then
    sections of [len // n] rows; raises for [n = 0]. *)
Fixpoint split_sizes {A : Type} (ary : list A) (sizes : list nat)
  : list (list A) :=
  match sizes with
  | [] => []
  | s :: rest => firstn s ary :: split_sizes (skipn s ary) rest
  end.

Definition array_split {A : Type} (ary : list A) (n : nat)
  : result (list (list A)) :=
  if Nat.eqb n 0 then Raised ValueError
  else
    let each_section := Nat.div (length ary) n in
    let extras := Nat.modulo (length ary) n in
    Done (split_sizes ary (repeat (S each_section) extras
                           ++ repeat each_section (n - extras))).

(** [Series.round()]: to the nearest integer, halves to the even one. *)
Definition round_half_even (q : Q) : Z :=
  let f := Qfloor q in
  match Qcompare (q - inject_Z f) (1 # 2) with
  | Lt => f
  | Gt => (f + 1)%Z
  | Eq => if Z.even f then f else (f + 1)%Z
  end.

Definition series_round (q : Q) : Q := inject_Z (round_half_even q).

(** [astype(int)] on a float64 column is the C conversion to int64:
    truncation toward zero, and for a value outside the int64 range the
    least int64 (what the conversion instruction of x86-64 gives back). *)
Definition int64_min : Z := (- 2 ^ 63)%Z.
Definition int64_max : Z := (2 ^ 63 - 1)%Z.

Definition in_int64 (z : Z) : bool :=
  (int64_min <=? z)%Z && (z <=? int64_max)%Z.

Definition astype_int (q : Q) : Z :=
  let z := if Qle_bool 0 q then Qfloor q else Qceiling q in
  if in_int64 z then z else int64_min.

(** ** The overlap engine *)

(** The attribute columns of a conservation layer ([defs.py]). *)
Record attributes : Type := {
  ID : Z;
  CLASS_TYPE : string;
  GROUP_ : string;
  NAME : string
}.

Record feature (G : Type) : Type := {
  f_attributes : attributes;
  f_geometry : G
}.

(** A row of [gpd.overlay]'s result: the columns of both frames and the
    intersection geometry. *)
Record overlay_row (G : Type) : Type := {
  o_PUID : Z;
  o_attributes : attributes;
  o_geometry : G
}.

(** The same row once the AMOUNT column is set. *)
Record intersection_row (G : Type) : Type := {
  r_PUID : Z;
  r_attributes : attributes;
  r_geometry : G;
  AMOUNT : Z
}.

(** The OverlapRecord the caller exports: (cell, feature, area). *)
Definition overlap_record {G} (r : intersection_row G) : Z * Z * Z :=
  (r_PUID r, ID (r_attributes r), AMOUNT r).

(** The calls [calculate] makes into geopandas. The library is not part of
    the repository: the engine is written against this interface. *)
Record geopandas (G : Type) : Type := {
  gs_convex_hull : list G -> list G;
  gpd_clip : list (planning_unit G) -> list G ->
             result (list (planning_unit G));
  gpd_overlay : list (planning_unit G) -> list (feature G) ->
                result (list (overlay_row G));
  gs_area : G -> Q
}.

Section OverlapEngine.
Variable G : Type.
Variable lib : geopandas G.

Definition GeoDataFrame : Type := list (planning_unit G).
Definition Layer : Type := list (feature G).

(** [df.empty]. *)
Definition empty {A : Type} (df : list A) : bool :=
  match df with [] => true | _ => false end.

(** Lines 628-629: the AMOUNT column is the area, then rounded and cast. *)
Definition set_AMOUNT (o : overlay_row G) : intersection_row G :=
  let amount := gs_area lib (o_geometry o) in
  {| r_PUID := o_PUID o;
     r_attributes := o_attributes o;
     r_geometry := o_geometry o;
     AMOUNT := astype_int (series_round amount) |}.

(** Lines 624-629: the work on one non-empty layer. *)
Definition layer_intersection (planning_grid : GeoDataFrame) (layer : Layer)
  : result (list (intersection_row G)) :=
  clipped_grid <- gpd_clip lib planning_grid
                    (gs_convex_hull lib (map (@f_geometry G) layer)) ;;
  intersection <- gpd_overlay lib clipped_grid layer ;;
  Done (map set_AMOUNT intersection).

(** The [for layer in cons_layers] loop, with the printed warnings. *)
Fixpoint calculate_loop (planning_grid : GeoDataFrame)
         (cons_layers : list Layer)
         (intersections : list (list (intersection_row G)))
         (out : list string)
  : list string * result (list (list (intersection_row G))) :=
  match cons_layers with
  | [] => (out, Done intersections)
  | layer :: rest =>
      if negb (empty layer)
      then
        match layer_intersection planning_grid layer with
        | Done intersection =>
            calculate_loop planning_grid rest
                           (intersections ++ [intersection]) out
        | Raised e => (out, Raised e)
        | OutOfFuel => (out, OutOfFuel)
        end
      else
        calculate_loop planning_grid rest intersections
          (out ++ ["Skipping empty conservation layer."%string])
  end.

Definition calculate (planning_grid : GeoDataFrame)
           (cons_layers : list Layer)
  : list string * result (list (list (intersection_row G))) :=
  calculate_loop planning_grid cons_layers [] [].

(** [pool.imap_unordered] hands the results over in completion order:
    [completion] lists the indices of the tasks in that order. *)
Definition completion_order {A : Type} (completion : list nat)
           (tasks : list A) : list A :=
  flat_map (fun i => match nth_error tasks i with
                     | Some t => [t]
                     | None => []
                     end) completion.

(** The [for result in pool.imap_unordered(...)] loop: a worker's
    exception is raised again when its result is reached. *)
Fixpoint extend_results
         (results : list (list string *
                          result (list (list (intersection_row G)))))
         (intersections : list (list (intersection_row G)))
         (out : list string)
  : list string * result (list (list (intersection_row G))) :=
  match results with
  | [] => (out, Done intersections)
  | (printed, r) :: rest =>
      match r with
      | Done result =>
          extend_results rest (intersections ++ result) (out ++ printed)
      | Raised e => (out ++ printed, Raised e)
      | OutOfFuel => (out ++ printed, OutOfFuel)
      end
  end.

Definition calculate_overlap (planning_grid : GeoDataFrame)
           (cons_layers : list Layer)
           (CORES : nat) (completion : list nat)
  : list string * result (list (list (intersection_row G))) :=
  if Nat.eqb (length cons_layers) 0
  then (["No conservation feature layers loaded."%string], Done [])
  else if empty planning_grid
  then (["No planning unit grid loaded."%string], Done [])
  else
    match array_split planning_grid CORES with
    | Done planning_grid_divisions =>
        extend_results
          (completion_order completion
             (map (fun division => calculate division cons_layers)
                  planning_grid_divisions))
          [] []
    | Raised e => ([], Raised e)
    | OutOfFuel => ([], OutOfFuel)
    end.

(** The records of a result: the rows of all its frames. *)
Definition records (intersections : list (list (intersection_row G)))
  : list (Z * Z * Z) :=
  map (@overlap_record G) (concat intersections).

End OverlapEngine.

(** ** geopandas on exact geometry

    The library is not part of the repository. This is what the two calls
    of [calculate] do in it when geometries are exact point sets, with the
    defaults [calculate] leaves in place: [gpd.clip] with
    [keep_geom_type=False], [gpd.overlay] with [how="intersection"] and
    [keep_geom_type] unset, that is, on. *)

(** [geom_type] of a shapely geometry, and the three families
    [gpd.overlay] tells apart. *)
Inductive geometry_type : Set :=
| T_Point
| T_MultiPoint
| T_LineString
| T_MultiLineString
| T_LinearRing
| T_Polygon
| T_MultiPolygon
| T_GeometryCollection.

Definition type_code (t : geometry_type) : nat :=
  match t with
  | T_Point => 0
  | T_MultiPoint => 1
  | T_LineString => 2
  | T_MultiLineString => 3
  | T_LinearRing => 4
  | T_Polygon => 5
  | T_MultiPolygon => 6
  | T_GeometryCollection => 7
  end.

Definition type_isin (t : geometry_type) (names : list geometry_type)
  : bool :=
  existsb (fun name => Nat.eqb (type_code t) (type_code name)) names.

Definition polys : list geometry_type := [T_Polygon; T_MultiPolygon].
Definition lines : list geometry_type :=
  [T_LineString; T_MultiLineString; T_LinearRing].
Definition points : list geometry_type := [T_Point; T_MultiPoint].

(** The family [keep_geom_type] keeps for a frame whose first row has
    type [t]; there is none for a collection. *)
Definition family_of (t : geometry_type) : option (list geometry_type) :=
  if type_isin t polys then Some polys
  else if type_isin t lines then Some lines
  else if type_isin t points then Some points
  else None.

(** The geometry operations behind the two calls. [boxes_overlap] tells
    whether the total bounds of two frames that both have rows overlap. *)
Record geometry_ops (G : Type) : Type := {
  intersection : G -> G -> G;
  is_empty : G -> bool;
  geom_type : G -> geometry_type;
  explode : G -> list G;
  unary_union : list G -> G;
  convex_hull : G -> G;
  area : G -> Q;
  boxes_overlap : list G -> list G -> bool
}.

(** The point-set facts the engine relies on. *)
Record geometry_laws {G : Type} (ops : geometry_ops G) : Prop := {
  intersection_assoc : forall a b c,
    intersection ops (intersection ops a b) c
    = intersection ops a (intersection ops b c);
  within_hulls : forall fs f,
    In f fs ->
    intersection ops (unary_union ops (map (convex_hull ops) fs)) f = f;
  empty_intersection : forall a b,
    is_empty ops a = true -> is_empty ops (intersection ops a b) = true;
  union_meets : forall a l,
    is_empty ops (intersection ops a (unary_union ops l)) = false ->
    exists b, In b l /\ is_empty ops (intersection ops a b) = false;
  boxes_meet : forall l1 l2 a b,
    In a l1 -> In b l2 ->
    is_empty ops (intersection ops a b) = false ->
    boxes_overlap ops l1 l2 = true
}.

Section IdealGeopandas.
Variable G : Type.
Variable ops : geometry_ops G.

(** The predicate "intersects" of the spatial index: the two geometries
    share a point. *)
Definition intersects (a b : G) : bool :=
  negb (is_empty ops (intersection ops a b)).

(** The test both calls start with: the total bounds of the two frames
    overlap. The bounds of a frame without rows are four NaNs, and every
    comparison with them fails. *)
Definition bounds_overlap (df1 df2 : list G) : bool :=
  match df1, df2 with
  | [], _ => false
  | _, [] => false
  | _, _ => boxes_overlap ops df1 df2
  end.

(** A row of the clipped frame: rows of type Point are kept as they are,
    the others are cut to the mask. *)
Definition clipped_geometry (mask : G) (g : G) : G :=
  match geom_type ops g with
  | T_Point => g
  | _ => intersection ops g mask
  end.

(** [gpd.clip(gdf, mask)] for a GeoSeries [mask]: the rows that meet the
    union of the mask, each cut to it. With [keep_geom_type=False] a row
    that only touches the mask stays, as the point or line it shares with
    it. (The library leaves the order of the rows open; they are listed
    here in the order of [gdf].) *)
Definition clip (gdf : list (planning_unit G)) (mask : list G)
  : list (planning_unit G) :=
  if negb (bounds_overlap (map (@geometry G) gdf) mask) then []
  else
    let combined_mask := unary_union ops mask in
    map (fun c => {| geometry := clipped_geometry combined_mask (geometry c);
                     PUID := PUID c |})
        (filter (fun c => intersects (geometry c) combined_mask) gdf).

(** [gpd.overlay] refuses a frame with geometries of more than one
    family. *)
Definition mixed_geometry_types (df : list G) : bool :=
  let check family :=
    existsb (fun g => type_isin (geom_type ops g) family) df in
  (1 <? Nat.b2n (check polys) + Nat.b2n (check lines)
        + Nat.b2n (check points))%nat.

(** One row per pair of rows that intersect, in the order of [df1] and
    then of [df2], with the intersection as geometry. *)
Definition overlay_intersection (df1 : list (planning_unit G))
           (df2 : list (feature G)) : list (overlay_row G) :=
  flat_map
    (fun c =>
       flat_map
         (fun f =>
            if intersects (geometry c) (f_geometry f)
            then [{| o_PUID := PUID c;
                     o_attributes := f_attributes f;
                     o_geometry :=
                       intersection ops (geometry c) (f_geometry f) |}]
            else [])
         df2)
    df1.

(** What [keep_geom_type] leaves of a result geometry: a collection is
    reduced to its parts of the family, dissolved into one geometry; any
    other geometry stays if it is of the family. *)
Definition kept_geometry (family : list geometry_type) (g : G) : option G :=
  match geom_type ops g with
  | T_GeometryCollection =>
      match filter (fun part => type_isin (geom_type ops part) family)
                   (explode ops g) with
      | [] => None
      | parts =>
          let dissolved := unary_union ops parts in
          if type_isin (geom_type ops dissolved) family
          then Some dissolved else None
      end
  | t => if type_isin t family then Some g else None
  end.

Definition keep_geom_type (family : list geometry_type)
           (result : list (overlay_row G)) : list (overlay_row G) :=
  flat_map
    (fun r =>
       match kept_geometry family (o_geometry r) with
       | Some g => [{| o_PUID := o_PUID r;
                       o_attributes := o_attributes r;
                       o_geometry := g |}]
       | None => []
       end)
    result.

(** [gpd.overlay(df1, df2, how="intersection")]. *)
Definition overlay (df1 : list (planning_unit G)) (df2 : list (feature G))
  : result (list (overlay_row G)) :=
  if mixed_geometry_types (map (@geometry G) df1)
  then Raised NotImplementedError
  else if mixed_geometry_types (map (@f_geometry G) df2)
  then Raised NotImplementedError
  else if negb (bounds_overlap (map (@geometry G) df1)
                               (map (@f_geometry G) df2))
  then Done []
  else
    match df1 with
    | [] => Done []
    | first :: _ =>
        (* keep_geom_type follows the type of the first row of df1 *)
        match family_of (geom_type ops (geometry first)) with
        | Some family =>
            Done (keep_geom_type family (overlay_intersection df1 df2))
        | None => Raised TypeError
        end
    end.

Definition ideal : geopandas G := {|
  gs_convex_hull := map (convex_hull ops);
  gpd_clip := fun gdf mask => Done (clip gdf mask);
  gpd_overlay := overlay;
  gs_area := area ops
|}.

(** Intersecting every cell with every feature, without the clip. *)
Definition direct_intersection (planning_grid : list (planning_unit G))
           (layer : list (feature G)) : result (list (intersection_row G)) :=
  intersection <- overlay planning_grid layer ;;
  Done (map (set_AMOUNT ideal) intersection).

(** The rows of lines 626-629 for a frame of polygons: the pairs that
    intersect, what [keep_geom_type] keeps of them, the AMOUNT column. *)
Definition polygon_rows (planning_grid : list (planning_unit G))
           (layer : list (feature G)) : list (intersection_row G) :=
  map (set_AMOUNT ideal)
      (keep_geom_type polys (overlay_intersection planning_grid layer)).

(** The AMOUNT of a geometry: its area, rounded and cast. *)
Definition amount (g : G) : Z := astype_int (series_round (area ops g)).

(** The records of the pairs of a cell and a feature that intersect in a
    geometry [keep_geom_type] keeps for polygons. *)
Definition pair_records (c : planning_unit G) (f : feature G)
  : list (Z * Z * Z) :=
  if intersects (geometry c) (f_geometry f) then
    match kept_geometry polys
                        (intersection ops (geometry c) (f_geometry f)) with
    | Some g => [(PUID c, ID (f_attributes f), amount g)]
    | None => []
    end
  else [].

Definition expected_records (planning_grid : list (planning_unit G))
           (layer : list (feature G)) : list (Z * Z * Z) :=
  flat_map (fun c => flat_map (pair_records c) layer) planning_grid.

(** No cell merely touches the hulls of the layer: every cell that meets
    them is left a polygon by the clip; and the layer is of one family. *)
Definition polygonal_clip (planning_grid : list (planning_unit G))
           (layer : list (feature G)) : Prop :=
  mixed_geometry_types (map (@f_geometry G) layer) = false
  /\ forall c,
      In c planning_grid ->
      let hulls := unary_union ops
                     (map (convex_hull ops) (map (@f_geometry G) layer)) in
      intersects (geometry c) hulls = true ->
      type_isin (geom_type ops (clipped_geometry hulls (geometry c))) polys
      = true.

End IdealGeopandas.

(** ** Concrete geometries on a strip

    A geometry is a set of cells of a strip, cell [i] being bit [i] of a
    binary natural number; intersection and union are those of sets, the
    hull runs from the lowest to the highest cell. *)

Fixpoint trailing_zeros (p : positive) : N :=
  match p with
  | xO p' => N.succ (trailing_zeros p')
  | _ => 0%N
  end.

Fixpoint popcount (p : positive) : Z :=
  match p with
  | xH => 1%Z
  | xO p' => popcount p'
  | xI p' => (1 + popcount p')%Z
  end.

(** The cells between the lowest and the highest cell of [g]. *)
Definition hull (g : N) : N :=
  match g with
  | N0 => 0%N
  | Npos p =>
      let lo := trailing_zeros p in
      N.shiftl (N.ones (N.size g - lo)) lo
  end.

(** The total bounds of a frame: its lowest and highest cell; none when
    it has no cell at all. *)
Definition cell_bounds (g : N) : option (N * N) :=
  match g with
  | N0 => None
  | Npos p => Some (trailing_zeros p, N.log2 g)
  end.

Definition total_cell_bounds (df : list N) : option (N * N) :=
  fold_right
    (fun g acc =>
       match cell_bounds g, acc with
       | Some (lo, hi), Some (lo', hi') => Some (N.min lo lo', N.max hi hi')
       | Some b, None => Some b
       | None, _ => acc
       end)
    None df.

Definition cell_boxes_overlap (df1 df2 : list N) : bool :=
  match total_cell_bounds df1, total_cell_bounds df2 with
  | Some (lo1, hi1), Some (lo2, hi2) => N.leb lo1 hi2 && N.leb lo2 hi1
  | _, _ => false
  end.

(** *** Rasters: every cell is a pixel *)

Module Raster.

(** A pixel is a square of side one half. *)
Definition pixels (g : N) : Q :=
  match g with
  | N0 => 0%Q
  | Npos p => (inject_Z (popcount p) * (1 # 4))%Q
  end.

Definition raster : geometry_ops N := {|
  intersection := N.land;
  is_empty := fun g => N.eqb g 0;
  geom_type := fun g => if N.eqb (hull g) g then T_Polygon
                        else T_MultiPolygon;
  explode := fun g => [g];
  unary_union := fold_right N.lor 0%N;
  convex_hull := hull;
  area := pixels;
  boxes_overlap := cell_boxes_overlap
|}.




(** Sample data: three cells of four pixels each and a layer of two
    features, one over pixels 1-4 and one over pixels 6-11. *)
Definition unit (id : Z) (g : N) : planning_unit N :=
  {| geometry := g; PUID := id |}.

Definition feat (id : Z) (g : N) : feature N :=
  {| f_attributes := {| ID := id; CLASS_TYPE := "forest"%string;
                        GROUP_ := "land"%string; NAME := "f"%string |};
     f_geometry := g |}.

Definition sample_grid : list (planning_unit N) :=
  [unit 1 15%N; unit 2 240%N; unit 3 3840%N].

Definition sample_layer : list (feature N) :=
  [feat 10 30%N; feat 11 4032%N].


End Raster.

(** *** Rectangles that can touch

    The strip [0 <= y <= 1] of the plane, cut at the integer abscissas:
    cell [2 * i] is the segment [x = i], cell [2 * i + 1] the open unit
    square between [x = i] and [x = i + 1]. A closed geometry holds the
    two segments that bound each of its squares. Two rectangles that share
    a side intersect in that segment, a LineString. *)

Module Strip.

Fixpoint pos_bits (p : positive) : list bool :=
  match p with
  | xH => [true]
  | xO p' => false :: pos_bits p'
  | xI p' => true :: pos_bits p'
  end.

Definition bits (g : N) : list bool :=
  match g with
  | N0 => []
  | Npos p => pos_bits p
  end.

(** The connected parts of a geometry: its maximal runs of cells. *)
Fixpoint runs_from (l : list bool) (position : N) (current : N) : list N :=
  let closed := if N.eqb current 0 then [] else [current] in
  match l with
  | [] => closed
  | true :: rest =>
      runs_from rest (N.succ position)
                (N.lor current (N.shiftl 1 position))
  | false :: rest => closed ++ runs_from rest (N.succ position) 0%N
  end.

Definition parts (g : N) : list N := runs_from (bits g) 0%N 0%N.

(** A part of one cell is a segment; a longer one is a rectangle. *)
Definition is_segment (part : N) : bool :=
  match part with
  | N0 => false
  | Npos p => Z.eqb (popcount p) 1
  end.

Definition strip_type (g : N) : geometry_type :=
  let ps := parts g in
  if forallb is_segment ps then
    match ps with
    | [] => T_GeometryCollection
    | [_] => T_LineString
    | _ => T_MultiLineString
    end
  else if forallb (fun part => negb (is_segment part)) ps then
    match ps with
    | [_] => T_Polygon
    | _ => T_MultiPolygon
    end
  else T_GeometryCollection.

(** The area: one for each unit square. *)
Fixpoint squares (l : list bool) (odd : bool) : Z :=
  match l with
  | [] => 0%Z
  | b :: rest =>
      ((if b && odd then 1 else 0) + squares rest (negb odd))%Z
  end.

Definition strip_area (g : N) : Q := inject_Z (squares (bits g) false).

Definition strip : geometry_ops N := {|
  intersection := N.land;
  is_empty := fun g => N.eqb g 0;
  geom_type := strip_type;
  explode := parts;
  unary_union := fold_right N.lor 0%N;
  convex_hull := hull;
  area := strip_area;
  boxes_overlap := cell_boxes_overlap
|}.

(** The rectangle [x0 <= x <= x1], and the segment [x = x0] when
    [x1 = x0]. *)
Definition rect (x0 x1 : N) : N :=
  N.shiftl (N.ones (2 * (x1 - x0) + 1)) (2 * x0).

Definition unit (id : Z) (g : N) : planning_unit N :=
  {| geometry := g; PUID := id |}.

Definition feat (id : Z) (g : N) : feature N :=
  {| f_attributes := {| ID := id; CLASS_TYPE := "forest"%string;
                        GROUP_ := "land"%string; NAME := "f"%string |};
     f_geometry := g |}.

(** Two cells and one feature: the first cell overlaps the feature, the
    second one shares only the side [x = 3] with it. *)
Definition touching_grid : list (planning_unit N) :=
  [unit 1 (rect 0 2); unit 2 (rect 3 5)].

Definition one_feature : list (feature N) := [feat 10 (rect 1 3)].

(** One cell and two features side by side: the cell overlaps feature 11
    and shares only the side [x = 2] with feature 10. *)
Definition one_cell : list (planning_unit N) := [unit 1 (rect 0 2)].

Definition two_features : list (feature N) :=
  [feat 10 (rect 2 4); feat 11 (rect 1 2)].

(** A cell of four unit squares and a feature of two inside it. *)
Definition wide_cell : planning_unit N := unit 7 (rect 0 4).

Definition inner_feature : feature N := feat 3 (rect 1 3).

End Strip.

(** ** The shape of the grid

    A column of the grid as the loops produce it: its abscissa, the
    ordinate of its first center and its number of centers. *)

Module GridShape.
Local Open Scope R_scope.

Definition column_of (v_step : R) (col : R * R * nat) : list (R * R) :=
  map (fun j => (fst (fst col), snd (fst col) + INR j * v_step))
      (seq 0 (snd col)).

(** The row a column starts from: [v_start_array[v_start_idx]] for the
    index held when the column begins ([k = 0] is the column of [c_y]). *)
Definition start_row (arr : R * R) (c_y : R) (idx : Z) (k : nat) : R :=
  match k with
  | O => c_y
  | S k' => index2 arr ((idx + Z.of_nat k') mod 2)%Z
  end.

End GridShape.

(** ** The menus

    The interactive functions read a menu choice with [int(input(...))]
    and call helpers of [util] (file dialogs, loaders, prompts) that are
    not part of the sources. A session is run on a script: the lines the
    user types, each with what the helpers called for it gave back. *)

(** [msg_value_error] of [defs.py]. *)
Definition msg_value_error : string := "Please enter a valid integer."%string.

(** How a session ends: the function returns, an exception leaves it
    (the [TypeError] of a call with a missing argument, or what a helper
    or the engine raised), or the script is used up while it waits for the
    next line. *)
Inductive session (A : Type) : Type :=
| Finished (a : A)
| Aborted (e : exn)
| Waiting.

Arguments Finished {A} a.
Arguments Aborted {A} e.
Arguments Waiting {A}.

(** The value of a cell of an attribute column. *)
Inductive value : Set :=
| IntValue (z : Z)
| StrValue (s : string).

Definition value_eqb (a b : value) : bool :=
  match a, b with
  | IntValue x, IntValue y => Z.eqb x y
  | StrValue x, StrValue y => String.eqb x y
  | _, _ => false
  end.

(** The four columns the query menu filters on. *)
Inductive field : Set := F_ID | F_CLASS_TYPE | F_GROUP | F_NAME.

Definition column (fld : field) (a : attributes) : value :=
  match fld with
  | F_ID => IntValue (ID a)
  | F_CLASS_TYPE => StrValue (CLASS_TYPE a)
  | F_GROUP => StrValue (GROUP_ a)
  | F_NAME => StrValue (NAME a)
  end.

(** [Series.isin(values)] on one cell; [Series.unique()]: the values in
    order of first appearance. *)
Definition isin (v : value) (values : list value) : bool :=
  existsb (value_eqb v) values.

Definition unique (l : list value) : list value :=
  fold_left (fun seen v => if isin v seen then seen else seen ++ [v]) l [].

(** What a session shows or writes: a warning, an information line, the
    text of a caught exception, the options put to the user, a frame of
    some rows drawn on screen, a table written to a file. *)
Inductive output : Type :=
| Warning (msg : string)
| Info (msg : string)
| Printed (e : exn)
| Asked (options : list value)
| Plotted (rows : nat)
| Saved (file_name : string) (rows : list (Z * Z * Z)).

Definition newline : string :=
  String.String (Ascii.ascii_of_nat 10) String.EmptyString.

Section Menus.
Variable G : Type.

(** *** query_conservation_layers *)

(** A typed line of the query menu: not an integer, or a choice together
    with the list [get_user_selection] gave back (used for choices 1-4). *)
Inductive query_input : Type :=
| Q_not_an_integer
| Q_choice (selection : Z) (chosenFeature : list value).

Definition query_field (selection : Z) : option field :=
  if (selection =? 1)%Z then Some F_ID
  else if (selection =? 2)%Z then Some F_CLASS_TYPE
  else if (selection =? 3)%Z then Some F_GROUP
  else if (selection =? 4)%Z then Some F_NAME
  else None.

(** [gdf[gdf[column].isin(chosenFeature)]]. *)
Definition keep_rows (fld : field) (chosenFeature : list value)
           (gdf : Layer G) : Layer G :=
  filter (fun f => isin (column fld (f_attributes f)) chosenFeature) gdf.

Fixpoint query_loop (script : list query_input)
         (conserv_layers filtered_conserv_layers : list (Layer G))
         (out : list output)
  : list output * session (list (Layer G)) :=
  match script with
  | [] => (out, Waiting)
  | Q_not_an_integer :: rest =>
      query_loop rest conserv_layers filtered_conserv_layers
                 (out ++ [Warning msg_value_error])
  | Q_choice selection chosenFeature :: rest =>
      match query_field selection with
      | Some fld =>
          let filter_ :=
            flat_map (fun gdf =>
                        unique (map (fun f => column fld (f_attributes f))
                                    gdf))
                     conserv_layers in
          query_loop rest conserv_layers
                     (map (keep_rows fld chosenFeature)
                          filtered_conserv_layers)
                     (out ++ [Asked filter_])
      | None =>
          if (selection =? 9)%Z then (out, Finished filtered_conserv_layers)
          else query_loop rest conserv_layers filtered_conserv_layers
                          (out ++ [Warning msg_value_error])
      end
  end.

Definition query_conservation_layers (conserv_layers : list (Layer G))
           (script : list query_input)
  : list output * session (list (Layer G)) :=
  if Nat.eqb (List.length conserv_layers) 0
  then ([Warning "No planning layers loaded."%string], Finished [])
  else
    (* the deep copies of the layers *)
    let filtered_conserv_layers := map (fun layer => layer) conserv_layers in
    query_loop script conserv_layers filtered_conserv_layers [].

(** *** load_convservation_layers *)

(** A typed line of the load menu, with the files the dialog gave for it
    and what [load_files] made of them. *)
Inductive load_input : Type :=
| L_not_an_integer
| L_choice (selection : Z) (files : list string)
           (loaded : result (list (Layer G))).

Definition after_load (loaded : result (list (Layer G)))
           (out : list output) : list output * session (list (Layer G)) :=
  match loaded with
  | Done layers => (out, Finished layers)
  | Raised e => (out, Aborted e)
  | OutOfFuel => (out, Waiting)
  end.

Fixpoint load_convservation_layers (conserv_layers : list (Layer G))
         (script : list load_input) (out : list output)
  : list output * session (list (Layer G)) :=
  match script with
  | [] => (out, Waiting)
  | L_not_an_integer :: rest =>
      load_convservation_layers conserv_layers rest
                                (out ++ [Warning msg_value_error])
  | L_choice selection files loaded :: rest =>
      if (selection =? 1)%Z then
        if negb (empty files) then after_load loaded out
        else load_convservation_layers conserv_layers rest
               (out ++ [Warning "No files loaded from directory, please verify files and try again."%string])
      else if (selection =? 2)%Z then
        if negb (empty files) then after_load loaded out
        else load_convservation_layers conserv_layers rest
               (out ++ [Warning "No files loaded from directory, try selecting files manually."%string])
      else if (selection =? 9)%Z then (out, Finished conserv_layers)
      else load_convservation_layers conserv_layers rest
                                     (out ++ [Warning msg_value_error])
  end.

(** *** plot_layers *)

(** [layer.plot(); plt.show()] on a frame, given by its geometries. *)
Variable show : list G -> result unit.

(** The inner function [plot]: the [for] loop inside the [try]. *)
Fixpoint plot_each (layers : list (list G)) (out : list output)
  : list output * result unit :=
  match layers with
  | [] => (out, Done tt)
  | layer :: rest =>
      if empty layer
      then plot_each rest (out ++ [Warning "Nothing to plot."%string])
      else
        match show layer with
        | Done _ => plot_each rest (out ++ [Plotted (List.length layer)])
        | Raised e => (out, Raised e)
        | OutOfFuel => (out, OutOfFuel)
        end
  end.

(** [plot] returns (true) or, when a call of the plotting library does not
    come back, does not (false); [except Exception] catches what the loop
    raises. *)
Definition plot (layers : list (list G)) (out : list output)
  : list output * bool :=
  if negb (Nat.eqb (List.length layers) 0) then
    match plot_each layers (out ++ [Info "Plotting"%string]) with
    | (out', Done _) => (out', true)
    | (out', Raised e) =>
        (out' ++ [Warning (String.append "Error while plotting"%string newline);
                  Printed e], true)
    | (out', OutOfFuel) => (out', false)
    end
  else (out ++ [Warning "Nothing plot."%string], true).

(** A typed line of the view menu. *)
Inductive view_input : Set :=
| V_not_an_integer
| V_choice (selection : Z).

Fixpoint plot_layers (planning_unit_grid : GeoDataFrame G)
         (conserv_layers filtered_conserv_layers : list (Layer G))
         (script : list view_input) (out : list output)
  : list output * session unit :=
  let frames (layers : list (Layer G)) :=
    map (map (@f_geometry G)) layers in
  let again rest (r : list output * bool) :=
    if snd r
    then plot_layers planning_unit_grid conserv_layers
                     filtered_conserv_layers rest (fst r)
    else (fst r, Waiting) in
  match script with
  | [] => (out, Waiting)
  | V_not_an_integer :: rest =>
      plot_layers planning_unit_grid conserv_layers filtered_conserv_layers
                  rest (out ++ [Warning msg_value_error])
  | V_choice selection :: rest =>
      if (selection =? 1)%Z then
        again rest
          (plot (if empty planning_unit_grid then []
                 else [map (@geometry G) planning_unit_grid])
                (out ++ [Info "Plotting Planning Unit Grid..."%string]))
      else if (selection =? 2)%Z then
        again rest
          (plot (frames conserv_layers)
                (out ++ [Info "Plotting Conservation Features..."%string]))
      else if (selection =? 3)%Z then
        again rest
          (plot (frames filtered_conserv_layers)
                (out ++ [Info "Plotting Filtered Conservation Features..."%string]))
      else if (selection =? 9)%Z then (out, Finished tt)
      else
        plot_layers planning_unit_grid conserv_layers
                    filtered_conserv_layers rest
                    (out ++ [Warning msg_value_error])
  end.

(** *** main_menu *)

Record menu_state : Type := {
  planning_unit_grid : GeoDataFrame G;
  conserv_layers : list (Layer G);
  filtered_conserv_layers : list (Layer G);
  intersections_gdf : list (list (intersection_row G));
  intersections_df : list (intersection_row G)
}.

(** A typed line of the main menu, with what the calls made for it need:
    the scripts of the sub-menus, the order in which the workers complete,
    the name the save dialog gives. *)
Inductive main_input : Type :=
| M_not_an_integer
| M_choice (selection : Z) (load_script : list load_input)
           (query_script : list query_input)
           (view_script : list view_input) (completion : list nat)
           (file_name : string).

Variable lib : geopandas G.
Variable CORES : nat.

(** The columns [ID, PUID, AMOUNT] written by [to_csv]. *)
Definition csv_row (r : intersection_row G) : Z * Z * Z :=
  (ID (r_attributes r), r_PUID r, AMOUNT r).

Fixpoint main_loop (script : list main_input) (s : menu_state)
         (out : list output) : list output * session menu_state :=
  match script with
  | [] => (out, Waiting)
  | M_not_an_integer :: rest =>
      main_loop rest s (out ++ [Warning msg_value_error])
  | M_choice selection load_script query_script view_script completion
             file_name :: rest =>
      if (selection =? 1)%Z then
        (* create_planning_unit_grid() is called without its argument *)
        (out, Aborted TypeError)
      else if (selection =? 2)%Z then main_loop rest s out
      else if (selection =? 3)%Z then
        match load_convservation_layers (conserv_layers s) load_script [] with
        | (printed, Finished layers) =>
            main_loop rest
              {| planning_unit_grid := planning_unit_grid s;
                 conserv_layers := layers;
                 filtered_conserv_layers := filtered_conserv_layers s;
                 intersections_gdf := intersections_gdf s;
                 intersections_df := intersections_df s |}
              (out ++ printed)
        | (printed, Aborted e) => (out ++ printed, Aborted e)
        | (printed, Waiting) => (out ++ printed, Waiting)
        end
      else if (selection =? 4)%Z then
        match query_conservation_layers (conserv_layers s) query_script with
        | (printed, Finished layers) =>
            main_loop rest
              {| planning_unit_grid := planning_unit_grid s;
                 conserv_layers := conserv_layers s;
                 filtered_conserv_layers := layers;
                 intersections_gdf := intersections_gdf s;
                 intersections_df := intersections_df s |}
              (out ++ printed)
        | (printed, Aborted e) => (out ++ printed, Aborted e)
        | (printed, Waiting) => (out ++ printed, Waiting)
        end
      else if (selection =? 5)%Z then
        match plot_layers (planning_unit_grid s) (conserv_layers s)
                          (filtered_conserv_layers s) view_script [] with
        | (printed, Finished _) => main_loop rest s (out ++ printed)
        | (printed, Aborted e) => (out ++ printed, Aborted e)
        | (printed, Waiting) => (out ++ printed, Waiting)
        end
      else if (selection =? 6)%Z then
        match calculate_overlap lib (planning_unit_grid s) (conserv_layers s)
                                CORES completion with
        | (printed, Done frames) =>
            main_loop rest
              {| planning_unit_grid := planning_unit_grid s;
                 conserv_layers := conserv_layers s;
                 filtered_conserv_layers := filtered_conserv_layers s;
                 intersections_gdf := frames;
                 intersections_df :=
                   if negb (Nat.eqb (List.length frames) 0)
                   then concat frames
                   else intersections_df s |}
              (out ++ map Warning printed)
        | (printed, Raised e) =>
            (out ++ map Warning printed, Aborted e)
        | (printed, OutOfFuel) => (out ++ map Warning printed, Waiting)
        end
      else if (selection =? 7)%Z then
        if empty (intersections_df s)
        then main_loop rest s (out ++ [Warning "No results to save."%string])
        else main_loop rest s
               (out ++ [Saved file_name (map csv_row (intersections_df s))])
      else if (selection =? 9)%Z then (out, Finished s)
      else main_loop rest s (out ++ [Warning msg_value_error])
  end.

Definition main_menu (script : list main_input)
  : list output * session menu_state :=
  main_loop script
            {| planning_unit_grid := [];
               conserv_layers := [];
               filtered_conserv_layers := [];
               intersections_gdf := [];
               intersections_df := [] |}
            [].

End Menus.

(** ** The bounding box of menu entry 3

    Lines 225-237 of [create_planning_unit_grid], in exact arithmetic: the
    box is the extent of the rectangle built around the anchor point. *)

Module UserInput.
Import Exact.
Local Open Scope R_scope.

(** [GeoSeries.total_bounds] of a polygon given by its shell: the least
    and greatest coordinates. *)
Definition total_bounds (first : R * R) (others : list (R * R)) : bbox :=
  (fold_left Rmin (map fst others) (fst first),
   fold_left Rmin (map snd others) (snd first),
   fold_left Rmax (map fst others) (fst first),
   fold_left Rmax (map snd others) (snd first)).

Definition user_input_box (grid_size_x grid_size_y grid_lat grid_lon : R)
  : result bbox :=
  let xdiff := grid_size_x / 2 in
  let ydiff := grid_size_y / 2 in
  if Reqb (cos grid_lat) 0 then Raised ZeroDivisionError
  else
    let xmax := grid_lon + (180 / PI) * (xdiff / 6378137) / cos grid_lat in
    let xmin := grid_lon - (180 / PI) * (xdiff / 6378137) / cos grid_lat in
    let ymax := grid_lat + (180 / PI) * (ydiff / 6378137) in
    let ymin := grid_lat - (180 / PI) * (ydiff / 6378137) in
    Done (total_bounds (xmin, ymin)
                       [(xmin, ymax); (xmax, ymax); (xmax, ymin);
                        (xmin, ymin)]).

End UserInput.

(** ** Helpers for stating the properties of the menus and the engine *)

Module GridFacts.
Local Open Scope R_scope.

(** The square of the distance between two points. *)
Definition sqdist (p q : R * R) : R :=
  (fst p - fst q) * (fst p - fst q) + (snd p - snd q) * (snd p - snd q).

End GridFacts.

Section LayerFacts.
Variable G : Type.

Definition nonempty_layers (cons_layers : list (Layer G)) : list (Layer G) :=
  filter (fun layer => negb (empty layer)) cons_layers.

Definition empty_layers (cons_layers : list (Layer G)) : list (Layer G) :=
  filter (fun layer => empty layer) cons_layers.

(** The filters a query script applies: its choices 1-4 up to the first
    choice 9. *)
Fixpoint applied_filters (script : list (query_input))
  : list (field * list value) :=
  match script with
  | [] => []
  | Q_not_an_integer :: rest => applied_filters rest
  | Q_choice selection chosenFeature :: rest =>
      match query_field selection with
      | Some fld => (fld, chosenFeature) :: applied_filters rest
      | None => if (selection =? 9)%Z then [] else applied_filters rest
      end
  end.

(** A feature passes when each filter lists its value. *)
Definition passes (filters : list (field * list value)) (f : feature G)
  : bool :=
  forallb (fun flt => isin (column (fst flt) (f_attributes f)) (snd flt))
          filters.

End LayerFacts.

(** A session writes no file when none of its outputs is a saved table. *)
Definition no_save (o : output) : Prop :=
  match o with
  | Saved _ _ => False
  | _ => True
  end.

(** Sample sessions of the menus over the raster layers. *)
Module MenuExamples.
Import Raster.

Definition two_layers : list (Layer N) := [sample_layer; [feat 12 3%N]].

Definition id_then_class : list query_input :=
  [Q_choice 1 [IntValue 10; IntValue 12]; Q_not_an_integer;
   Q_choice 2 [StrValue "forest"%string]; Q_choice 9 []].

Definition class_then_id : list query_input :=
  [Q_choice 2 [StrValue "forest"%string];
   Q_choice 1 [IntValue 10; IntValue 12];
   Q_choice 2 [StrValue "forest"%string]; Q_choice 9 []].

Definition load_twice : list (load_input N) :=
  [L_not_an_integer N;
   L_choice 1 [] (Raised ValueError);
   L_choice 5 [] (Raised ValueError);
   L_choice 2 ["layers.shp"%string] (Done two_layers)].

(** A plotting library that fails on every frame. *)
Definition show_fails (layer : list N) : result Datatypes.unit :=
  Raised ValueError.

Definition view_all : list view_input :=
  [V_choice 1; V_not_an_integer; V_choice 2; V_choice 3; V_choice 9].

End MenuExamples.

(** * Proofs *)

(** ** Exact arithmetic: comparisons, ceiling, loop bounds *)

Section ExactArithmetic.
Import Exact.
Local Open Scope R_scope.

Lemma Rltb_true (a b : R) : Rltb a b = true <-> a < b.
Proof.
  unfold Rltb. destruct (Rlt_dec a b); split; intros; try easy; discriminate.
Qed.

Lemma Rltb_false (a b : R) : Rltb a b = false <-> b <= a.
Proof.
  unfold Rltb. destruct (Rlt_dec a b); split; intros; try easy; try lra.
Qed.

Lemma Reqb_false (a b : R) : a <> b -> Reqb a b = false.
Proof.
  unfold Reqb. destruct (Req_dec_T a b); intros; [contradiction | reflexivity].
Qed.

Lemma Rceil_bounds (x : R) : IZR (Rceil x) - 1 < x <= IZR (Rceil x).
Proof.
  unfold Rceil. rewrite minus_IZR.
  destruct (archimed (- x)) as [Hgt Hle]. lra.
Qed.

Lemma Rceil_unique (x : R) (z : Z) : IZR z - 1 < x <= IZR z -> Rceil x = z.
Proof.
  intros [Hlo Hhi]. destruct (Rceil_bounds x) as [Clo Chi].
  assert (H1 : (Rceil x - 1 < z)%Z) by (apply lt_IZR; rewrite minus_IZR; lra).
  assert (H2 : (z - 1 < Rceil x)%Z) by (apply lt_IZR; rewrite minus_IZR; lra).
  lia.
Qed.

(** Finitely many steps of a positive size cover any distance. *)
Lemma steps_cover (d step : R) : 0 < step -> exists n : nat, d <= INR n * step.
Proof.
  intros Hs. exists (Z.to_nat (up (d / step))).
  destruct (archimed (d / step)) as [Hgt _].
  destruct (Z_lt_le_dec (up (d / step)) 0) as [Hneg | Hpos].
  - assert (IZR (up (d / step)) < 0) by (apply IZR_lt; assumption).
    assert (Hd : d / step < 0) by lra.
    assert (d < 0).
    { replace d with (d / step * step) by (field; lra).
      rewrite <- (Rmult_0_l step). apply Rmult_lt_compat_r; assumption. }
    replace (Z.to_nat (up (d / step))) with 0%nat by lia. simpl. lra.
  - rewrite INR_IZR_INZ, Z2Nat.id by assumption.
    replace d with (d / step * step) at 1 by (field; lra).
    apply Rmult_le_compat_r; lra.
Qed.

Lemma sqrt3_pos : 0 < sqrt 3.
Proof. apply sqrt_lt_R0. lra. Qed.

End ExactArithmetic.

Section ExactLoops.
Import Exact Hexagon.
Local Open Scope R_scope.

Variables h_step v_step h_end v_end : R.
Hypothesis h_step_pos : 0 < h_step.
Hypothesis v_step_pos : 0 < v_step.

(** The inner loop started at [c_y] stops within [N] steps once
    [N * v_step] covers the distance to [v_end]; it appends one column. *)
Lemma inner_loop_exact (c_x : R) (N : nat) :
  forall c_y : R,
    v_end - c_y <= INR N * v_step ->
    exists ys : list R,
      (forall fuel grid, (N < fuel)%nat ->
         inner_loop fuel grid c_x c_y v_step v_end
         = Done (grid ++ map (pair c_x) ys))
      /\ StronglySorted Rlt ys
      /\ Forall (fun y => c_y <= y) ys
      /\ (c_y < v_end -> exists tl, ys = c_y :: tl).
Proof.
  induction N as [| N' IH]; intros c_y Hd.
  - simpl in Hd. exists []. repeat split.
    + intros [| fuel] grid Hf; [lia |]. simpl.
      replace (Rltb c_y v_end) with false by (symmetry; apply Rltb_false; lra).
      now rewrite app_nil_r.
    + constructor.
    + constructor.
    + intros. lra.
  - destruct (Rlt_dec c_y v_end) as [Hlt | Hge].
    + destruct (IH (c_y + v_step)) as (ys & Hrun & Hsort & Hlow & _).
      { rewrite S_INR in Hd. lra. }
      exists (c_y :: ys). repeat split.
      * intros [| fuel] grid Hf; [lia |]. simpl.
        replace (Rltb c_y v_end) with true by (symmetry; now apply Rltb_true).
        rewrite Hrun by lia. now rewrite <- app_assoc.
      * constructor; [assumption |].
        eapply Forall_impl; [| exact Hlow]. simpl. intros. lra.
      * constructor; [lra |].
        eapply Forall_impl; [| exact Hlow]. simpl. intros. lra.
      * intros _. now exists ys.
    + exists []. repeat split.
      * intros [| fuel] grid Hf; [lia |]. simpl.
        replace (Rltb c_y v_end) with false by (symmetry; apply Rltb_false; lra).
        now rewrite app_nil_r.
      * constructor.
      * constructor.
      * intros. lra.
Qed.

Variable v_start_array : R * R.
Variable N : nat.
Hypothesis starts_covered :
  forall i, v_end - index2 v_start_array i <= INR N * v_step.
Hypothesis starts_below : forall i, index2 v_start_array i < v_end.

(** The outer loop: one non-empty column per step, at ascending [c_x]. *)
Lemma outer_loop_exact (M : nat) :
  forall (c_x c_y : R) (idx : Z),
    v_end - c_y <= INR N * v_step ->
    c_y < v_end ->
    h_end - c_x <= INR M * h_step ->
    exists cols : list (R * list R),
      (forall fuel n grid, (N < fuel)%nat -> (M < n)%nat ->
         outer_loop fuel n grid c_x c_y idx h_step v_step h_end v_end
                    v_start_array
         = Done (grid ++ flat_map place cols))
      /\ StronglySorted Rlt (map fst cols)
      /\ Forall (fun col => c_x <= fst col) cols
      /\ Forall (fun col => StronglySorted Rlt (snd col) /\ snd col <> []) cols
      /\ (c_x < h_end ->
          exists tl rest, cols = (c_x, c_y :: tl) :: rest).
Proof.
  induction M as [| M' IH]; intros c_x c_y idx Hcy Hbelow Hd.
  - simpl in Hd. exists []. repeat split; try constructor.
    + intros fuel [| n] grid Hf Hn; [lia |]. simpl.
      replace (Rltb c_x h_end) with false by (symmetry; apply Rltb_false; lra).
      now rewrite app_nil_r.
    + intros. lra.
  - destruct (Rlt_dec c_x h_end) as [Hlt | Hge].
    + destruct (inner_loop_exact c_x N Hcy)
        as (ys & Hin & Hsort & _ & Hhead).
      destruct (Hhead Hbelow) as [tl ->].
      destruct (IH (c_x + h_step) (index2 v_start_array idx)
                   ((idx + 1) mod 2)%Z)
        as (cols & Hrun & Hxs & Hlow & Hcols & _).
      { apply starts_covered. }
      { apply starts_below. }
      { rewrite S_INR in Hd. lra. }
      exists ((c_x, c_y :: tl) :: cols). repeat split.
      * intros fuel [| n] grid Hf Hn; [lia |]. simpl.
        replace (Rltb c_x h_end) with true by (symmetry; now apply Rltb_true).
        rewrite Hin by assumption. simpl.
        rewrite Hrun by lia. unfold place at 2. simpl.
        now rewrite <- app_assoc.
      * simpl. constructor; [assumption |].
        rewrite Forall_map. eapply Forall_impl; [| exact Hlow].
        simpl. intros. lra.
      * constructor; [simpl; lra |].
        eapply Forall_impl; [| exact Hlow]. simpl. intros. lra.
      * constructor; [| assumption]. simpl. split; [assumption | discriminate].
      * intros _. now exists tl, cols.
    + exists []. repeat split; try constructor.
      * intros fuel [| n] grid Hf Hn; [lia |]. simpl.
        replace (Rltb c_x h_end) with false by (symmetry; apply Rltb_false; lra).
        now rewrite app_nil_r.
      * intros. lra.
Qed.

End ExactLoops.

Section ExactGrid.
Import Exact Hexagon.
Local Open Scope R_scope.

Lemma py_min_Rmin (a b : R) : py_min a b = Rmin a b.
Proof.
  unfold py_min, Rmin. simpl. unfold Rltb.
  destruct (Rlt_dec b a), (Rle_dec a b); lra.
Qed.

Lemma py_max_Rmax (a b : R) : py_max a b = Rmax a b.
Proof.
  unfold py_max, Rmax. simpl. unfold Rltb.
  destruct (Rlt_dec a b), (Rle_dec a b); lra.
Qed.

(** The start of a row or column is the largest multiple of the step that
    is strictly below the box's minimum. *)
Lemma start_strictly_below (x step : R) :
  0 < step ->
  IZR (Rceil (x / step) - 1) * step < x
  /\ x <= IZR (Rceil (x / step) - 1) * step + step.
Proof.
  intros Hs. destruct (Rceil_bounds (x / step)) as [Hlo Hhi].
  rewrite minus_IZR.
  assert (Hx : x = x / step * step) by (field; lra).
  split.
  - rewrite Hx at 2. apply Rmult_lt_compat_r; assumption.
  - replace ((IZR (Rceil (x / step)) - 1) * step + step)
      with (IZR (Rceil (x / step)) * step) by ring.
    rewrite Hx at 1. apply Rmult_le_compat_r; lra.
Qed.

Lemma create_hexgrid_unfold (fuel : nat) (bbx : bbox) (side : R) :
  0 < side ->
  let v_step := sqrt 3 * side in
  let h_step := 1.5 * side in
  let x_min := Rmin (bbx0 bbx) (bbx2 bbx) in
  let x_max := Rmax (bbx0 bbx) (bbx2 bbx) in
  let y_min := Rmin (bbx1 bbx) (bbx3 bbx) in
  let y_max := Rmax (bbx1 bbx) (bbx3 bbx) in
  let h_skip := (Rceil (x_min / h_step) - 1)%Z in
  let v_skip := (Rceil (y_min / v_step) - 1)%Z in
  let h_start := IZR h_skip * h_step in
  let v_start := IZR v_skip * v_step in
  let v_start_array := (v_start + v_step / 2, v_start) in
  create_hexgrid fuel bbx side
  = outer_loop fuel fuel [] h_start
               (index2 v_start_array (Z.abs h_skip mod 2))
               ((Z.abs h_skip mod 2 + 1) mod 2)%Z
               h_step v_step (x_max + h_step) (y_max + v_step) v_start_array.
Proof.
  intros Hside v_step h_step x_min x_max y_min y_max h_skip v_skip
         h_start v_start v_start_array.
  assert (Hh : 0 < h_step) by (unfold h_step; lra).
  assert (Hv : 0 < v_step).
  { unfold v_step. apply Rmult_lt_0_compat; [apply sqrt3_pos | lra]. }
  unfold create_hexgrid, truediv.
  rewrite !py_min_Rmin, !py_max_Rmax.
  simpl. fold h_step v_step.
  rewrite !Reqb_false by lra. simpl.
  fold x_min y_min x_max y_max h_skip v_skip h_start v_start.
  destruct (start_strictly_below y_min Hv) as [Hlo _].
  fold v_skip v_start in Hlo.
  replace (Rltb (v_start - v_step / 2) y_min) with true
    by (symmetry; apply Rltb_true; lra).
  reflexivity.
Qed.

Lemma index2_parity (arr : R * R) (z : Z) :
  index2 arr (Z.abs z mod 2) = if Z.even z then fst arr else snd arr.
Proof.
  unfold index2. rewrite <- Zeven_mod.
  replace (Z.even (Z.abs z)) with (Z.even z); [reflexivity |].
  destruct z as [| p | p]; try destruct p; reflexivity.
Qed.

(** Shape of the result of [create_hexgrid] in exact arithmetic: enough
    fuel gives a list of non-empty columns, the first one starting at
    [(h_start, c_y0)]. *)
Lemma create_hexgrid_exact (bbx : bbox) (side : R) :
  0 < side ->
  let v_step := sqrt 3 * side in
  let h_step := 1.5 * side in
  let x_min := Rmin (bbx0 bbx) (bbx2 bbx) in
  let y_min := Rmin (bbx1 bbx) (bbx3 bbx) in
  let h_skip := (Rceil (x_min / h_step) - 1)%Z in
  let v_skip := (Rceil (y_min / v_step) - 1)%Z in
  let h_start := IZR h_skip * h_step in
  let v_start := IZR v_skip * v_step in
  let c_y0 := if Z.even h_skip then v_start + v_step / 2 else v_start in
  exists (fuel0 : nat) (tl : list R) (rest : list (R * list R)),
    let cols := (h_start, c_y0 :: tl) :: rest in
    (forall fuel, (fuel0 <= fuel)%nat ->
       create_hexgrid fuel bbx side = Done (flat_map place cols))
    /\ StronglySorted Rlt (map fst cols)
    /\ Forall (fun col => StronglySorted Rlt (snd col) /\ snd col <> []) cols.
Proof.
  intros Hside v_step h_step x_min y_min h_skip v_skip h_start v_start c_y0.
  set (x_max := Rmax (bbx0 bbx) (bbx2 bbx)).
  set (y_max := Rmax (bbx1 bbx) (bbx3 bbx)).
  set (arr := (v_start + v_step / 2, v_start)).
  assert (Hh : 0 < h_step) by (unfold h_step; lra).
  assert (Hv : 0 < v_step).
  { unfold v_step. apply Rmult_lt_0_compat; [apply sqrt3_pos | lra]. }
  destruct (start_strictly_below x_min Hh) as [Hx _].
  destruct (start_strictly_below y_min Hv) as [Hy _].
  fold h_skip h_start in Hx. fold v_skip v_start in Hy.
  assert (Hxm : x_min <= x_max).
  { unfold x_min, x_max.
    pose proof (Rmin_l (bbx0 bbx) (bbx2 bbx)).
    pose proof (Rmax_l (bbx0 bbx) (bbx2 bbx)). lra. }
  assert (Hym : y_min <= y_max).
  { unfold y_min, y_max.
    pose proof (Rmin_l (bbx1 bbx) (bbx3 bbx)).
    pose proof (Rmax_l (bbx1 bbx) (bbx3 bbx)). lra. }
  destruct (steps_cover (y_max + v_step - v_start) Hv) as [N HN].
  destruct (steps_cover (x_max + h_step - h_start) Hh) as [M HM].
  assert (Hcov : forall i, y_max + v_step - index2 arr i <= INR N * v_step).
  { intros i. unfold index2, arr. destruct (i =? 0)%Z; simpl; lra. }
  assert (Hbel : forall i, index2 arr i < y_max + v_step).
  { intros i. unfold index2, arr. destruct (i =? 0)%Z; simpl; lra. }
  destruct (@outer_loop_exact h_step v_step (x_max + h_step)
              (y_max + v_step) Hh Hv arr N Hcov Hbel M h_start
              (index2 arr (Z.abs h_skip mod 2))
              ((Z.abs h_skip mod 2 + 1) mod 2)%Z
              (Hcov _) (Hbel _) HM)
    as (cols & Hrun & Hxs & _ & Hcols & Hfirst).
  destruct Hfirst as (tl & rest & ->); [lra |].
  exists (S (Nat.max N M)), tl, rest.
  assert (Hc : index2 arr (Z.abs h_skip mod 2) = c_y0).
  { rewrite index2_parity. reflexivity. }
  rewrite Hc in *.
  repeat split; try assumption.
  intros fuel Hfuel.
  rewrite create_hexgrid_unfold by assumption.
  fold v_step h_step x_min y_min x_max y_max h_skip v_skip h_start v_start arr.
  rewrite Hc. rewrite Hrun by lia. reflexivity.
Qed.

End ExactGrid.

(** ** create_hexgrid: termination *)

Section Termination.
Import Exact Hexagon.
Local Open Scope R_scope.

(** C10 (as amended): in exact real arithmetic [create_hexgrid] terminates
    for every bounding box, in any corner order, and every edge length
    [side > 0]: some amount of fuel, and any larger one, yields the same
    finite list of centers and no exception. *)
Theorem create_hexgrid_terminates_exact (bbx : bbox) (side : R) :
  0 < side ->
  exists (fuel0 : nat) (grid : list (R * R)),
    forall fuel, (fuel0 <= fuel)%nat ->
                 create_hexgrid fuel bbx side = Done grid.
Proof.
  intros Hside.
  destruct (create_hexgrid_exact bbx Hside) as (fuel0 & tl & rest & Hrun & _).
  eexists fuel0, _. exact Hrun.
Qed.

Lemma create_hexgrid_terminates_exact_witness :
  0 < 1 /\
  exists (fuel0 : nat) (grid : list (R * R)),
    forall fuel, (fuel0 <= fuel)%nat ->
                 create_hexgrid fuel (2, 1, 1, 0) 1 = Done grid.
Proof.
  split; [lra | apply (@create_hexgrid_terminates_exact (2, 1, 1, 0) 1); lra].
Defined.

End Termination.

Section AbsorbedStep.
Context {F : Type} `{PyFloat F}.

Lemma inner_loop_never_raises (fuel : nat) :
  forall (grid : list (F * F)) (c_x c_y v_step v_end : F) (e : exn),
    inner_loop fuel grid c_x c_y v_step v_end <> Raised e.
Proof.
  induction fuel as [| fuel' IH]; intros grid c_x c_y v_step v_end e.
  - discriminate.
  - simpl. destruct (flt c_y v_end); [apply IH | discriminate].
Qed.

(** When adding [h_step] to [c_x] gives [c_x] back and [c_x] is below
    [h_end], the outer loop makes no progress: no bound on its iterations is
    enough. *)
Lemma outer_loop_absorbed (fuel : nat) (c_x h_step h_end : F) :
  flt c_x h_end = true ->
  fadd c_x h_step = c_x ->
  forall (n : nat) (grid : list (F * F)) (c_y : F) (idx : Z)
         (v_step v_end : F) (arr : F * F),
    outer_loop fuel n grid c_x c_y idx h_step v_step h_end v_end arr
    = OutOfFuel.
Proof.
  intros Hlt Habs n.
  induction n as [| n' IH]; intros grid c_y idx v_step v_end arr.
  - reflexivity.
  - simpl. rewrite Hlt.
    destruct (inner_loop fuel grid c_x c_y v_step v_end) as [grid' | e |] eqn:E.
    + simpl. rewrite Habs. apply IH.
    + now apply inner_loop_never_raises in E.
    + reflexivity.
Qed.

End AbsorbedStep.

Section Binary64Divergence.
Import Binary64.
Local Open Scope float_scope.

(** The binary64 instance runs: the box [(1, 0, 2, 1)] with [side = 1]
    gives three columns of three centers, the first column at [x = 0]. *)
Example create_hexgrid_binary64_sample :
  exists grid,
    create_hexgrid 5 (1, 0, 2, 1) 1 = Done grid
    /\ map fst grid = [0; 0; 0; 1.5; 1.5; 1.5; 3; 3; 3].
Proof. eexists. split; vm_compute; reflexivity. Qed.

(** C10, counterexample: in binary64 arithmetic the box
    [(1e17, 0, 1e17 + 128, 1)] with [side = 1] makes [create_hexgrid] loop
    forever: no amount of fuel lets the run end, with a list or with an
    exception. The first column is at [c_x = 1e17], where [c_x + 1.5]
    rounds back to [c_x], so [c_x < h_end] holds at every iteration. *)
Lemma create_hexgrid_binary64_diverges :
  ~ exists fuel : nat,
      create_hexgrid fuel (1e17, 0, 100000000000000128, 1) 1 <> OutOfFuel.
Proof.
  intros [fuel Hends]. apply Hends.
  change (create_hexgrid fuel (1e17, 0, 100000000000000128, 1) 1)
    with (outer_loop fuel fuel [] 1e17
            (index2 (PrimFloat.sqrt 3 * 1 * (-1) + PrimFloat.sqrt 3 * 1 / 2,
                     PrimFloat.sqrt 3 * 1 * (-1)) 1)
            0%Z
            1.5 (PrimFloat.sqrt 3 * 1) 100000000000000128
            (1 + PrimFloat.sqrt 3 * 1)
            (PrimFloat.sqrt 3 * 1 * (-1) + PrimFloat.sqrt 3 * 1 / 2,
             PrimFloat.sqrt 3 * 1 * (-1))).
  apply outer_loop_absorbed; reflexivity.
Qed.

End Binary64Divergence.

(** ** Binary64: where rounding shows *)

Section Binary64Rounding.
Import Binary64.
Local Open Scope float_scope.

(** The division of [truediv] and the [math.ceil] that follows it are, in
    binary64, the ceiling of the IEEE quotient: on a zero divisor numpy
    gives an infinity or nan, and [math.ceil] raises on it. *)
Lemma truediv_ceil_binary64 (a b : float) :
  (q <- truediv a b ;; ceil q) = float_ceil (PrimFloat.div a b).
Proof.
  unfold truediv. cbn [fis_zero flt of_int fdiv ceil float_PyFloat].
  destruct (PrimFloat.eqb b PrimFloat.zero) eqn:Hzero; [| reflexivity].
  rewrite FloatAxioms.eqb_spec in Hzero. rewrite !FloatAxioms.ltb_spec.
  unfold float_ceil. rewrite FloatAxioms.div_spec.
  change (Prim2SF PrimFloat.zero) with (S754_zero false) in Hzero.
  change (Prim2SF (float_of_Z 0)) with (S754_zero false).
  destruct (Prim2SF b) as [sb | sb | | sb mb eb];
    try discriminate; try (destruct sb; discriminate).
  destruct (Prim2SF a) as [sa | sa | | sa ma ea];
    try destruct sa; reflexivity.
Qed.

(** In binary64 the first column can sit on the left edge of the box:
    for the box [(0.54, 0, 1, 1)] and [side = 0.12] the quotient
    [x_min / h_step] rounds to [3.0000000000000004], its ceiling is 4, and
    the first of the 28 centers is at [x = 0.54 = x_min]. *)
Lemma create_hexgrid_binary64_starts_at_x_min :
  exists (y : float) (rest : list (float * float)),
    create_hexgrid 100 (0x1.147ae147ae148p-1, 0, 1, 1) 0x1.eb851eb851eb8p-4
    = Done ((0x1.147ae147ae148p-1, y) :: rest)
    /\ List.length rest = 27%nat.
Proof. eexists _, _. split; vm_compute; reflexivity. Qed.


End Binary64Rounding.

(** ** create_hexgrid: where the grid starts *)

Section GridStart.
Import Exact Hexagon.
Local Open Scope R_scope.

Lemma Rceil_two_thirds : Rceil (1 / (1.5 * 1)) = 1%Z.
Proof. apply Rceil_unique. lra. Qed.

Lemma Rfloor_two_thirds : Rfloor (1 / (1.5 * 1)) = 0%Z.
Proof.
  unfold Rfloor. rewrite <- (up_tech (1 / (1.5 * 1)) 0); [reflexivity | |];
    simpl; lra.
Qed.

(** C6, counterexample: for the box [(1, 0, 2, 1)] and [side = 1] the
    first column is at [x = 0], the largest multiple of [1.5] below
    [x_min = 1]; the claimed start, one step further left, is [-1.5]. *)
Lemma create_hexgrid_start_not_one_step_left :
  exists (fuel : nat) (c : R * R) (rest : list (R * R)),
    create_hexgrid fuel (1, 0, 2, 1) 1 = Done (c :: rest)
    /\ fst c = 0
    /\ claimed_start_x (1, 0, 2, 1) 1 = -1.5
    /\ fst c <> claimed_start_x (1, 0, 2, 1) 1.
Proof.
  destruct (@create_hexgrid_exact (1, 0, 2, 1) 1)
    as (fuel0 & tl & rest & Hrun & _); [lra |].
  assert (Hmin : Rmin 1 2 = 1) by (apply Rmin_left; lra).
  assert (Hc : claimed_start_x (1, 0, 2, 1) 1 = -1.5).
  { unfold claimed_start_x. cbn [bbx0 bbx2 fst snd].
    rewrite Hmin, Rfloor_two_thirds. lra. }
  eexists fuel0, _, _. split; [apply Hrun; lia |].
  cbn [fst snd bbx0 bbx2]. rewrite Hmin, Rceil_two_thirds, Hc.
  replace (IZR (1 - 1)) with 0 by reflexivity.
  split; [lra | split; [reflexivity | lra]].
Qed.

End GridStart.

(** ** create_hexagon: vertices and area *)

Section HexagonArea.
Import Exact Hexagon.
Local Open Scope R_scope.

Lemma hexagon_angles :
  map (fun a : Z => (cos (radians (IZR a)), sin (radians (IZR a))))
      (py_range 0 360 60)
  = [(1, 0); (1 / 2, sqrt 3 / 2); (- (1 / 2), sqrt 3 / 2);
     (- 1, 0); (- (1 / 2), - (sqrt 3 / 2)); (1 / 2, - (sqrt 3 / 2))].
Proof.
  change (py_range 0 360 60) with [0; 60; 120; 180; 240; 300]%Z.
  unfold radians. cbn [map].
  replace (0 * (PI / 180)) with 0 by field.
  replace (60 * (PI / 180)) with (PI / 3) by field.
  replace (120 * (PI / 180)) with (2 * (PI / 3)) by field.
  replace (180 * (PI / 180)) with PI by field.
  replace (240 * (PI / 180)) with (PI / 3 + PI) by field.
  replace (300 * (PI / 180)) with (2 * (PI / 3) + PI) by field.
  rewrite !neg_cos, !neg_sin.
  rewrite cos_0, sin_0, cos_PI3, sin_PI3, cos_2PI3, sin_2PI3, cos_PI, sin_PI.
  repeat f_equal; lra.
Qed.

Lemma create_hexagon_vertices (l x y : R) :
  create_hexagon l x y
  = [(x + 1 * l, y + 0 * l);
     (x + 1 / 2 * l, y + sqrt 3 / 2 * l);
     (x + - (1 / 2) * l, y + sqrt 3 / 2 * l);
     (x + - 1 * l, y + 0 * l);
     (x + - (1 / 2) * l, y + - (sqrt 3 / 2) * l);
     (x + 1 / 2 * l, y + - (sqrt 3 / 2) * l)].
Proof.
  unfold create_hexagon.
  rewrite <- (map_map
                (fun a : Z => (cos (radians (IZR a)), sin (radians (IZR a))))
                (fun cs => (x + fst cs * l, y + snd cs * l))).
  rewrite hexagon_angles. reflexivity.
Qed.

Lemma create_hexagon_length (l x y : R) :
  List.length (create_hexagon l x y) = 6%nat.
Proof. rewrite create_hexagon_vertices. reflexivity. Qed.

(** The polygon built for edge [l] has the area of a regular hexagon. *)
Lemma create_hexagon_area (l x y : R) :
  polygon_area (create_hexagon l x y) = 3 * sqrt 3 / 2 * (l * l).
Proof.
  rewrite create_hexagon_vertices.
  unfold polygon_area, shoelace, cross. cbn [fst snd].
  pose proof sqrt3_pos as Hp.
  replace (_ / 2) with (3 * sqrt 3 / 2 * (l * l)) by field.
  apply Rabs_pos_eq.
  assert (0 <= l * l) by nra. nra.
Qed.

Lemma hex_edge_square (Area : R) :
  hex_edge Area * hex_edge Area = Area ^ 2 / (3 / 2 * sqrt 3).
Proof.
  unfold hex_edge. apply sqrt_sqrt.
  pose proof sqrt3_pos.
  apply Rmult_le_pos; [nra |].
  left. apply Rinv_0_lt_compat. nra.
Qed.

(** The hexagon built from [hex_edge Area] has area [Area ^ 2]. *)
Lemma hex_edge_hexagon_area (Area x y : R) :
  polygon_area (create_hexagon (hex_edge Area) x y) = Area ^ 2.
Proof.
  rewrite create_hexagon_area, hex_edge_square.
  pose proof sqrt3_pos. field. lra.
Qed.

Lemma hex_edge_pos (Area : R) : Area <> 0 -> 0 < hex_edge Area.
Proof.
  intros HA. unfold hex_edge. apply sqrt_lt_R0.
  pose proof sqrt3_pos.
  apply Rmult_lt_0_compat; [nra |].
  apply Rinv_0_lt_compat. nra.
Qed.

End HexagonArea.

(** ** create_hexgrid: the order of the loops, in any arithmetic *)

Section LoopOrder.
Context {F : Type} `{PyFloat F}.




End LoopOrder.

(** ** The planning-unit grid: order, identifiers, cell area *)

Section PlanningUnitGrid.
Import Exact Hexagon.
Local Open Scope R_scope.

(** Row [k] of a frame built from a list holds element [k] of the list and
    index [k]. *)
Lemma frame_row (A : Type) (l : list A) :
  forall (s k : nat) (a : A),
    nth_error l k = Some a ->
    nth_error (combine (map Z.of_nat (seq s (List.length l))) l) k
    = Some (Z.of_nat (s + k), a).
Proof.
  induction l as [| x l' IH]; intros s k a Hk.
  - destruct k; discriminate.
  - destruct k as [| k']; simpl in *.
    + injection Hk as ->. now rewrite Nat.add_0_r.
    + rewrite (IH (S s) k' a Hk). do 3 f_equal. lia.
Qed.

Lemma frame_index (A : Type) (l : list A) :
  forall s : nat,
    map fst (combine (map Z.of_nat (seq s (List.length l))) l)
    = map Z.of_nat (seq s (List.length l)).
Proof.
  induction l as [| x l' IH]; intros s; simpl; [reflexivity |].
  now rewrite IH.
Qed.

Lemma frame_length (A : Type) (l : list A) (s : nat) :
  List.length (combine (map Z.of_nat (seq s (List.length l))) l)
  = List.length l.
Proof.
  rewrite length_combine, length_map, length_seq. apply Nat.min_id.
Qed.

(** What [create_planning_unit_grid] returns once [create_hexgrid] has. *)
Lemma create_planning_unit_grid_frame (fuel : nat) (box : bbox) (Area : R)
      (centers : list (R * R)) :
  create_hexgrid fuel box (hex_edge Area) = Done centers ->
  exists cells,
    create_planning_unit_grid fuel box Area = Done cells
    /\ List.length cells = List.length centers
    /\ map (@PUID Polygon) cells
       = map Z.of_nat (seq 1 (List.length cells))
    /\ forall k c,
        nth_error centers k = Some c ->
        nth_error cells k
        = Some {| geometry := create_hexagon (hex_edge Area) (fst c) (snd c);
                  PUID := Z.of_nat k + 1 |}.
Proof.
  intros Hgrid. unfold create_planning_unit_grid. rewrite Hgrid. simpl.
  set (hexagons := map (fun center => create_hexagon (hex_edge Area)
                                        (fst center) (snd center)) centers).
  eexists. split; [reflexivity |].
  assert (Hlen : List.length hexagons = List.length centers)
    by apply length_map.
  repeat split.
  - unfold RangeIndex. now rewrite length_map, frame_length.
  - unfold RangeIndex. rewrite length_map, frame_length.
    rewrite map_map. cbn [PUID].
    rewrite <- (map_map fst (fun i => (i + 1)%Z)), frame_index.
    rewrite <- seq_shift, !map_map. apply map_ext. intros i. lia.
  - intros k c Hk. unfold RangeIndex.
    rewrite nth_error_map.
    rewrite (@frame_row _ hexagons 0 k
               (create_hexagon (hex_edge Area) (fst c) (snd c))).
    + reflexivity.
    + unfold hexagons. rewrite nth_error_map, Hk. reflexivity.
Qed.




(** Enough fuel makes the grid-building code return, for a non-zero area. *)
Lemma create_planning_unit_grid_returns (box : bbox) (Area : R) :
  Area <> 0 ->
  exists (fuel : nat) (cells : list (planning_unit Polygon)),
    create_planning_unit_grid fuel box Area = Done cells /\ cells <> [].
Proof.
  intros HA.
  destruct (create_hexgrid_exact box (hex_edge_pos HA))
    as (fuel0 & tl & rest & Hrun & _).
  destruct (create_planning_unit_grid_frame fuel0 box Area
              (Hrun fuel0 (Nat.le_refl _)))
    as (cells & Hret & Hlen & _).
  exists fuel0, cells. split; [assumption |].
  intros ->. simpl in Hlen. discriminate.
Qed.

(** C8: in every grid the grid-building code returns, the PUID column is
    exactly 1, 2, ..., N for the N cells, in row order, without
    duplicates. *)
Theorem PUIDs_dense (fuel : nat) (box : bbox) (Area : R)
        (cells : list (planning_unit Polygon)) :
  create_planning_unit_grid fuel box Area = Done cells ->
  map (@PUID Polygon) cells = map Z.of_nat (seq 1 (List.length cells))
  /\ NoDup (map (@PUID Polygon) cells).
Proof.
  intros Hret.
  assert (Hseq : map (@PUID Polygon) cells
                 = map Z.of_nat (seq 1 (List.length cells))).
  { unfold create_planning_unit_grid in Hret.
    destruct (create_hexgrid fuel box (hex_edge Area))
      as [centers | e |] eqn:Hgrid; try discriminate.
    destruct (create_planning_unit_grid_frame fuel box Area Hgrid)
      as (cells' & Hret' & _ & Hids & _).
    unfold create_planning_unit_grid in Hret'. rewrite Hgrid in Hret'.
    simpl in Hret, Hret'. rewrite Hret in Hret'.
    injection Hret' as <-. exact Hids. }
  split; [exact Hseq |].
  rewrite Hseq. apply Finite.Injective_map_NoDup; [| apply seq_NoDup].
  intros a b. apply Nat2Z.inj.
Qed.

Lemma PUIDs_dense_witness :
  exists (fuel : nat) (cells : list (planning_unit Polygon)),
    create_planning_unit_grid fuel (0, 0, 10, 10) 5 = Done cells
    /\ cells <> []
    /\ map (@PUID Polygon) cells = map Z.of_nat (seq 1 (List.length cells))
    /\ NoDup (map (@PUID Polygon) cells).
Proof.
  assert (H5 : 5 <> 0) by lra.
  destruct (create_planning_unit_grid_returns (0, 0, 10, 10) H5)
    as (fuel & cells & Hret & Hne).
  exists fuel, cells.
  split; [exact Hret | split; [exact Hne |]].
  exact (PUIDs_dense fuel (0, 0, 10, 10) 5 Hret).
Defined.

(** Every cell of a returned grid is a polygon of 6 vertices whose area is
    the square of the requested area. *)
Lemma grid_cell_area (fuel : nat) (box : bbox) (Area : R)
      (cells : list (planning_unit Polygon)) :
  create_planning_unit_grid fuel box Area = Done cells ->
  Forall (fun cell => List.length (geometry cell) = 6%nat
                      /\ polygon_area (geometry cell) = Area ^ 2) cells.
Proof.
  unfold create_planning_unit_grid.
  destruct (create_hexgrid fuel box (hex_edge Area))
    as [centers | e |]; try discriminate.
  simpl. intros Hret. injection Hret as <-.
  rewrite Forall_map. apply Forall_forall. intros [i g] Hin. simpl.
  apply in_combine_r in Hin. apply in_map_iff in Hin.
  destruct Hin as (c & <- & _).
  split; [apply create_hexagon_length | apply hex_edge_hexagon_area].
Qed.

(** C1, at the failing input: for the requested cell area 2 over the box
    [(0, 0, 10, 10)] the code returns a non-empty grid each of whose cells
    has 6 vertices and area 4, not 2 -- line 181 (and 238) squares the area
    before solving for the edge. *)
Theorem grid_cell_area_is_squared :
  exists (fuel : nat) (cells : list (planning_unit Polygon)),
    create_planning_unit_grid fuel (0, 0, 10, 10) 2 = Done cells
    /\ cells <> []
    /\ Forall (fun cell => List.length (geometry cell) = 6%nat
                           /\ polygon_area (geometry cell) = 4
                           /\ polygon_area (geometry cell) <> 2) cells.
Proof.
  assert (H2 : 2 <> 0) by lra.
  destruct (create_planning_unit_grid_returns (0, 0, 10, 10) H2)
    as (fuel & cells & Hret & Hne).
  exists fuel, cells. split; [exact Hret | split; [exact Hne |]].
  eapply Forall_impl; [| exact (grid_cell_area fuel (0, 0, 10, 10) 2 Hret)].
  simpl. intros cell [H6 Harea]. rewrite Harea. repeat split; [assumption | |]; lra.
Qed.

End PlanningUnitGrid.

(** ** numpy and pandas helpers *)

Section Helpers.

Lemma split_sizes_concat (A : Type) (sizes : list nat) :
  forall ary : list A,
    List.length ary = list_sum sizes ->
    concat (split_sizes ary sizes) = ary.
Proof.
  induction sizes as [| s rest IH]; intros ary Hlen; simpl in *.
  - now destruct ary.
  - rewrite IH.
    + apply firstn_skipn.
    + rewrite length_skipn. lia.
Qed.

Lemma split_sizes_length (A : Type) (sizes : list nat) :
  forall ary : list A, List.length (split_sizes ary sizes) = List.length sizes.
Proof.
  induction sizes as [| s rest IH]; intros ary; simpl; [reflexivity |].
  now rewrite IH.
Qed.

Lemma list_sum_repeat (a n : nat) : list_sum (repeat a n) = (n * a)%nat.
Proof. induction n as [| n' IH]; simpl; [reflexivity | now rewrite IH]. Qed.

(** The sections [np.array_split] returns are [n] in number and, put back
    together in order, give the array. *)
Lemma array_split_sections (A : Type) (ary : list A) (n : nat) :
  n <> 0%nat ->
  exists divisions,
    array_split ary n = Done divisions
    /\ List.length divisions = n
    /\ concat divisions = ary.
Proof.
  intros Hn. unfold array_split.
  destruct (Nat.eqb_spec n 0) as [-> | _]; [contradiction |].
  eexists. split; [reflexivity |].
  pose proof (Nat.mod_upper_bound (List.length ary) n Hn) as Hmod.
  split.
  - rewrite split_sizes_length, length_app, !repeat_length. lia.
  - apply split_sizes_concat.
    rewrite list_sum_app, !list_sum_repeat.
    pose proof (Nat.div_mod_eq (List.length ary) n) as Hdiv. nia.
Qed.

Lemma astype_int_of_integer (z : Z) :
  astype_int (inject_Z z) = if in_int64 z then z else int64_min.
Proof.
  unfold astype_int. destruct (Qle_bool 0 (inject_Z z)).
  - now rewrite Qfloor_Z.
  - now rewrite Qceiling_Z.
Qed.

(** [round()] followed by [astype(int)] is rounding to the nearest integer,
    halves to even, as long as the result fits int64. *)
Lemma astype_int_series_round (q : Q) :
  in_int64 (round_half_even q) = true ->
  astype_int (series_round q) = round_half_even q.
Proof.
  intros Hfit. unfold series_round.
  now rewrite astype_int_of_integer, Hfit.
Qed.

Lemma round_half_even_nearest (q : Q) :
  (inject_Z (round_half_even q) - (1 # 2) <= q
   /\ q <= inject_Z (round_half_even q) + (1 # 2))%Q.
Proof.
  unfold round_half_even.
  pose proof (Qfloor_le q) as Hlo. pose proof (Qlt_floor q) as Hhi.
  rewrite inject_Z_plus in Hhi. change (inject_Z 1) with 1%Q in Hhi.
  destruct (Qcompare (q - inject_Z (Qfloor q)) (1 # 2)) eqn:E.
  - apply Qeq_alt in E.
    destruct (Z.even (Qfloor q)).
    + split; Lqa.lra.
    + rewrite inject_Z_plus. change (inject_Z 1) with 1%Q. split; Lqa.lra.
  - apply Qlt_alt in E. split; Lqa.lra.
  - apply Qgt_alt in E. rewrite inject_Z_plus.
    change (inject_Z 1) with 1%Q. split; Lqa.lra.
Qed.

End Helpers.

(** ** The overlap engine against any geopandas *)

Section Engine.
Variable G : Type.
Variable lib : geopandas G.






End Engine.

Section EngineExamples.
Import Raster.




End EngineExamples.

(** ** The overlap engine on exact geometry *)

Section ListFacts.

Lemma flat_map_ext_in (A B : Type) (f g : A -> list B) (l : list A) :
  (forall a, In a l -> f a = g a) -> flat_map f l = flat_map g l.
Proof.
  induction l as [| a l' IH]; intros Hfg; simpl; [reflexivity |].
  rewrite (Hfg a) by now left.
  rewrite IH; [reflexivity |]. intros. apply Hfg. now right.
Qed.

Lemma filter_none (A : Type) (p : A -> bool) (l : list A) :
  (forall a, In a l -> p a = false) -> filter p l = [].
Proof.
  induction l as [| a l' IH]; intros Hp; simpl; [reflexivity |].
  rewrite (Hp a) by now left. apply IH. intros. apply Hp. now right.
Qed.

Lemma flat_map_nil_in (A B : Type) (f : A -> list B) (l : list A) :
  (forall a, In a l -> f a = []) -> flat_map f l = [].
Proof.
  induction l as [| a l' IH]; intros Hf; simpl; [reflexivity |].
  rewrite (Hf a) by now left. apply IH. intros. apply Hf. now right.
Qed.

(** Collecting by rows then by columns, or the other way round, gives the
    same elements. *)
Lemma flat_map_pointwise_app (A B : Type) (f g : A -> list B) (l : list A) :
  Permutation (flat_map (fun a => f a ++ g a) l)
              (flat_map f l ++ flat_map g l).
Proof.
  induction l as [| a l' IH]; simpl; [constructor |].
  rewrite IH, <- !app_assoc. apply Permutation_app_head.
  rewrite !app_assoc. apply Permutation_app_tail.
  apply Permutation_app_comm.
Qed.

Lemma flat_map_swap (A B C : Type) (f : A -> B -> list C) (la : list A) (lb : list B) :
  Permutation (flat_map (fun a => flat_map (f a) lb) la)
              (flat_map (fun b => flat_map (fun a => f a b) la) lb).
Proof.
  induction la as [| a la' IH]; simpl.
  - rewrite flat_map_nil_in by reflexivity. constructor.
  - rewrite IH. symmetry. apply flat_map_pointwise_app.
Qed.

Lemma concat_rows (A B C : Type) (f : A -> B -> list C) (la : list A)
      (lb : list B) :
  concat (concat (map (fun a => map (f a) lb) la))
  = flat_map (fun a => flat_map (f a) lb) la.
Proof.
  induction la as [| a la' IH]; simpl; [reflexivity |].
  now rewrite concat_app, IH, <- flat_map_concat_map.
Qed.

Lemma completion_order_identity (A : Type) (tasks : list A) :
  forall done_before : list A,
    completion_order (seq (List.length done_before) (List.length tasks))
                     (done_before ++ tasks)
    = tasks.
Proof.
  induction tasks as [| t rest IH]; intros done_before; [reflexivity |].
  simpl. rewrite nth_error_app2, Nat.sub_diag by lia. simpl. f_equal.
  specialize (IH (done_before ++ [t])).
  rewrite length_app, <- app_assoc in IH. simpl in IH.
  rewrite Nat.add_1_r in IH. exact IH.
Qed.

(** Every task's result is handed over exactly once. *)
Lemma completion_order_permutation (A : Type) (completion : list nat) (tasks : list A) :
  Permutation completion (seq 0 (List.length tasks)) ->
  Permutation (completion_order completion tasks) tasks.
Proof.
  intros Hperm. unfold completion_order.
  rewrite (Permutation_flat_map _ Hperm).
  change (Permutation
            (completion_order (seq (List.length (@nil A)) (List.length tasks))
                              ([] ++ tasks)) tasks).
  now rewrite completion_order_identity.
Qed.

End ListFacts.

Section EngineRows.
Variable G : Type.
Variable lib : geopandas G.
Variable rows : GeoDataFrame G -> Layer G -> list (intersection_row G).

Lemma calculate_loop_rows (planning_grid : GeoDataFrame G)
      (cons_layers : list (Layer G)) :
  (forall layer,
      In layer cons_layers -> layer <> [] ->
      layer_intersection lib planning_grid layer
      = Done (rows planning_grid layer)) ->
  forall intersections out,
    snd (calculate_loop lib planning_grid cons_layers intersections out)
    = Done (intersections
            ++ map (rows planning_grid) (nonempty_layers cons_layers)).
Proof.
  unfold nonempty_layers.
  induction cons_layers as [| layer rest IH]; intros Hrows acc out; simpl.
  - now rewrite app_nil_r.
  - destruct layer as [| f fs]; cbn [empty negb].
    + apply IH. intros l Hl. apply Hrows. now right.
    + rewrite Hrows; [| now left | discriminate].
      cbn [filter empty negb map].
      rewrite IH, <- app_assoc; [reflexivity |].
      intros l Hl. apply Hrows. now right.
Qed.

Lemma extend_results_done
      (results : list (list string *
                       result (list (list (intersection_row G)))))
      (values : list (list (list (intersection_row G)))) :
  map snd results = map Done values ->
  forall intersections out,
    snd (extend_results results intersections out)
    = Done (intersections ++ concat values).
Proof.
  revert values.
  induction results as [| [printed r] rest IH]; intros values Hv acc out.
  - destruct values; [| discriminate]. simpl. now rewrite app_nil_r.
  - destruct values as [| v values']; [discriminate |].
    simpl in Hv. injection Hv as -> Hrest. simpl.
    rewrite (IH values' Hrest), <- app_assoc. reflexivity.
Qed.

Lemma completion_order_map (A B : Type) (f : A -> B) (completion : list nat)
      (tasks : list A) :
  completion_order completion (map f tasks)
  = map f (completion_order completion tasks).
Proof.
  unfold completion_order.
  induction completion as [| i rest IH]; simpl; [reflexivity |].
  rewrite map_app, IH, nth_error_map.
  now destruct (nth_error tasks i).
Qed.

Lemma in_concat_incl (A : Type) (sections : list (list A)) (d : list A) :
  In d sections -> incl d (concat sections).
Proof.
  intros Hd a Ha. apply in_concat. now exists d.
Qed.

Hypothesis rows_app : forall d1 d2 layer,
    rows (d1 ++ d2) layer = rows d1 layer ++ rows d2 layer.
Hypothesis rows_nil : forall layer, rows [] layer = [].

Lemma rows_concat (layer : Layer G) (divisions : list (GeoDataFrame G)) :
  flat_map (fun division => rows division layer) divisions
  = rows (concat divisions) layer.
Proof.
  induction divisions as [| d rest IH]; simpl; [now rewrite rows_nil |].
  now rewrite IH, rows_app.
Qed.

(** When the work on every partition and non-empty layer returns the
    rows [rows] gives, [calculate_overlap] returns, for any positive core
    count and any order of completion, and its rows are those of the whole
    grid against each non-empty layer. *)
Lemma calculate_overlap_rows (planning_grid : GeoDataFrame G)
      (cons_layers : list (Layer G)) (CORES : nat) (completion : list nat) :
  CORES <> 0%nat ->
  Permutation completion (seq 0 CORES) ->
  (forall division layer,
      incl division planning_grid ->
      In layer cons_layers -> layer <> [] ->
      layer_intersection lib division layer = Done (rows division layer)) ->
  exists intersections,
    snd (calculate_overlap lib planning_grid cons_layers CORES completion)
    = Done intersections
    /\ Permutation
         (concat intersections)
         (flat_map (rows planning_grid) (nonempty_layers cons_layers)).
Proof.
  intros Hcores Hperm Hrows. unfold calculate_overlap.
  destruct cons_layers as [| l0 ls]; [exists []; split; constructor |].
  destruct planning_grid as [| c0 cs].
  { exists []. split; [reflexivity |]. simpl.
    rewrite flat_map_nil_in; [constructor |]. intros. apply rows_nil. }
  cbn [List.length Nat.eqb empty].
  destruct (array_split_sections (c0 :: cs) Hcores)
    as (divisions & Hsplit & Hlen & Hcat).
  rewrite Hsplit, completion_order_map.
  set (ordered := completion_order completion divisions).
  assert (Hord : Permutation ordered divisions).
  { apply completion_order_permutation. now rewrite Hlen. }
  set (nonempty := nonempty_layers (l0 :: ls)).
  eexists. split.
  - apply extend_results_done
      with (values := map (fun d => map (rows d) nonempty) ordered).
    rewrite !map_map. apply map_ext_in. intros d Hd.
    unfold calculate. rewrite calculate_loop_rows; [reflexivity |].
    intros layer Hl Hne. apply Hrows; try assumption.
    rewrite <- Hcat. apply in_concat_incl.
    apply (Permutation_in _ Hord). exact Hd.
  - cbn [app]. rewrite concat_rows.
    rewrite <- Hcat.
    rewrite (Permutation_flat_map _ Hord), flat_map_swap.
    erewrite flat_map_ext; [reflexivity |].
    intros l. apply rows_concat.
Qed.

End EngineRows.

Section ExactEngine.
Variable G : Type.
Variable ops : geometry_ops G.

Lemma polys_not_lines (t : geometry_type) :
  type_isin t polys = true ->
  type_isin t lines = false /\ type_isin t points = false.
Proof. destruct t; simpl; intros H; try discriminate; now split. Qed.

Lemma family_of_polys (t : geometry_type) :
  type_isin t polys = true -> family_of t = Some polys.
Proof. intros H. unfold family_of. now rewrite H. Qed.

Lemma polys_not_mixed (df : list G) :
  (forall g, In g df -> type_isin (geom_type ops g) polys = true) ->
  mixed_geometry_types ops df = false.
Proof.
  intros Hpoly. unfold mixed_geometry_types.
  assert (Hl : existsb (fun g => type_isin (geom_type ops g) lines) df
               = false).
  { apply not_true_is_false. intros H. apply existsb_exists in H.
    destruct H as (g & Hg & Ht).
    destruct (polys_not_lines _ (Hpoly g Hg)) as [Hn _]. congruence. }
  assert (Hp : existsb (fun g => type_isin (geom_type ops g) points) df
               = false).
  { apply not_true_is_false. intros H. apply existsb_exists in H.
    destruct H as (g & Hg & Ht).
    destruct (polys_not_lines _ (Hpoly g Hg)) as [_ Hn]. congruence. }
  rewrite Hl, Hp.
  now destruct (existsb (fun g => type_isin (geom_type ops g) polys) df).
Qed.

Lemma keep_geom_type_app (family : list geometry_type)
      (r1 r2 : list (overlay_row G)) :
  keep_geom_type ops family (r1 ++ r2)
  = keep_geom_type ops family r1 ++ keep_geom_type ops family r2.
Proof. unfold keep_geom_type. apply flat_map_app. Qed.

Lemma polygon_rows_app (d1 d2 : GeoDataFrame G) (layer : Layer G) :
  polygon_rows ops (d1 ++ d2) layer
  = polygon_rows ops d1 layer ++ polygon_rows ops d2 layer.
Proof.
  unfold polygon_rows, overlay_intersection.
  now rewrite flat_map_app, keep_geom_type_app, map_app.
Qed.

Hypothesis laws : geometry_laws ops.

(** Frames whose bounds do not overlap have no pair of rows that
    intersect. *)
Lemma bounds_overlap_meet (l1 l2 : list G) (a b : G) :
  In a l1 -> In b l2 ->
  intersects ops a b = true ->
  bounds_overlap ops l1 l2 = true.
Proof.
  intros Ha Hb Hmeet. unfold bounds_overlap.
  destruct l1 as [| a0 l1']; [contradiction |].
  destruct l2 as [| b0 l2']; [contradiction |].
  apply (boxes_meet laws) with (a := a) (b := b); try assumption.
  unfold intersects in Hmeet. now apply negb_true_iff in Hmeet.
Qed.

Lemma overlay_intersection_apart (df1 : GeoDataFrame G) (df2 : Layer G) :
  bounds_overlap ops (map (@geometry G) df1) (map (@f_geometry G) df2)
  = false ->
  overlay_intersection ops df1 df2 = [].
Proof.
  intros Hapart. unfold overlay_intersection.
  apply flat_map_nil_in. intros c Hc.
  apply flat_map_nil_in. intros f Hf.
  destruct (intersects ops (geometry c) (f_geometry f)) eqn:Hmeet;
    [| reflexivity].
  rewrite (@bounds_overlap_meet _ _ (geometry c) (f_geometry f)) in Hapart;
    [discriminate | now apply in_map | now apply in_map | exact Hmeet].
Qed.

(** [gpd.overlay] on a frame of polygons. *)
Lemma overlay_polygons (df1 : GeoDataFrame G) (df2 : Layer G) :
  (forall c, In c df1 -> type_isin (geom_type ops (geometry c)) polys = true) ->
  mixed_geometry_types ops (map (@f_geometry G) df2) = false ->
  overlay ops df1 df2
  = Done (keep_geom_type ops polys (overlay_intersection ops df1 df2)).
Proof.
  intros Hpoly Hlayer. unfold overlay.
  rewrite polys_not_mixed, Hlayer.
  2:{ intros g Hg. apply in_map_iff in Hg. destruct Hg as (c & <- & Hc).
      now apply Hpoly. }
  destruct (bounds_overlap ops (map (@geometry G) df1)
                           (map (@f_geometry G) df2)) eqn:Hb; cbn [negb].
  - destruct df1 as [| first rest]; [reflexivity |].
    rewrite family_of_polys; [reflexivity |]. apply Hpoly. now left.
  - now rewrite overlay_intersection_apart.
Qed.

(** [gpd.clip]: the test on the bounds changes nothing. *)
Lemma clip_rows (gdf : GeoDataFrame G) (mask : list G) :
  clip ops gdf mask
  = map (fun c => {| geometry := clipped_geometry ops (unary_union ops mask)
                                                  (geometry c);
                     PUID := PUID c |})
        (filter (fun c => intersects ops (geometry c) (unary_union ops mask))
                gdf).
Proof.
  unfold clip.
  destruct (bounds_overlap ops (map (@geometry G) gdf) mask) eqn:Hb;
    cbn [negb]; [reflexivity |].
  rewrite filter_none; [reflexivity |].
  intros c Hc.
  destruct (intersects ops (geometry c) (unary_union ops mask)) eqn:Hmeet;
    [| reflexivity].
  unfold intersects in Hmeet. apply negb_true_iff in Hmeet.
  destruct (union_meets laws _ _ Hmeet) as (b & Hb' & Hab).
  rewrite (@bounds_overlap_meet _ _ (geometry c) b) in Hb;
    [discriminate | now apply in_map | exact Hb' |].
  unfold intersects. now rewrite Hab.
Qed.

Section OneLayer.
Variable layer : Layer G.

Let hulls : G :=
  unary_union ops (map (convex_hull ops) (map (@f_geometry G) layer)).

Lemma cut_to_hulls (g : G) (f : feature G) :
  In f layer ->
  intersection ops (intersection ops g hulls) (f_geometry f)
  = intersection ops g (f_geometry f).
Proof.
  intros Hf. rewrite (intersection_assoc laws). unfold hulls.
  rewrite (within_hulls laws); [reflexivity |]. now apply in_map.
Qed.

Lemma clipped_geometry_feature (g : G) (f : feature G) :
  In f layer ->
  intersection ops (clipped_geometry ops hulls g) (f_geometry f)
  = intersection ops g (f_geometry f).
Proof.
  intros Hf. unfold clipped_geometry.
  destruct (geom_type ops g); try reflexivity; now apply cut_to_hulls.
Qed.

Lemma apart_from_hulls (g : G) (f : feature G) :
  In f layer ->
  intersects ops g hulls = false ->
  intersects ops g (f_geometry f) = false.
Proof.
  intros Hf Hapart. unfold intersects in *.
  apply negb_false_iff in Hapart. apply negb_false_iff.
  rewrite <- (cut_to_hulls g _ Hf).
  now apply (empty_intersection laws).
Qed.

(** The clip to the hulls of the layer does not change the rows of the
    overlay: the same pairs intersect, in the same geometries. *)
Lemma overlay_intersection_clip (planning_grid : GeoDataFrame G) :
  overlay_intersection ops
    (clip ops planning_grid
          (map (convex_hull ops) (map (@f_geometry G) layer)))
    layer
  = overlay_intersection ops planning_grid layer.
Proof.
  rewrite clip_rows. fold hulls. unfold overlay_intersection.
  induction planning_grid as [| c rest IH]; [reflexivity |].
  cbn [filter flat_map].
  destruct (intersects ops (geometry c) hulls) eqn:E;
    cbn [map flat_map]; rewrite IH.
  - f_equal. apply flat_map_ext_in. intros f Hf. cbn [geometry PUID].
    unfold intersects. now rewrite (clipped_geometry_feature _ _ Hf).
  - rewrite (@flat_map_nil_in _ _ _ layer); [reflexivity |].
    intros f Hf. now rewrite (apart_from_hulls _ _ Hf E).
Qed.

(** Lines 624-629 when no cell merely touches the hulls. *)
Lemma layer_intersection_polygonal (planning_grid : GeoDataFrame G) :
  polygonal_clip ops planning_grid layer ->
  layer_intersection (ideal ops) planning_grid layer
  = Done (polygon_rows ops planning_grid layer).
Proof.
  intros [Hlayer Hcells]. unfold layer_intersection.
  cbn [gpd_clip gs_convex_hull gpd_overlay ideal bind].
  rewrite overlay_polygons; [| | exact Hlayer].
  - cbn [bind]. unfold polygon_rows.
    now rewrite overlay_intersection_clip.
  - intros c' Hc'. rewrite clip_rows in Hc'.
    apply in_map_iff in Hc'. destruct Hc' as (c & <- & Hc).
    apply filter_In in Hc. destruct Hc as [Hc Hmeet].
    cbn [geometry]. now apply Hcells.
Qed.

End OneLayer.

Lemma polygonal_clip_incl (division planning_grid : GeoDataFrame G)
      (layer : Layer G) :
  incl division planning_grid ->
  polygonal_clip ops planning_grid layer ->
  polygonal_clip ops division layer.
Proof.
  intros Hincl [Hlayer Hcells]. split; [exact Hlayer |].
  intros c Hc. apply Hcells. now apply Hincl.
Qed.

(** With exact geometry and no cell that merely touches the hulls of a
    layer, [calculate_overlap] returns, for any positive core count and
    any order of completion, the rows of the whole grid against each
    layer. *)
Lemma calculate_overlap_polygonal (planning_grid : GeoDataFrame G)
      (cons_layers : list (Layer G)) (CORES : nat) (completion : list nat) :
  CORES <> 0%nat ->
  Permutation completion (seq 0 CORES) ->
  (forall layer, In layer cons_layers -> layer <> [] ->
                 polygonal_clip ops planning_grid layer) ->
  exists intersections,
    snd (calculate_overlap (ideal ops) planning_grid cons_layers CORES
                           completion)
    = Done intersections
    /\ Permutation
         (concat intersections)
         (flat_map (polygon_rows ops planning_grid)
                   (nonempty_layers cons_layers)).
Proof.
  intros Hcores Hperm Hpoly.
  apply calculate_overlap_rows; try assumption.
  - intros d1 d2 layer. apply polygon_rows_app.
  - reflexivity.
  - intros division layer Hincl Hl Hne.
    apply layer_intersection_polygonal.
    apply polygonal_clip_incl with (planning_grid := planning_grid);
      [exact Hincl | now apply Hpoly].
Qed.

Lemma polygon_rows_records (planning_grid : GeoDataFrame G)
      (layer : Layer G) :
  map (@overlap_record G) (polygon_rows ops planning_grid layer)
  = expected_records ops planning_grid layer.
Proof.
  unfold polygon_rows, expected_records, overlay_intersection.
  induction planning_grid as [| c rest IH]; [reflexivity |].
  cbn [flat_map]. rewrite keep_geom_type_app, !map_app, IH. f_equal.
  clear IH. induction layer as [| f fs IHf]; [reflexivity |].
  cbn [flat_map]. rewrite keep_geom_type_app, !map_app, IHf. f_equal.
  unfold pair_records.
  destruct (intersects ops (geometry c) (f_geometry f)); [| reflexivity].
  unfold keep_geom_type. cbn [flat_map o_geometry].
  destruct (kept_geometry ops polys
              (intersection ops (geometry c) (f_geometry f)));
    reflexivity.
Qed.

Lemma expected_records_nonempty (planning_grid : GeoDataFrame G)
      (cons_layers : list (Layer G)) :
  flat_map (expected_records ops planning_grid)
           (nonempty_layers cons_layers)
  = flat_map (expected_records ops planning_grid) cons_layers.
Proof.
  unfold nonempty_layers.
  induction cons_layers as [| layer rest IH]; [reflexivity |].
  destruct layer as [| f fs]; cbn [filter empty negb flat_map].
  - rewrite IH.
    assert (Hnil : expected_records ops planning_grid [] = []).
    { unfold expected_records. now apply flat_map_nil_in. }
    now rewrite Hnil.
  - now rewrite IH.
Qed.

End ExactEngine.

Section ExactEngineClaims.
Variable G : Type.
Variable ops : geometry_ops G.
Hypothesis laws : geometry_laws ops.

(** Where no cell merely touches the hulls of a layer, the number of
    partitions does not matter: the runs with one and with [k] partitions
    both return, and their records are the same multiset. *)
Lemma partitioning_preserves_polygonal_records
      (planning_grid : GeoDataFrame G) (cons_layers : list (Layer G))
      (k : nat) (completion1 completionk : list nat) :
  (1 < k)%nat ->
  Permutation completion1 (seq 0 1) ->
  Permutation completionk (seq 0 k) ->
  (forall layer, In layer cons_layers -> layer <> [] ->
                 polygonal_clip ops planning_grid layer) ->
  exists r1 rk,
    snd (calculate_overlap (ideal ops) planning_grid cons_layers 1
                           completion1) = Done r1
    /\ snd (calculate_overlap (ideal ops) planning_grid cons_layers k
                              completionk) = Done rk
    /\ Permutation (records r1) (records rk).
Proof.
  intros Hk Hp1 Hpk Hpoly.
  destruct (@calculate_overlap_polygonal _ ops laws planning_grid
              cons_layers 1 completion1)
    as (r1 & Hr1 & Hrows1); [lia | assumption | assumption |].
  destruct (@calculate_overlap_polygonal _ ops laws planning_grid
              cons_layers k completionk)
    as (rk & Hrk & Hrowsk); [lia | assumption | assumption |].
  exists r1, rk. repeat split; try assumption.
  unfold records. apply Permutation_map.
  now rewrite Hrows1, Hrowsk.
Qed.

(** Where the cells are polygons and none merely touches the hulls of the
    layer, the clip loses nothing: lines 624-629 compute the rows of the
    overlay of the whole grid with the layer. *)
Lemma clip_preserves_polygonal_rows
      (planning_grid : GeoDataFrame G) (layer : Layer G) :
  (forall c, In c planning_grid ->
             type_isin (geom_type ops (geometry c)) polys = true) ->
  polygonal_clip ops planning_grid layer ->
  layer_intersection (ideal ops) planning_grid layer
  = direct_intersection ops planning_grid layer.
Proof.
  intros Hcells Hpoly.
  rewrite (layer_intersection_polygonal laws Hpoly).
  unfold direct_intersection.
  rewrite (overlay_polygons laws) by (try assumption; apply Hpoly).
  reflexivity.
Qed.

Lemma kept_polygon (g : G) :
  type_isin (geom_type ops g) polys = true ->
  kept_geometry ops polys g = Some g.
Proof.
  intros Ht. unfold kept_geometry.
  destruct (geom_type ops g); try discriminate; reflexivity.
Qed.

Lemma dropped_line_or_point (g : G) :
  type_isin (geom_type ops g) (lines ++ points) = true ->
  kept_geometry ops polys g = None.
Proof.
  intros Ht. unfold kept_geometry.
  destruct (geom_type ops g); try discriminate; reflexivity.
Qed.

Lemma AMOUNT_of_row (lib : geopandas G) (o : overlay_row G) :
  AMOUNT (set_AMOUNT lib o)
  = astype_int (series_round (gs_area lib (r_geometry (set_AMOUNT lib o)))).
Proof. reflexivity. Qed.

(** C9 (as amended): for a grid no cell of which merely touches the hulls
    of a layer, [calculate_overlap] returns exactly one record for each
    pair of a cell and a feature that intersect in a polygon (or in a
    collection with a polygonal part, for that part), and no other
    record. The AMOUNT of a row is the area of its geometry, rounded
    half to even and cast to int64: the nearest integer whenever that fits
    int64. No pair is left out for a small area, so a pair whose area
    rounds to 0 has its record too; a pair that intersects in a line or
    a point only has none, whatever its area. *)
Theorem one_record_per_polygonal_pair
        (planning_grid : GeoDataFrame G) (cons_layers : list (Layer G))
        (CORES : nat) (completion : list nat) :
  CORES <> 0%nat ->
  Permutation completion (seq 0 CORES) ->
  (forall layer, In layer cons_layers -> layer <> [] ->
                 polygonal_clip ops planning_grid layer) ->
  exists intersections,
    snd (calculate_overlap (ideal ops) planning_grid cons_layers CORES
                           completion) = Done intersections
    /\ Permutation (records intersections)
                   (flat_map (expected_records ops planning_grid) cons_layers)
    /\ (forall row,
          In row (concat intersections) ->
          AMOUNT row = astype_int (series_round (area ops (r_geometry row)))
          /\ (in_int64 (round_half_even (area ops (r_geometry row))) = true ->
              AMOUNT row = round_half_even (area ops (r_geometry row))
              /\ (inject_Z (AMOUNT row) - (1 # 2) <= area ops (r_geometry row)
                  /\ area ops (r_geometry row)
                     <= inject_Z (AMOUNT row) + (1 # 2))%Q))
    /\ (forall layer c f,
          In layer cons_layers -> In c planning_grid -> In f layer ->
          let g := intersection ops (geometry c) (f_geometry f) in
          (intersects ops (geometry c) (f_geometry f) = true ->
           type_isin (geom_type ops g) polys = true ->
           In (PUID c, ID (f_attributes f), amount ops g)
              (records intersections))
          /\ (type_isin (geom_type ops g) (lines ++ points) = true ->
              pair_records ops c f = [])).
Proof.
  intros Hcores Hperm Hpoly.
  destruct (@calculate_overlap_polygonal _ ops laws planning_grid
              cons_layers CORES completion Hcores Hperm Hpoly)
    as (rs & Hrs & Hrows).
  assert (Hrec : Permutation
                   (records rs)
                   (flat_map (expected_records ops planning_grid)
                             cons_layers)).
  { unfold records. rewrite Hrows.
    rewrite flat_map_concat_map, concat_map, map_map,
      <- flat_map_concat_map.
    rewrite <- expected_records_nonempty.
    erewrite flat_map_ext; [reflexivity |].
    intros layer. apply polygon_rows_records. }
  exists rs. split; [assumption |]. split; [assumption |]. split.
  - intros row Hrow.
    apply (Permutation_in _ Hrows) in Hrow.
    apply in_flat_map in Hrow. destruct Hrow as (layer & _ & Hrow).
    apply in_map_iff in Hrow. destruct Hrow as (o & <- & _).
    rewrite AMOUNT_of_row. cbn [gs_area ideal].
    split; [reflexivity |]. intros Hfit.
    rewrite (astype_int_series_round _ Hfit).
    split; [reflexivity | apply round_half_even_nearest].
  - intros layer c f Hl Hc Hf g. split.
    + intros Hmeet Htype.
      apply (Permutation_in _ (Permutation_sym Hrec)).
      apply in_flat_map. exists layer. split; [assumption |].
      unfold expected_records.
      apply in_flat_map. exists c. split; [assumption |].
      apply in_flat_map. exists f. split; [assumption |].
      unfold pair_records. fold g.
      rewrite Hmeet, (kept_polygon g Htype). now left.
    + intros Htype. unfold pair_records. fold g.
      rewrite (dropped_line_or_point g Htype).
      now destruct (intersects ops (geometry c) (f_geometry f)).
Qed.

End ExactEngineClaims.

(** ** The strip geometries satisfy the laws *)

Section StripLaws.
Local Open Scope N_scope.

Lemma trailing_zeros_low (p : positive) :
  forall n, n < trailing_zeros p -> N.testbit (Npos p) n = false.
Proof.
  induction p as [p' IH | p' IH |]; intros n Hn; simpl in Hn; try lia.
  destruct (N.eq_dec n 0) as [-> | Hpos]; [reflexivity |].
  replace n with (N.succ (N.pred n)) by (apply N.succ_pred; assumption).
  change (Npos p'~0) with (2 * Npos p').
  rewrite N.testbit_even_succ by lia.
  apply IH. lia.
Qed.

Lemma hull_covers (g : N) : N.land (hull g) g = g.
Proof.
  destruct g as [| p]; [reflexivity |].
  apply N.bits_inj. intros n. rewrite N.land_spec.
  destruct (N.testbit (Npos p) n) eqn:Hbit; [| apply andb_false_r].
  rewrite andb_true_r. unfold hull.
  assert (Hlo : trailing_zeros p <= n).
  { destruct (N.le_gt_cases (trailing_zeros p) n) as [H | H]; [exact H |].
    rewrite (trailing_zeros_low p H) in Hbit. discriminate. }
  assert (Hhi : n < N.size (Npos p)).
  { destruct (N.lt_ge_cases n (N.size (Npos p))) as [H | H]; [exact H |].
    rewrite N.size_log2 in H by discriminate.
    rewrite N.bits_above_log2 in Hbit by lia. discriminate. }
  rewrite N.shiftl_spec_high' by exact Hlo.
  apply N.ones_spec_low. lia.
Qed.

Lemma hulls_cover (fs : list N) (f : N) :
  In f fs -> N.land (fold_right N.lor 0 (map hull fs)) f = f.
Proof.
  intros Hin. apply N.bits_inj. intros n. rewrite N.land_spec.
  destruct (N.testbit f n) eqn:Hbit; [| apply andb_false_r].
  rewrite andb_true_r.
  induction fs as [| a rest IH]; [contradiction |].
  simpl. rewrite N.lor_spec. destruct Hin as [-> | Hin].
  - pose proof (hull_covers f) as Hc.
    apply (f_equal (fun g => N.testbit g n)) in Hc.
    rewrite N.land_spec, Hbit, andb_true_r in Hc. now rewrite Hc.
  - rewrite IH by assumption. apply orb_true_r.
Qed.

Lemma union_meets_member (a : N) (l : list N) :
  N.eqb (N.land a (fold_right N.lor 0 l)) 0 = false ->
  exists b, In b l /\ N.eqb (N.land a b) 0 = false.
Proof.
  induction l as [| b rest IH]; simpl; intros Hmeet.
  - rewrite N.land_0_r in Hmeet. discriminate.
  - destruct (N.eqb (N.land a b) 0) eqn:Hb.
    + apply N.eqb_eq in Hb.
      rewrite N.land_lor_distr_r, Hb, N.lor_0_l in Hmeet.
      destruct (IH Hmeet) as (b' & Hin & Hb').
      exists b'. split; [now right | exact Hb'].
    + exists b. split; [now left | exact Hb].
Qed.

(** A cell of a geometry lies between its bounds. *)
Lemma cell_within_bounds (g i : N) :
  N.testbit g i = true ->
  exists lo hi, cell_bounds g = Some (lo, hi) /\ lo <= i <= hi.
Proof.
  intros Hbit. destruct g as [| p]; [discriminate |].
  exists (trailing_zeros p), (N.log2 (Npos p)). split; [reflexivity |].
  split.
  - destruct (N.le_gt_cases (trailing_zeros p) i) as [H | H]; [exact H |].
    rewrite (trailing_zeros_low p H) in Hbit. discriminate.
  - destruct (N.le_gt_cases i (N.log2 (Npos p))) as [H | H]; [exact H |].
    rewrite N.bits_above_log2 in Hbit by exact H. discriminate.
Qed.

Lemma total_bounds_cover (df : list N) (g i : N) :
  In g df -> N.testbit g i = true ->
  exists lo hi, total_cell_bounds df = Some (lo, hi) /\ lo <= i <= hi.
Proof.
  induction df as [| a rest IH]; [contradiction |].
  intros Hin Hbit. simpl. destruct Hin as [-> | Hin].
  - destruct (cell_within_bounds _ _ Hbit) as (lo & hi & -> & Hlo & Hhi).
    destruct (total_cell_bounds rest) as [[lo' hi'] |].
    + eexists _, _. split; [reflexivity | lia].
    + eexists _, _. split; [reflexivity | lia].
  - destruct (IH Hin Hbit) as (lo & hi & -> & Hlo & Hhi).
    destruct (cell_bounds a) as [[lo' hi'] |].
    + eexists _, _. split; [reflexivity | lia].
    + eexists _, _. split; [reflexivity | lia].
Qed.

Lemma common_cell (a b : N) :
  N.eqb (N.land a b) 0 = false ->
  exists i, N.testbit a i = true /\ N.testbit b i = true.
Proof.
  intros Hmeet. apply N.eqb_neq in Hmeet.
  exists (N.log2 (N.land a b)).
  pose proof (N.bit_log2 _ Hmeet) as Hbit.
  rewrite N.land_spec in Hbit. now apply andb_true_iff in Hbit.
Qed.

Lemma cell_boxes_meet (l1 l2 : list N) (a b : N) :
  In a l1 -> In b l2 ->
  N.eqb (N.land a b) 0 = false ->
  cell_boxes_overlap l1 l2 = true.
Proof.
  intros Ha Hb Hmeet.
  destruct (common_cell _ _ Hmeet) as (i & Hai & Hbi).
  destruct (total_bounds_cover _ _ _ Ha Hai) as (lo1 & hi1 & H1 & Hlo1 & Hhi1).
  destruct (total_bounds_cover _ _ _ Hb Hbi) as (lo2 & hi2 & H2 & Hlo2 & Hhi2).
  unfold cell_boxes_overlap. rewrite H1, H2.
  apply andb_true_iff. split; apply N.leb_le; lia.
Qed.

Lemma strip_laws : geometry_laws Strip.strip.
Proof.
  split; simpl.
  - intros a b c. symmetry. apply N.land_assoc.
  - exact hulls_cover.
  - intros a b Ha. apply N.eqb_eq in Ha. subst a. reflexivity.
  - exact union_meets_member.
  - exact cell_boxes_meet.
Qed.

End StripLaws.

Section StripExamples.
Import Strip.

(** C2: the number of partitions decides whether the run returns. On
    [touching_grid] the clip leaves the first cell a polygon and the
    second one the segment it shares with the feature. With one partition
    both rows are in one frame and [gpd.overlay] refuses it
    ([NotImplementedError]): no record reaches the caller. With two
    partitions each frame is of one type, both workers return, and the
    caller gets two records, the second one for the pair that only
    touches. *)
Theorem partition_count_changes_outcome :
  array_split touching_grid 1 = Done [touching_grid]
  /\ array_split touching_grid 2
     = Done [[unit 1 (rect 0 2)]; [unit 2 (rect 3 5)]]
  /\ snd (calculate_overlap (ideal strip) touching_grid [one_feature] 1
                            [0]%nat)
     = Raised NotImplementedError
  /\ (forall completion,
        Permutation completion (seq 0 2) ->
        exists rk,
          snd (calculate_overlap (ideal strip) touching_grid [one_feature] 2
                                 completion) = Done rk
          /\ Permutation (records rk) [(1, 10, 1); (2, 10, 0)]%Z).
Proof.
  split; [reflexivity |]. split; [reflexivity |]. split; [reflexivity |].
  intros completion Hperm.
  assert (Hcases : completion = [0; 1]%nat \/ completion = [1; 0]%nat).
  { pose proof (Permutation_length Hperm) as Hlen.
    destruct completion as [| i [| j [| ? ?]]]; try discriminate.
    assert (Hi : In i [0; 1]%nat)
      by (apply (Permutation_in _ Hperm); now left).
    assert (Hj : In j [0; 1]%nat)
      by (apply (Permutation_in _ Hperm); right; now left).
    assert (Hnd : NoDup [i; j]).
    { apply (Permutation_NoDup (Permutation_sym Hperm)).
      apply seq_NoDup. }
    inversion Hnd as [| ? ? Hnotin _]; subst.
    simpl in Hi, Hj, Hnotin.
    destruct Hi as [<- | [<- | []]]; destruct Hj as [<- | [<- | []]];
      try (exfalso; apply Hnotin; now left); [now left | now right]. }
  destruct Hcases as [-> | ->].
  - eexists. split; [reflexivity |]. apply Permutation_refl.
  - eexists. split; [reflexivity |]. apply perm_swap.
Qed.

(** C4: the clip to the hull changes the outcome. On [touching_grid] the
    second cell meets the hull of the feature in a segment only; the clip
    keeps it as a LineString next to the polygon of the first cell, and
    [gpd.overlay] raises on the mixed frame: [calculate] emits nothing.
    Intersecting every cell with the feature directly returns, with the
    record of the pair that overlaps. *)
Theorem convex_hull_clip_raises :
  gpd_clip (ideal strip) touching_grid
           (gs_convex_hull (ideal strip) (map (@f_geometry N) one_feature))
  = Done [unit 1 (rect 1 2); unit 2 (rect 3 3)]
  /\ map (fun c => geom_type strip (geometry c))
         [unit 1 (rect 1 2); unit 2 (rect 3 3)]
     = [T_Polygon; T_LineString]
  /\ snd (calculate (ideal strip) touching_grid [one_feature])
     = Raised NotImplementedError
  /\ exists rows,
      direct_intersection strip touching_grid one_feature = Done rows
      /\ map (@overlap_record N) rows = [(1, 10, 1)]%Z.
Proof.
  split; [reflexivity |]. split; [reflexivity |]. split; [reflexivity |].
  eexists. split; reflexivity.
Qed.

Lemma one_record_per_polygonal_pair_witness :
  exists intersections,
    snd (calculate_overlap (ideal strip) one_cell [two_features; []] 2
                           [1; 0]%nat) = Done intersections
    /\ Permutation (records intersections) [(1, 11, 1)]%Z.
Proof.
  destruct (@one_record_per_polygonal_pair _ strip strip_laws
              one_cell [two_features; []] 2 [1; 0]%nat)
    as (rs & Hrs & Hrec & _).
  - discriminate.
  - apply perm_swap.
  - intros layer [<- | [<- | []]] Hne; [| contradiction].
    split; [reflexivity |].
    intros c [<- | []] hulls _. reflexivity.
  - exists rs. split; [exact Hrs | exact Hrec].
Defined.

(** C9, counterexample: the cell [0 <= x <= 2] and feature 10, the
    rectangle [2 <= x <= 4], share the side [x = 2]: their intersection
    is not empty. The run returns, and there is no record for that pair:
    [gpd.overlay] keeps the polygons only. *)
Lemma touching_pair_has_no_record :
  is_empty strip (intersection strip (rect 0 2) (rect 2 4)) = false
  /\ geom_type strip (intersection strip (rect 0 2) (rect 2 4))
     = T_LineString
  /\ (exists intersections,
        snd (calculate_overlap (ideal strip) one_cell [two_features] 1
                               [0]%nat) = Done intersections
        /\ records intersections = [(1, 11, 1)]%Z)
  /\ ~ (exists intersections amount,
          snd (calculate_overlap (ideal strip) one_cell [two_features] 1
                                 [0]%nat) = Done intersections
          /\ In (1, 10, amount)%Z (records intersections)).
Proof.
  split; [reflexivity |]. split; [reflexivity |]. split.
  - eexists. split; reflexivity.
  - intros (rs & a & Hrs & Hin).
    vm_compute in Hrs. injection Hrs as <-.
    vm_compute in Hin. destruct Hin as [Heq | []]. discriminate.
Qed.

End StripExamples.

(** * Further properties *)

(** ** create_hexgrid: the lattice of centers *)

Section GridColumns.
Import Exact Hexagon GridShape.
Local Open Scope R_scope.

Lemma column_of_cons (v_step x y : R) (m : nat) :
  column_of v_step (x, y, S m) = (x, y) :: column_of v_step (x, y + v_step, m).
Proof.
  unfold column_of. cbn [fst snd seq map]. f_equal.
  - f_equal. simpl. ring.
  - rewrite <- seq_shift, map_map. apply map_ext. intros j.
    f_equal. rewrite S_INR. ring.
Qed.

Variables h_step v_step h_end v_end : R.

(** The inner loop appends the centers [c_y + j * v_step], [j < m], where
    [m] is the least count that reaches [v_end]. *)
Lemma inner_loop_rows (c_x : R) (N : nat) :
  forall c_y : R,
    v_end - c_y <= INR N * v_step ->
    exists m : nat,
      (forall fuel grid, (N < fuel)%nat ->
         inner_loop fuel grid c_x c_y v_step v_end
         = Done (grid ++ column_of v_step (c_x, c_y, m)))
      /\ v_end <= c_y + INR m * v_step
      /\ (v_end <= c_y -> m = 0%nat)
      /\ (c_y < v_end ->
          (0 < m)%nat /\ c_y + INR (m - 1) * v_step < v_end).
Proof.
  induction N as [| N' IH]; intros c_y Hd.
  - simpl in Hd. exists 0%nat. repeat split; try (simpl; lra); try lia.
    intros [| fuel] grid Hf; [lia |]. simpl.
    replace (Rltb c_y v_end) with false by (symmetry; apply Rltb_false; lra).
    now rewrite app_nil_r.
  - destruct (Rlt_dec c_y v_end) as [Hlt | Hge].
    + destruct (IH (c_y + v_step)) as (m' & Hrun & Hreach & Hzero & Hlast).
      { rewrite S_INR in Hd. lra. }
      exists (S m'). repeat split; try lia.
      * intros [| fuel] grid Hf; [lia |]. simpl.
        replace (Rltb c_y v_end) with true by (symmetry; now apply Rltb_true).
        rewrite Hrun by lia. now rewrite column_of_cons, <- app_assoc.
      * rewrite S_INR. lra.
      * intros. lra.
      * replace (S m' - 1)%nat with m' by lia.
        destruct (Rlt_dec (c_y + v_step) v_end) as [Hnext | Hstop].
        -- destruct (Hlast Hnext) as [Hpos Hl].
           replace m' with (S (m' - 1)) by lia. rewrite S_INR. lra.
        -- rewrite Hzero by lra. simpl. lra.
    + exists 0%nat. repeat split; try (simpl; lra); try lia.
      intros [| fuel] grid Hf; [lia |]. simpl.
      replace (Rltb c_y v_end) with false by (symmetry; apply Rltb_false; lra).
      now rewrite app_nil_r.
Qed.

Variable arr : R * R.
Variable N : nat.
Hypothesis starts_covered : forall i, v_end - index2 arr i <= INR N * v_step.
Hypothesis starts_below : forall i, index2 arr i < v_end.

(** The outer loop appends one column per step: column [k] stands at
    [c_x + k * h_step] and starts from [start_row arr c_y idx k]. *)
Lemma outer_loop_columns (M : nat) :
  forall (c_x c_y : R) (idx : Z),
    (0 <= idx < 2)%Z ->
    v_end - c_y <= INR N * v_step ->
    c_y < v_end ->
    h_end - c_x <= INR M * h_step ->
    exists cols : list (R * R * nat),
      (forall fuel n grid, (N < fuel)%nat -> (M < n)%nat ->
         outer_loop fuel n grid c_x c_y idx h_step v_step h_end v_end arr
         = Done (grid ++ flat_map (column_of v_step) cols))
      /\ (forall k col,
            nth_error cols k = Some col ->
            fst (fst col) = c_x + INR k * h_step
            /\ snd (fst col) = start_row arr c_y idx k
            /\ (0 < snd col)%nat
            /\ snd (fst col) + INR (snd col - 1) * v_step < v_end
            /\ v_end <= snd (fst col) + INR (snd col) * v_step)
      /\ h_end <= c_x + INR (List.length cols) * h_step
      /\ (h_end <= c_x -> cols = [])
      /\ (c_x < h_end ->
          (0 < List.length cols)%nat
          /\ c_x + INR (List.length cols - 1) * h_step < h_end).
Proof.
  induction M as [| M' IH]; intros c_x c_y idx Hidx Hcy Hbelow Hd.
  - simpl in Hd. exists []. repeat split; try (simpl; lra); try lia.
    + intros fuel [| n] grid Hf Hn; [lia |]. simpl.
      replace (Rltb c_x h_end) with false by (symmetry; apply Rltb_false; lra).
      now rewrite app_nil_r.
    + destruct k; discriminate.
    + destruct k; discriminate.
    + destruct k; discriminate.
    + destruct k; discriminate.
    + destruct k; discriminate.
  - destruct (Rlt_dec c_x h_end) as [Hlt | Hge].
    + destruct (inner_loop_rows c_x N Hcy)
        as (m & Hin & Hreach & _ & Hlast).
      destruct (Hlast Hbelow) as [Hm Hml].
      destruct (IH (c_x + h_step) (index2 arr idx) ((idx + 1) mod 2)%Z)
        as (cols & Hrun & Hcols & Hend & Hnone & Hsome).
      { apply Z.mod_pos_bound. lia. }
      { apply starts_covered. }
      { apply starts_below. }
      { rewrite S_INR in Hd. lra. }
      exists ((c_x, c_y, m) :: cols). split; [| split; [| split; [| split]]].
      * intros fuel [| n] grid Hf Hn; [lia |]. simpl.
        replace (Rltb c_x h_end) with true by (symmetry; now apply Rltb_true).
        rewrite Hin by assumption. simpl.
        rewrite Hrun by lia. now rewrite <- app_assoc.
      * intros [| k] col Hk; simpl in Hk.
        -- injection Hk as <-. cbn [fst snd start_row].
           repeat split; try assumption. simpl. lra.
        -- destruct (Hcols k col Hk) as (Hx & Hy & Hrest).
           split; [rewrite Hx, S_INR; lra |]. split; [| exact Hrest].
           rewrite Hy. destruct k as [| k']; cbn [start_row].
           ++ rewrite Z.add_0_r, Z.mod_small by lia. reflexivity.
           ++ f_equal. rewrite Zplus_mod_idemp_l. f_equal. lia.
      * cbn [List.length]. rewrite S_INR. lra.
      * intros. lra.
      * intros _. cbn [List.length]. split; [lia |].
        replace (S (List.length cols) - 1)%nat with (List.length cols) by lia.
        destruct (Rlt_dec (c_x + h_step) h_end) as [Hnext | Hstop].
        -- destruct (Hsome Hnext) as [Hpos Hl].
           replace (List.length cols) with (S (List.length cols - 1)) by lia.
           rewrite S_INR. lra.
        -- rewrite Hnone by lra. simpl. lra.
    + exists []. repeat split; try (simpl; lra); try lia.
      * intros fuel [| n] grid Hf Hn; [lia |]. simpl.
        replace (Rltb c_x h_end) with false by (symmetry; apply Rltb_false; lra).
        now rewrite app_nil_r.
      * destruct k; discriminate.
      * destruct k; discriminate.
      * destruct k; discriminate.
      * destruct k; discriminate.
      * destruct k; discriminate.
Qed.

End GridColumns.

Section GridLattice.
Import Exact Hexagon GridShape.
Local Open Scope R_scope.

Lemma index2_mod_parity (arr : R * R) (n : Z) :
  index2 arr (n mod 2) = if Z.even n then fst arr else snd arr.
Proof. unfold index2. now rewrite <- Zeven_mod. Qed.

Lemma even_abs_plus (a b : Z) : Z.even (Z.abs a + b) = Z.even (a + b).
Proof.
  rewrite !Z.even_add. f_equal.
  destruct a as [| p | p]; try destruct p; reflexivity.
Qed.

Lemma in_column_of (v_step : R) (col : R * R * nat) (c : R * R) :
  In c (column_of v_step col) <->
  exists j : nat,
    (j < snd col)%nat
    /\ c = (fst (fst col), snd (fst col) + INR j * v_step).
Proof.
  unfold column_of. rewrite in_map_iff. split.
  - intros (j & <- & Hj). apply in_seq in Hj. exists j. split; [lia | easy].
  - intros (j & Hj & ->). exists j. split; [easy |]. apply in_seq. lia.
Qed.

(** The columns [create_hexgrid] returns, in exact arithmetic: column [k]
    stands at the multiple [h_skip + k] of [h_step]; it starts half a step
    above [v_start] when that multiple is even and at [v_start] when it is
    odd; rows and columns stop with the first one at or beyond [v_end] and
    [h_end]. *)
Lemma create_hexgrid_columns (bbx : bbox) (side : R) :
  0 < side ->
  let v_step := sqrt 3 * side in
  let h_step := 1.5 * side in
  let x_min := Rmin (bbx0 bbx) (bbx2 bbx) in
  let x_max := Rmax (bbx0 bbx) (bbx2 bbx) in
  let y_min := Rmin (bbx1 bbx) (bbx3 bbx) in
  let y_max := Rmax (bbx1 bbx) (bbx3 bbx) in
  let h_skip := (Rceil (x_min / h_step) - 1)%Z in
  let v_skip := (Rceil (y_min / v_step) - 1)%Z in
  exists (fuel0 : nat) (cols : list (R * R * nat)),
    (forall fuel, (fuel0 <= fuel)%nat ->
       create_hexgrid fuel bbx side
       = Done (flat_map (column_of v_step) cols))
    /\ (forall k col,
          nth_error cols k = Some col ->
          fst (fst col) = IZR (h_skip + Z.of_nat k) * h_step
          /\ snd (fst col)
             = IZR v_skip * v_step
               + (if Z.even (h_skip + Z.of_nat k) then v_step / 2 else 0)
          /\ (0 < snd col)%nat
          /\ snd (fst col) + INR (snd col - 1) * v_step < y_max + v_step
          /\ y_max + v_step <= snd (fst col) + INR (snd col) * v_step)
    /\ (0 < List.length cols)%nat
    /\ IZR h_skip * h_step + INR (List.length cols - 1) * h_step
       < x_max + h_step
    /\ x_max + h_step
       <= IZR h_skip * h_step + INR (List.length cols) * h_step.
Proof.
  intros Hside v_step h_step x_min x_max y_min y_max h_skip v_skip.
  set (h_start := IZR h_skip * h_step).
  set (v_start := IZR v_skip * v_step).
  set (arr := (v_start + v_step / 2, v_start)).
  assert (Hh : 0 < h_step) by (unfold h_step; lra).
  assert (Hv : 0 < v_step).
  { unfold v_step. apply Rmult_lt_0_compat; [apply sqrt3_pos | lra]. }
  destruct (start_strictly_below x_min Hh) as [Hx _].
  destruct (start_strictly_below y_min Hv) as [Hy _].
  fold h_skip h_start in Hx. fold v_skip v_start in Hy.
  assert (Hxm : x_min <= x_max).
  { unfold x_min, x_max.
    pose proof (Rmin_l (bbx0 bbx) (bbx2 bbx)).
    pose proof (Rmax_l (bbx0 bbx) (bbx2 bbx)). lra. }
  assert (Hym : y_min <= y_max).
  { unfold y_min, y_max.
    pose proof (Rmin_l (bbx1 bbx) (bbx3 bbx)).
    pose proof (Rmax_l (bbx1 bbx) (bbx3 bbx)). lra. }
  destruct (steps_cover (y_max + v_step - v_start) Hv) as [N HN].
  destruct (steps_cover (x_max + h_step - h_start) Hh) as [M HM].
  assert (Hcov : forall i, y_max + v_step - index2 arr i <= INR N * v_step).
  { intros i. unfold index2, arr. destruct (i =? 0)%Z; simpl; lra. }
  assert (Hbel : forall i, index2 arr i < y_max + v_step).
  { intros i. unfold index2, arr. destruct (i =? 0)%Z; simpl; lra. }
  set (idx0 := (Z.abs h_skip mod 2)%Z).
  assert (Hidx : (0 <= (idx0 + 1) mod 2 < 2)%Z)
    by (apply Z.mod_pos_bound; lia).
  destruct (@outer_loop_columns h_step v_step (x_max + h_step)
              (y_max + v_step) arr N Hcov Hbel M h_start
              (index2 arr idx0) ((idx0 + 1) mod 2)%Z
              Hidx (Hcov _) (Hbel _) HM)
    as (cols & Hrun & Hcols & Hend & _ & Hsome).
  destruct Hsome as [Hpos Hlast]; [lra |].
  exists (S (Nat.max N M)), cols.
  split; [| split; [| repeat split; assumption]].
  - intros fuel Hfuel. rewrite create_hexgrid_unfold by assumption.
    fold v_step h_step x_min y_min x_max y_max h_skip v_skip h_start v_start
         arr idx0.
    rewrite Hrun by lia. reflexivity.
  - intros k col Hk.
    destruct (Hcols k col Hk) as (Hcx & Hcy & Hm & Hl & Hr).
    split; [| split; [| repeat split; assumption]].
    + rewrite Hcx. unfold h_start.
      rewrite plus_IZR, <- INR_IZR_INZ. ring.
    + rewrite Hcy. destruct k as [| k']; cbn [start_row].
      * unfold idx0. rewrite index2_mod_parity, Z.add_0_r, <- (Z.add_0_r (Z.abs h_skip)), even_abs_plus, Z.add_0_r.
        unfold arr, v_start. destruct (Z.even h_skip); simpl; lra.
      * unfold idx0.
        rewrite Zplus_mod_idemp_l, <- Z.add_assoc, Zplus_mod_idemp_l.
        rewrite index2_mod_parity, even_abs_plus.
        replace (1 + Z.of_nat k')%Z with (Z.of_nat (S k')) by lia.
        unfold arr, v_start.
        destruct (Z.even (h_skip + Z.of_nat (S k'))); simpl; lra.
Qed.

End GridLattice.

Section GridWindow.
Import Exact Hexagon GridShape.
Local Open Scope R_scope.

(** Which points [create_hexgrid] returns. *)
Lemma hexgrid_membership (bbx : bbox) (side : R) :
  0 < side ->
  let v_step := sqrt 3 * side in
  let h_step := 1.5 * side in
  let x_min := Rmin (bbx0 bbx) (bbx2 bbx) in
  let x_max := Rmax (bbx0 bbx) (bbx2 bbx) in
  let y_min := Rmin (bbx1 bbx) (bbx3 bbx) in
  let y_max := Rmax (bbx1 bbx) (bbx3 bbx) in
  let h_skip := (Rceil (x_min / h_step) - 1)%Z in
  let v_skip := (Rceil (y_min / v_step) - 1)%Z in
  exists (fuel0 : nat) (grid : list (R * R)),
    (forall fuel, (fuel0 <= fuel)%nat ->
                  create_hexgrid fuel bbx side = Done grid)
    /\ forall c : R * R,
        In c grid <->
        exists K J : Z,
          c = (IZR K * h_step,
               IZR J * v_step + (if Z.even K then v_step / 2 else 0))
          /\ (h_skip <= K)%Z /\ fst c < x_max + h_step
          /\ (v_skip <= J)%Z /\ snd c < y_max + v_step.
Proof.
  intros Hside v_step h_step x_min x_max y_min y_max h_skip v_skip.
  destruct (create_hexgrid_columns bbx Hside)
    as (fuel0 & cols & Hrun & Hcols & Hpos & Hlast & Hend).
  fold v_step h_step x_min x_max y_min y_max h_skip v_skip
    in Hrun, Hcols, Hlast, Hend.
  assert (Hh : 0 < h_step) by (unfold h_step; lra).
  assert (Hv : 0 < v_step).
  { unfold v_step. apply Rmult_lt_0_compat; [apply sqrt3_pos | lra]. }
  eexists fuel0, _. split; [exact Hrun |].
  intros c. rewrite in_flat_map. split.
  - intros (col & Hcol & Hc).
    apply In_nth_error in Hcol. destruct Hcol as [k Hk].
    apply in_column_of in Hc. destruct Hc as (j & Hj & ->).
    destruct (Hcols k col Hk) as (Hx & Hy & Hm & Hl & _).
    assert (Hklen : (k < List.length cols)%nat)
      by (apply nth_error_Some; congruence).
    exists (h_skip + Z.of_nat k)%Z, (v_skip + Z.of_nat j)%Z.
    cbn [fst snd]. split; [| split; [lia | split; [| split; [lia |]]]].
    + rewrite Hx, Hy. f_equal.
      rewrite (plus_IZR v_skip), <- INR_IZR_INZ. ring.
    + rewrite Hx, plus_IZR, <- INR_IZR_INZ.
      assert (INR k <= INR (List.length cols - 1)) by (apply le_INR; lia).
      nra.
    + assert (INR j <= INR (snd col - 1)) by (apply le_INR; lia).
      nra.
  - intros (K & J & -> & HK & Hxlt & HJ & Hylt). cbn [fst snd] in Hxlt, Hylt.
    set (k := Z.to_nat (K - h_skip)). set (j := Z.to_nat (J - v_skip)).
    assert (HKk : K = (h_skip + Z.of_nat k)%Z) by (unfold k; lia).
    assert (HJj : J = (v_skip + Z.of_nat j)%Z) by (unfold j; lia).
    assert (Hklen : (k < List.length cols)%nat).
    { apply INR_lt. rewrite HKk, plus_IZR, <- INR_IZR_INZ in Hxlt. nra. }
    destruct (nth_error cols k) as [col |] eqn:Hk;
      [| apply nth_error_None in Hk; lia].
    destruct (Hcols k col Hk) as (Hx & Hy & Hm & _ & Hr).
    exists col. split; [eapply nth_error_In; eassumption |].
    apply in_column_of. exists j. split.
    + apply INR_lt. rewrite <- HKk in Hy.
      rewrite HJj, plus_IZR, <- INR_IZR_INZ in Hylt. nra.
    + rewrite Hx, Hy, <- HKk. f_equal.
      rewrite HJj, plus_IZR, <- INR_IZR_INZ. ring.
Qed.

Lemma Done_inj (A : Type) (a b : A) : Done a = Done b -> a = b.
Proof. intros H. now injection H. Qed.

(** Strictly ascending columns of strictly ascending rows repeat no
    center. *)
Lemma place_columns_NoDup (cols : list (R * list R)) :
  StronglySorted Rlt (map fst cols) ->
  Forall (fun col => StronglySorted Rlt (snd col) /\ snd col <> []) cols ->
  NoDup (flat_map place cols).
Proof.
  induction cols as [| [x ys] rest IH]; intros Hxs Hcols; [constructor |].
  simpl in Hxs. apply StronglySorted_inv in Hxs. destruct Hxs as [Hrest Hlt].
  apply Forall_cons_iff in Hcols. destruct Hcols as [[Hys _] Hcols].
  cbn [flat_map]. apply NoDup_app.
  - unfold place. cbn [fst snd]. clear -Hys.
    induction ys as [| y ys' IHy]; [constructor |].
    apply StronglySorted_inv in Hys. destruct Hys as [Hys Hy].
    cbn [map]. constructor; [| now apply IHy].
    intros Hin. apply in_map_iff in Hin. destruct Hin as (y' & Heq & Hin).
    injection Heq as ->. rewrite Forall_forall in Hy.
    specialize (Hy y Hin). lra.
  - now apply IH.
  - intros c Hc Hc'. unfold place in Hc. cbn [fst snd] in Hc.
    apply in_map_iff in Hc. destruct Hc as (y & <- & _).
    apply in_flat_map in Hc'. destruct Hc' as ([x' ys'] & Hcol & Hin).
    unfold place in Hin. cbn [fst snd] in Hin.
    apply in_map_iff in Hin. destruct Hin as (y' & Heq & _).
    injection Heq as -> _.
    rewrite Forall_forall in Hlt.
    specialize (Hlt x (in_map fst _ _ Hcol)). cbn [fst] in Hlt. lra.
Qed.

(** X1. In exact arithmetic, for [side > 0], the centers [create_hexgrid]
    returns are exactly the points of one fixed lattice that fall in a
    window around the box, each returned once. The lattice does not depend
    on the box: its points are [(K * h_step, J * v_step)] for odd [K] and
    [(K * h_step, J * v_step + v_step / 2)] for even [K], with [K], [J]
    integers. The window takes the columns from [h_skip] on while
    [x < x_max + h_step] and the rows from [v_skip] on while
    [y < y_max + v_step]. *)
Theorem create_hexgrid_lattice_window (bbx : bbox) (side : R) :
  0 < side ->
  let v_step := sqrt 3 * side in
  let h_step := 1.5 * side in
  let x_min := Rmin (bbx0 bbx) (bbx2 bbx) in
  let x_max := Rmax (bbx0 bbx) (bbx2 bbx) in
  let y_min := Rmin (bbx1 bbx) (bbx3 bbx) in
  let y_max := Rmax (bbx1 bbx) (bbx3 bbx) in
  let h_skip := (Rceil (x_min / h_step) - 1)%Z in
  let v_skip := (Rceil (y_min / v_step) - 1)%Z in
  exists (fuel0 : nat) (grid : list (R * R)),
    (forall fuel, (fuel0 <= fuel)%nat ->
                  create_hexgrid fuel bbx side = Done grid)
    /\ NoDup grid
    /\ forall c : R * R,
        In c grid <->
        exists K J : Z,
          c = (IZR K * h_step,
               IZR J * v_step + (if Z.even K then v_step / 2 else 0))
          /\ (h_skip <= K)%Z /\ fst c < x_max + h_step
          /\ (v_skip <= J)%Z /\ snd c < y_max + v_step.
Proof.
  intros Hside v_step h_step x_min x_max y_min y_max h_skip v_skip.
  destruct (hexgrid_membership bbx Hside) as (fuel0 & grid & Hrun & Hin).
  destruct (create_hexgrid_exact bbx Hside)
    as (fuel1 & tl & rest & Hrun1 & Hxs & Hcols).
  exists fuel0, grid. split; [exact Hrun |]. split; [| exact Hin].
  pose proof (Hrun (Nat.max fuel0 fuel1) (Nat.le_max_l _ _)) as H0.
  rewrite (Hrun1 (Nat.max fuel0 fuel1) (Nat.le_max_r _ _)) in H0.
  apply Done_inj in H0. rewrite <- H0. now apply place_columns_NoDup.
Qed.

Lemma create_hexgrid_lattice_window_witness :
  exists (fuel0 : nat) (grid : list (R * R)),
    (forall fuel, (fuel0 <= fuel)%nat ->
                  create_hexgrid fuel (0, 0, 10, 10) 2 = Done grid)
    /\ NoDup grid
    /\ forall c : R * R,
        In c grid <->
        exists K J : Z,
          c = (IZR K * (1.5 * 2),
               IZR J * (sqrt 3 * 2)
               + (if Z.even K then sqrt 3 * 2 / 2 else 0))
          /\ (Rceil (Rmin 0 10 / (1.5 * 2)) - 1 <= K)%Z
          /\ fst c < Rmax 0 10 + 1.5 * 2
          /\ (Rceil (Rmin 0 10 / (sqrt 3 * 2)) - 1 <= J)%Z
          /\ snd c < Rmax 0 10 + sqrt 3 * 2.
Proof.
  apply (@create_hexgrid_lattice_window (0, 0, 10, 10) 2). lra.
Defined.

End GridWindow.

(** ** create_hexgrid: the grid covers the box *)

Section GridCoverage.
Import Exact Hexagon.
Local Open Scope R_scope.

(** The hexagon of [create_hexagon] covers the points within half a
    [v_step] of its center in height and inside its four slanted edges. *)
Lemma hexagon_covers (l cx cy px py : R) :
  0 < l ->
  - (sqrt 3 * l / 2) <= py - cy <= sqrt 3 * l / 2 ->
  sqrt 3 * (px - cx) + (py - cy) <= sqrt 3 * l ->
  sqrt 3 * (px - cx) - (py - cy) <= sqrt 3 * l ->
  - (sqrt 3 * (px - cx)) + (py - cy) <= sqrt 3 * l ->
  - (sqrt 3 * (px - cx)) - (py - cy) <= sqrt 3 * l ->
  covers (create_hexagon l cx cy) (px, py).
Proof.
  intros Hl Hy H1 H2 H3 H4.
  rewrite create_hexagon_vertices.
  unfold covers, within_shell, left_of. cbn [fst snd].
  pose proof sqrt3_pos as Hs.
  set (s := sqrt 3) in *.
  set (dx := px - cx) in *. set (dy := py - cy) in *.
  replace px with (cx + dx) by (unfold dx; ring).
  replace py with (cy + dy) by (unfold dy; ring).
  repeat split.
  - replace ((cx + 1 / 2 * l - (cx + 1 * l)) * (cy + dy - (cy + 0 * l)) -
             (cy + s / 2 * l - (cy + 0 * l)) * (cx + dx - (cx + 1 * l)))
      with (l / 2 * (s * l - (s * dx + dy))) by field.
    apply Rmult_le_pos; lra.
  - replace ((cx + - (1 / 2) * l - (cx + 1 / 2 * l)) * (cy + dy - (cy + s / 2 * l)) -
             (cy + s / 2 * l - (cy + s / 2 * l)) * (cx + dx - (cx + 1 / 2 * l)))
      with (l * (s * l / 2 - dy)) by field.
    apply Rmult_le_pos; lra.
  - replace ((cx + - 1 * l - (cx + - (1 / 2) * l)) * (cy + dy - (cy + s / 2 * l)) -
             (cy + 0 * l - (cy + s / 2 * l)) * (cx + dx - (cx + - (1 / 2) * l)))
      with (l / 2 * (s * l - (- (s * dx) + dy))) by field.
    apply Rmult_le_pos; lra.
  - replace ((cx + - (1 / 2) * l - (cx + - 1 * l)) * (cy + dy - (cy + 0 * l)) -
             (cy + - (s / 2) * l - (cy + 0 * l)) * (cx + dx - (cx + - 1 * l)))
      with (l / 2 * (s * l - (- (s * dx) - dy))) by field.
    apply Rmult_le_pos; lra.
  - replace ((cx + 1 / 2 * l - (cx + - (1 / 2) * l)) * (cy + dy - (cy + - (s / 2) * l)) -
             (cy + - (s / 2) * l - (cy + - (s / 2) * l)) * (cx + dx - (cx + - (1 / 2) * l)))
      with (l * (dy + s * l / 2)) by field.
    apply Rmult_le_pos; lra.
  - replace ((cx + 1 * l - (cx + 1 / 2 * l)) * (cy + dy - (cy + - (s / 2) * l)) -
             (cy + 0 * l - (cy + - (s / 2) * l)) * (cx + dx - (cx + 1 / 2 * l)))
      with (l / 2 * (s * l - (s * dx - dy))) by field.
    apply Rmult_le_pos; lra.
Qed.

(** Every real lies in one period of a positive step. *)
Lemma period_of (x step : R) :
  0 < step ->
  exists K : Z, IZR K * step <= x < IZR K * step + step.
Proof.
  intros Hstep.
  destruct (archimed (x / step)) as [Hup Hlow].
  exists (up (x / step) - 1)%Z. rewrite minus_IZR.
  assert (Hx : x = x / step * step) by (field; lra).
  split.
  - assert (H : (IZR (up (x / step)) - 1) * step <= x / step * step)
      by (apply Rmult_le_compat_r; lra).
    lra.
  - assert (H : x / step * step < IZR (up (x / step)) * step)
      by (apply Rmult_lt_compat_r; lra).
    lra.
Qed.

(** The hexagons of the whole lattice leave no gap: every point of the
    plane is covered by the hexagon of a lattice point, whose center is
    then within [side] of it in abscissa and half a [v_step] in
    ordinate. *)
Lemma lattice_covers (side px py : R) :
  0 < side ->
  let v_step := sqrt 3 * side in
  let h_step := 1.5 * side in
  exists K J : Z,
    let cx := IZR K * h_step in
    let cy := IZR J * v_step + (if Z.even K then v_step / 2 else 0) in
    covers (create_hexagon side cx cy) (px, py)
    /\ - side <= px - cx <= side
    /\ - (v_step / 2) <= py - cy <= v_step / 2.
Proof.
  intros Hside v_step h_step.
  pose proof sqrt3_pos as Hs.
  assert (Hv : 0 < v_step) by (apply Rmult_lt_0_compat; lra).
  assert (Hh : 0 < h_step) by (unfold h_step; lra).
  destruct (period_of px Hh) as (K0 & HK0).
  set (off0 := if Z.even K0 then v_step / 2 else 0).
  destruct (period_of (py - off0 + v_step / 2) Hv) as (J0 & HJ0).
  set (dx := px - IZR K0 * h_step) in *.
  set (dy := py - (IZR J0 * v_step + off0)) in *.
  assert (Hdx : 0 <= dx < h_step) by (unfold dx; lra).
  assert (Hdy : - (v_step / 2) <= dy < v_step / 2) by (unfold dy; lra).
  destruct (Rle_dec (sqrt 3 * dx + Rabs dy) (sqrt 3 * side)) as [Hin | Hout].
  - (* the hexagon of column K0 *)
    exists K0, J0. cbn zeta. fold off0. fold dx dy.
    assert (Habs : - Rabs dy <= dy <= Rabs dy).
    { unfold Rabs. destruct (Rcase_abs dy); lra. }
    split; [| split].
    + apply hexagon_covers; try assumption; fold v_step; fold dx dy;
        unfold v_step in *; try lra.
      * assert (0 <= sqrt 3 * dx) by (apply Rmult_le_pos; lra). lra.
      * assert (0 <= sqrt 3 * dx) by (apply Rmult_le_pos; lra). lra.
    + assert (0 <= Rabs dy) by apply Rabs_pos.
      assert (Hle : sqrt 3 * dx <= sqrt 3 * side) by lra.
      apply Rmult_le_reg_l in Hle; lra.
    + lra.
  - (* the hexagon of column K0 + 1, half a step up or down *)
    apply Rnot_le_lt in Hout.
    assert (Heven : Z.even (K0 + 1) = negb (Z.even K0)).
    { rewrite Z.add_1_r, Z.even_succ. symmetry. apply Z.negb_even. }
    destruct (Rle_dec 0 dy) as [Hup | Hdown].
    + rewrite Rabs_right in Hout by lra.
      exists (K0 + 1)%Z,
        (if Z.even K0 then (J0 + 1)%Z else J0).
      cbn zeta. rewrite Heven.
      assert (Hcy : IZR (if Z.even K0 then (J0 + 1)%Z else J0) * v_step
                    + (if negb (Z.even K0) then v_step / 2 else 0)
                    = IZR J0 * v_step + off0 + v_step / 2).
      { unfold off0. destruct (Z.even K0); cbn [negb];
          [rewrite plus_IZR |]; lra. }
      rewrite Hcy, plus_IZR.
      replace (px - (IZR K0 + 1) * h_step) with (dx - h_step)
        by (unfold dx; ring).
      replace (py - (IZR J0 * v_step + off0 + v_step / 2))
        with (dy - v_step / 2) by (unfold dy; ring).
      assert (Hx1 : sqrt 3 * (dx - h_step)
                    = sqrt 3 * dx - 1.5 * (sqrt 3 * side))
        by (unfold h_step; ring).
      assert (Hx2 : sqrt 3 * dx < 1.5 * (sqrt 3 * side)).
      { assert (Hlt : sqrt 3 * dx < sqrt 3 * h_step)
          by (apply Rmult_lt_compat_l; lra).
        unfold h_step in Hlt. lra. }
      split; [| split].
      * apply hexagon_covers; try assumption;
          replace (px - (IZR K0 + 1) * h_step) with (dx - h_step)
            by (unfold dx; ring);
          replace (py - (IZR J0 * v_step + off0 + v_step / 2))
            with (dy - v_step / 2) by (unfold dy; ring);
          fold v_step; rewrite ?Hx1; unfold v_step in *; lra.
      * assert (Hlt : sqrt 3 * (side / 2) < sqrt 3 * dx).
        { unfold v_step in Hdy. lra. }
        apply Rmult_lt_reg_l in Hlt; [| lra]. unfold h_step in *. lra.
      * lra.
    + apply Rnot_le_lt in Hdown.
      rewrite Rabs_left in Hout by lra.
      exists (K0 + 1)%Z,
        (if Z.even K0 then J0 else (J0 - 1)%Z).
      cbn zeta. rewrite Heven.
      assert (Hcy : IZR (if Z.even K0 then J0 else (J0 - 1)%Z) * v_step
                    + (if negb (Z.even K0) then v_step / 2 else 0)
                    = IZR J0 * v_step + off0 - v_step / 2).
      { unfold off0. destruct (Z.even K0); cbn [negb];
          [| rewrite minus_IZR]; lra. }
      rewrite Hcy, plus_IZR.
      replace (px - (IZR K0 + 1) * h_step) with (dx - h_step)
        by (unfold dx; ring).
      replace (py - (IZR J0 * v_step + off0 - v_step / 2))
        with (dy + v_step / 2) by (unfold dy; ring).
      assert (Hx1 : sqrt 3 * (dx - h_step)
                    = sqrt 3 * dx - 1.5 * (sqrt 3 * side))
        by (unfold h_step; ring).
      assert (Hx2 : sqrt 3 * dx < 1.5 * (sqrt 3 * side)).
      { assert (Hlt : sqrt 3 * dx < sqrt 3 * h_step)
          by (apply Rmult_lt_compat_l; lra).
        unfold h_step in Hlt. lra. }
      split; [| split].
      * apply hexagon_covers; try assumption;
          replace (px - (IZR K0 + 1) * h_step) with (dx - h_step)
            by (unfold dx; ring);
          replace (py - (IZR J0 * v_step + off0 - v_step / 2))
            with (dy + v_step / 2) by (unfold dy; ring);
          fold v_step; rewrite ?Hx1; unfold v_step in *; lra.
      * assert (Hlt : sqrt 3 * (side / 2) < sqrt 3 * dx).
        { unfold v_step in Hdy. lra. }
        apply Rmult_lt_reg_l in Hlt; [| lra]. unfold h_step in *. lra.
      * lra.
Qed.

Lemma IZR_step_le (K k : Z) (step a : R) :
  0 < step ->
  IZR k * step < a ->
  a - step <= IZR K * step ->
  (k <= K)%Z.
Proof.
  intros Hstep Hk HK.
  destruct (Z_le_gt_dec k K) as [Hle | Hgt]; [exact Hle | exfalso].
  assert (HZ : (K + 1 <= k)%Z) by lia.
  apply IZR_le in HZ. rewrite plus_IZR in HZ.
  assert (H : (IZR K + 1) * step <= IZR k * step)
    by (apply Rmult_le_compat_r; lra).
  lra.
Qed.

(** The box is covered: in exact arithmetic every point of the box lies
    in the hexagon of a center that [create_hexgrid] returns. *)
Lemma create_hexgrid_covers_box (bbx : bbox) (side : R) :
  0 < side ->
  let x_min := Rmin (bbx0 bbx) (bbx2 bbx) in
  let x_max := Rmax (bbx0 bbx) (bbx2 bbx) in
  let y_min := Rmin (bbx1 bbx) (bbx3 bbx) in
  let y_max := Rmax (bbx1 bbx) (bbx3 bbx) in
  exists (fuel0 : nat) (grid : list (R * R)),
    (forall fuel, (fuel0 <= fuel)%nat ->
                  create_hexgrid fuel bbx side = Done grid)
    /\ forall p : R * R,
        x_min <= fst p <= x_max ->
        y_min <= snd p <= y_max ->
        exists center,
          In center grid
          /\ covers (create_hexagon side (fst center) (snd center)) p.
Proof.
  intros Hside x_min x_max y_min y_max.
  destruct (hexgrid_membership bbx Hside) as (fuel0 & grid & Hrun & Hmem).
  exists fuel0, grid. split; [exact Hrun |].
  intros [px py] Hx Hy. cbn [fst snd] in Hx, Hy.
  pose proof sqrt3_pos as Hs.
  set (v_step := sqrt 3 * side) in *.
  set (h_step := 1.5 * side) in *.
  assert (Hv : 0 < v_step) by (apply Rmult_lt_0_compat; lra).
  assert (Hh : 0 < h_step) by (unfold h_step; lra).
  destruct (lattice_covers px py Hside) as (K & J & Hcov & Hdx & Hdy).
  fold v_step h_step in Hcov, Hdx, Hdy. cbn zeta in Hcov, Hdx, Hdy.
  set (cx := IZR K * h_step) in *.
  set (cy := IZR J * v_step + (if Z.even K then v_step / 2 else 0)) in *.
  exists (cx, cy). split; [| exact Hcov].
  apply Hmem. exists K, J. split; [reflexivity |].
  fold x_min x_max y_min y_max. cbn [fst snd]. fold cx cy.
  destruct (start_strictly_below x_min Hh) as [Hx1 _].
  destruct (start_strictly_below y_min Hv) as [Hy1 _].
  repeat split.
  - apply IZR_step_le with (step := h_step) (a := x_min);
      [exact Hh | exact Hx1 |].
    fold cx. unfold h_step in *. lra.
  - unfold h_step in *. lra.
  - apply IZR_step_le with (step := v_step) (a := y_min);
      [exact Hv | exact Hy1 |].
    unfold cy in Hdy. destruct (Z.even K); lra.
  - lra.
Qed.

(** C6 (as amended): in exact arithmetic, for every bounding box and
    [side > 0], the first center emitted lies in the column at the largest
    multiple of [h_step] strictly below [x_min] (so [x_min] itself when it
    is not a multiple is never reached, and no further step is
    subtracted); the row start is the largest multiple [j * v_step]
    strictly below [y_min], raised by half a [v_step] when the column
    index [k] is even. The first hexagon, which reaches half a [v_step]
    below its center, thus starts left of the box and below it, and the
    grid fully covers the box, its left and bottom edges included: every
    point of the box lies in the hexagon of an emitted center. *)
Theorem create_hexgrid_first_center (bbx : bbox) (side : R) :
  0 < side ->
  let h_step := 1.5 * side in
  let v_step := sqrt 3 * side in
  let x_min := Rmin (bbx0 bbx) (bbx2 bbx) in
  let x_max := Rmax (bbx0 bbx) (bbx2 bbx) in
  let y_min := Rmin (bbx1 bbx) (bbx3 bbx) in
  let y_max := Rmax (bbx1 bbx) (bbx3 bbx) in
  exists (fuel0 : nat) (c : R * R) (rest : list (R * R)) (k j : Z),
    (forall fuel, (fuel0 <= fuel)%nat ->
                  create_hexgrid fuel bbx side = Done (c :: rest))
    /\ fst c = IZR k * h_step
    /\ fst c < x_min <= fst c + h_step
    /\ IZR j * v_step < y_min <= IZR j * v_step + v_step
    /\ snd c = (if Z.even k then IZR j * v_step + v_step / 2
                else IZR j * v_step)
    /\ snd c - v_step / 2 < y_min
    /\ forall p : R * R,
        x_min <= fst p <= x_max ->
        y_min <= snd p <= y_max ->
        exists center,
          In center (c :: rest)
          /\ covers (create_hexagon side (fst center) (snd center)) p.
Proof.
  intros Hside h_step v_step x_min x_max y_min y_max.
  destruct (create_hexgrid_exact bbx Hside)
    as (fuel0 & tl & rest & Hrun & _).
  destruct (create_hexgrid_covers_box bbx Hside)
    as (fuel1 & grid & Hrun1 & Hcover).
  fold h_step v_step x_min y_min in Hrun.
  fold x_min x_max y_min y_max in Hcover.
  assert (Hh : 0 < h_step) by (unfold h_step; lra).
  assert (Hv : 0 < v_step).
  { unfold v_step. apply Rmult_lt_0_compat; [apply sqrt3_pos | lra]. }
  set (k := (Rceil (x_min / h_step) - 1)%Z) in *.
  set (j := (Rceil (y_min / v_step) - 1)%Z) in *.
  destruct (start_strictly_below x_min Hh) as [Hx1 Hx2].
  destruct (start_strictly_below y_min Hv) as [Hy1 Hy2].
  fold k in Hx1, Hx2. fold j in Hy1, Hy2.
  assert (Hgrid : grid = flat_map place
                           ((IZR k * h_step,
                             (if Z.even k then IZR j * v_step + v_step / 2
                              else IZR j * v_step) :: tl) :: rest)).
  { apply Done_inj.
    rewrite <- (Hrun1 (Nat.max fuel0 fuel1)) by lia.
    apply Hrun. lia. }
  eexists (Nat.max fuel0 fuel1), _, _, k, j.
  split; [intros fuel Hfuel; apply Hrun; lia |].
  cbn [fst snd]. repeat split; try reflexivity; try assumption.
  - destruct (Z.even k); lra.
  - intros p Hpx Hpy. rewrite Hgrid in Hcover. now apply Hcover.
Qed.

Lemma create_hexgrid_first_center_witness :
  0 < 1 /\
  exists (fuel0 : nat) (c : R * R) (rest : list (R * R)) (k j : Z),
    (forall fuel, (fuel0 <= fuel)%nat ->
                  create_hexgrid fuel (1, 0, 2, 1) 1 = Done (c :: rest))
    /\ fst c = IZR k * (1.5 * 1)
    /\ fst c < Rmin 1 2 <= fst c + 1.5 * 1
    /\ IZR j * (sqrt 3 * 1) < Rmin 0 1 <= IZR j * (sqrt 3 * 1) + sqrt 3 * 1
    /\ snd c = (if Z.even k then IZR j * (sqrt 3 * 1) + sqrt 3 * 1 / 2
                else IZR j * (sqrt 3 * 1))
    /\ snd c - sqrt 3 * 1 / 2 < Rmin 0 1
    /\ forall p : R * R,
        Rmin 1 2 <= fst p <= Rmax 1 2 ->
        Rmin 0 1 <= snd p <= Rmax 0 1 ->
        exists center,
          In center (c :: rest)
          /\ covers (create_hexagon 1 (fst center) (snd center)) p.
Proof.
  split; [lra | apply (@create_hexgrid_first_center (1, 0, 2, 1) 1); lra].
Defined.

End GridCoverage.


Section GridExtent.
Import Exact Hexagon GridShape.
Local Open Scope R_scope.

(** X2. In exact arithmetic, for [side > 0], no center lies a full step or
    more outside the box: every center has
    [x_min - h_step <= x < x_max + h_step] and
    [y_min - v_step <= y < y_max + v_step]. *)
Theorem create_hexgrid_within_one_step (bbx : bbox) (side : R) :
  0 < side ->
  let v_step := sqrt 3 * side in
  let h_step := 1.5 * side in
  let x_min := Rmin (bbx0 bbx) (bbx2 bbx) in
  let x_max := Rmax (bbx0 bbx) (bbx2 bbx) in
  let y_min := Rmin (bbx1 bbx) (bbx3 bbx) in
  let y_max := Rmax (bbx1 bbx) (bbx3 bbx) in
  exists (fuel0 : nat) (grid : list (R * R)),
    (forall fuel, (fuel0 <= fuel)%nat ->
                  create_hexgrid fuel bbx side = Done grid)
    /\ Forall (fun c => x_min - h_step <= fst c < x_max + h_step
                        /\ y_min - v_step <= snd c < y_max + v_step) grid.
Proof.
  intros Hside v_step h_step x_min x_max y_min y_max.
  destruct (hexgrid_membership bbx Hside) as (fuel0 & grid & Hrun & Hin).
  fold v_step h_step x_min x_max y_min y_max in Hin.
  assert (Hh : 0 < h_step) by (unfold h_step; lra).
  assert (Hv : 0 < v_step).
  { unfold v_step. apply Rmult_lt_0_compat; [apply sqrt3_pos | lra]. }
  destruct (start_strictly_below x_min Hh) as [_ Hx].
  destruct (start_strictly_below y_min Hv) as [_ Hy].
  exists fuel0, grid. split; [exact Hrun |].
  apply Forall_forall. intros c Hc. apply Hin in Hc.
  destruct Hc as (K & J & -> & HK & Hxlt & HJ & Hylt).
  cbn [fst snd] in *.
  apply IZR_le in HK, HJ.
  repeat split; try assumption.
  - nra.
  - destruct (Z.even K); nra.
Qed.

Lemma create_hexgrid_within_one_step_witness :
  exists (fuel0 : nat) (grid : list (R * R)),
    (forall fuel, (fuel0 <= fuel)%nat ->
                  create_hexgrid fuel (3, 4, 1, 2) 1 = Done grid)
    /\ Forall (fun c => Rmin 3 1 - 1.5 * 1 <= fst c < Rmax 3 1 + 1.5 * 1
                        /\ Rmin 4 2 - sqrt 3 * 1 <= snd c
                           < Rmax 4 2 + sqrt 3 * 1) grid.
Proof.
  apply (@create_hexgrid_within_one_step (3, 4, 1, 2) 1). lra.
Defined.

(** X3. In exact arithmetic, for [side > 0], the centers span the box: the
    first column is left of [x_min], the last one at or beyond [x_max],
    and every column has a center less than half a [v_step] above [y_min]
    and a center at or above [y_max]. *)
Theorem create_hexgrid_spans_box (bbx : bbox) (side : R) :
  0 < side ->
  let v_step := sqrt 3 * side in
  let x_min := Rmin (bbx0 bbx) (bbx2 bbx) in
  let x_max := Rmax (bbx0 bbx) (bbx2 bbx) in
  let y_min := Rmin (bbx1 bbx) (bbx3 bbx) in
  let y_max := Rmax (bbx1 bbx) (bbx3 bbx) in
  exists (fuel0 : nat) (grid : list (R * R)),
    (forall fuel, (fuel0 <= fuel)%nat ->
                  create_hexgrid fuel bbx side = Done grid)
    /\ (exists c, In c grid /\ fst c < x_min)
    /\ (exists c, In c grid /\ x_max <= fst c)
    /\ forall c, In c grid ->
                 exists lo hi,
                   In lo grid /\ In hi grid
                   /\ fst lo = fst c /\ fst hi = fst c
                   /\ snd lo - v_step / 2 < y_min
                   /\ y_max <= snd hi.
Proof.
  intros Hside v_step x_min x_max y_min y_max.
  destruct (create_hexgrid_columns bbx Hside)
    as (fuel0 & cols & Hrun & Hcols & Hpos & Hlast & Hend).
  fold v_step x_min x_max y_min y_max in Hrun, Hcols, Hlast, Hend.
  set (h_step := 1.5 * side) in *.
  assert (Hh : 0 < h_step) by (unfold h_step; lra).
  assert (Hv : 0 < v_step).
  { unfold v_step. apply Rmult_lt_0_compat; [apply sqrt3_pos | lra]. }
  destruct (start_strictly_below x_min Hh) as [Hx _].
  destruct (start_strictly_below y_min Hv) as [Hy _].
  assert (Hends : forall k col,
             nth_error cols k = Some col ->
             In (fst (fst col), snd (fst col))
                (flat_map (column_of v_step) cols)
             /\ In (fst (fst col),
                    snd (fst col) + INR (snd col - 1) * v_step)
                   (flat_map (column_of v_step) cols)
             /\ snd (fst col) - v_step / 2 < y_min
             /\ y_max <= snd (fst col) + INR (snd col - 1) * v_step).
  { intros k col Hk.
    destruct (Hcols k col Hk) as (_ & Hy0 & Hm & _ & Hr).
    pose proof (nth_error_In _ _ Hk) as Hcol.
    split; [| split; [| split]].
    - apply in_flat_map. exists col. split; [assumption |].
      apply in_column_of. exists 0%nat. split; [assumption |].
      f_equal. simpl. ring.
    - apply in_flat_map. exists col. split; [assumption |].
      apply in_column_of. exists (snd col - 1)%nat. split; [lia | reflexivity].
    - rewrite Hy0.
      destruct (Z.even (Rceil (x_min / h_step) - 1 + Z.of_nat k)); lra.
    - assert (Hs : INR (snd col) = INR (snd col - 1) + 1)
        by (rewrite <- S_INR; f_equal; lia).
      rewrite Hs in Hr. lra. }
  eexists fuel0, _. split; [exact Hrun |]. split; [| split].
  - destruct (nth_error cols 0) as [col |] eqn:H0;
      [| apply nth_error_None in H0; lia].
    destruct (Hends 0%nat col H0) as (Hlo & _).
    destruct (Hcols 0%nat col H0) as (Hx0 & _).
    eexists. split; [exact Hlo |]. cbn [fst].
    rewrite Hx0, Z.add_0_r. exact Hx.
  - destruct (nth_error cols (List.length cols - 1)) as [col |] eqn:HM;
      [| apply nth_error_None in HM; lia].
    destruct (Hends _ col HM) as (Hlo & _).
    destruct (Hcols _ col HM) as (HxM & _).
    eexists. split; [exact Hlo |]. cbn [fst].
    rewrite HxM, plus_IZR, <- INR_IZR_INZ.
    assert (Hs : INR (List.length cols) = INR (List.length cols - 1) + 1)
      by (rewrite <- S_INR; f_equal; lia).
    rewrite Hs in Hend. lra.
  - intros c Hc. apply in_flat_map in Hc. destruct Hc as (col & Hcol & Hc).
    apply In_nth_error in Hcol. destruct Hcol as [k Hk].
    apply in_column_of in Hc. destruct Hc as (j & _ & ->).
    destruct (Hends k col Hk) as (Hlo & Hhi & Hbelow & Habove).
    eexists _, _. split; [exact Hlo |]. split; [exact Hhi |].
    cbn [fst snd]. repeat split; assumption.
Qed.

Lemma create_hexgrid_spans_box_witness :
  exists (fuel0 : nat) (grid : list (R * R)),
    (forall fuel, (fuel0 <= fuel)%nat ->
                  create_hexgrid fuel (0, 0, 10, 10) 2 = Done grid)
    /\ (exists c, In c grid /\ fst c < Rmin 0 10)
    /\ (exists c, In c grid /\ Rmax 0 10 <= fst c)
    /\ forall c, In c grid ->
                 exists lo hi,
                   In lo grid /\ In hi grid
                   /\ fst lo = fst c /\ fst hi = fst c
                   /\ snd lo - sqrt 3 * 2 / 2 < Rmin 0 10
                   /\ Rmax 0 10 <= snd hi.
Proof.
  apply (@create_hexgrid_spans_box (0, 0, 10, 10) 2). lra.
Defined.

End GridExtent.

Section GridEdgeCases.
Import Exact Hexagon GridShape.
Local Open Scope R_scope.

(** X4. A degenerate box is not rejected: in exact arithmetic, for
    [side > 0] and any box at all -- also one of zero width or height --
    [create_hexgrid] returns at least three centers. *)
Theorem create_hexgrid_degenerate_box (bbx : bbox) (side : R) :
  0 < side ->
  exists (fuel0 : nat) (grid : list (R * R)),
    (forall fuel, (fuel0 <= fuel)%nat ->
                  create_hexgrid fuel bbx side = Done grid)
    /\ (3 <= List.length grid)%nat.
Proof.
  intros Hside.
  destruct (hexgrid_membership bbx Hside) as (fuel0 & grid & Hrun & Hin).
  set (v_step := sqrt 3 * side) in *. set (h_step := 1.5 * side) in *.
  set (x_min := Rmin (bbx0 bbx) (bbx2 bbx)) in *.
  set (x_max := Rmax (bbx0 bbx) (bbx2 bbx)) in *.
  set (y_min := Rmin (bbx1 bbx) (bbx3 bbx)) in *.
  set (y_max := Rmax (bbx1 bbx) (bbx3 bbx)) in *.
  set (h_skip := (Rceil (x_min / h_step) - 1)%Z) in *.
  set (v_skip := (Rceil (y_min / v_step) - 1)%Z) in *.
  assert (Hh : 0 < h_step) by (unfold h_step; lra).
  assert (Hv : 0 < v_step).
  { unfold v_step. apply Rmult_lt_0_compat; [apply sqrt3_pos | lra]. }
  destruct (start_strictly_below x_min Hh) as [Hx _].
  destruct (start_strictly_below y_min Hv) as [Hy _].
  fold h_skip in Hx. fold v_skip in Hy.
  assert (Hxm : x_min <= x_max).
  { unfold x_min, x_max.
    pose proof (Rmin_l (bbx0 bbx) (bbx2 bbx)).
    pose proof (Rmax_l (bbx0 bbx) (bbx2 bbx)). lra. }
  assert (Hym : y_min <= y_max).
  { unfold y_min, y_max.
    pose proof (Rmin_l (bbx1 bbx) (bbx3 bbx)).
    pose proof (Rmax_l (bbx1 bbx) (bbx3 bbx)). lra. }
  exists fuel0, grid. split; [exact Hrun |].
  assert (Hpoint : forall K J : Z,
             (h_skip <= K <= h_skip + 1)%Z ->
             (J = v_skip \/ (J = v_skip + 1)%Z /\ Z.even K = false) ->
             In (IZR K * h_step,
                 IZR J * v_step + (if Z.even K then v_step / 2 else 0))
                grid).
  { intros K J HK HJ. apply Hin. exists K, J. cbn [fst snd].
    split; [reflexivity |]. split; [lia |].
    assert (HKr : IZR K <= IZR h_skip + 1)
      by (rewrite <- (plus_IZR h_skip 1); apply IZR_le; lia).
    split; [nra |].
    destruct HJ as [-> | [-> Hodd]].
    - split; [lia |]. destruct (Z.even K); lra.
    - split; [lia |]. rewrite Hodd, plus_IZR. lra. }
  set (Ko := if Z.even h_skip then (h_skip + 1)%Z else h_skip).
  set (Ke := if Z.even h_skip then h_skip else (h_skip + 1)%Z).
  assert (HKo : Z.even Ko = false /\ (h_skip <= Ko <= h_skip + 1)%Z).
  { unfold Ko. destruct (Z.even h_skip) eqn:E; [| split; [assumption | lia]].
    split; [| lia]. rewrite Z.even_add, E. reflexivity. }
  assert (HKe : (h_skip <= Ke <= h_skip + 1)%Z /\ Ke <> Ko).
  { unfold Ke, Ko. destruct (Z.even h_skip); split; lia. }
  destruct HKo as [Hodd HKo]. destruct HKe as [HKe Hne].
  pose proof (Hpoint Ke v_skip HKe (or_introl eq_refl)) as H1.
  pose proof (Hpoint Ko v_skip HKo (or_introl eq_refl)) as H2.
  pose proof (Hpoint Ko (v_skip + 1)%Z HKo (or_intror (conj eq_refl Hodd)))
    as H3.
  rewrite Hodd in H2, H3.
  assert (Hxne : IZR Ke * h_step <> IZR Ko * h_step).
  { intros Heq. apply Rmult_eq_reg_r in Heq; [| lra].
    apply eq_IZR in Heq. contradiction. }
  match type of H1 with In ?p1 _ =>
  match type of H2 with In ?p2 _ =>
  match type of H3 with In ?p3 _ =>
    apply (@NoDup_incl_length _ [p1; p2; p3] grid)
  end end end.
  - constructor; [| constructor; [| constructor; [| constructor]]].
    + intros [Heq | [Heq | []]]; injection Heq as Heq _;
        apply Hxne; congruence.
    + intros [Heq | []]. injection Heq as Heq.
      rewrite plus_IZR in Heq. lra.
    + intros [].
  - intros c [<- | [<- | [<- | []]]]; assumption.
Qed.

Lemma create_hexgrid_degenerate_box_witness :
  exists (fuel0 : nat) (grid : list (R * R)),
    (forall fuel, (fuel0 <= fuel)%nat ->
                  create_hexgrid fuel (5, 5, 5, 5) 1 = Done grid)
    /\ (3 <= List.length grid)%nat.
Proof.
  apply (@create_hexgrid_degenerate_box (5, 5, 5, 5) 1). lra.
Defined.

(** X5. The cell area is not validated. At the call sites the box is a
    numpy array, so a zero edge length does not raise at the division by
    [h_step]: the quotient is an infinity or nan, and [math.ceil] raises
    [OverflowError], or [ValueError] when [x_min] is zero (exact
    arithmetic) -- one of the two for every box of binary64 numbers. A
    zero area gives a zero edge, so the grid code ends in that exception
    before any hexagon is made; a negative area is accepted and gives the
    grid of its absolute value, since lines 181 and 238 square it. *)
Theorem cell_area_is_not_validated (fuel : nat) (box : bbox) (Area : R) :
  let x_min := Rmin (bbx0 box) (bbx2 box) in
  let e := if Reqb x_min 0 then ValueError else OverflowError in
  create_hexgrid fuel box 0 = Raised e
  /\ create_planning_unit_grid fuel box 0 = Raised e
  /\ create_planning_unit_grid fuel box (- Area)
     = create_planning_unit_grid fuel box Area
  /\ forall fbox : @bbox float,
      @create_hexgrid float Binary64.float_PyFloat fuel fbox 0%float
      = Raised OverflowError
      \/ @create_hexgrid float Binary64.float_PyFloat fuel fbox 0%float
         = Raised ValueError.
Proof.
  intros x_min e.
  assert (Hzero : create_hexgrid fuel box 0 = Raised e).
  { unfold create_hexgrid, truediv. cbn [fmul lit_1_5 fis_zero R_PyFloat].
    rewrite py_min_Rmin. fold x_min.
    unfold Reqb at 1. destruct (Req_dec_T (1.5 * 0) 0) as [_ | Hne];
      [| exfalso; apply Hne; ring].
    cbn [flt of_int R_PyFloat]. unfold e, Reqb.
    destruct (Req_dec_T x_min 0) as [-> | Hx].
    - rewrite (proj2 (Rltb_false 0 0)) by lra. reflexivity.
    - destruct (Rlt_dec x_min 0) as [Hneg | Hpos].
      + rewrite (proj2 (Rltb_true x_min 0)) by exact Hneg. reflexivity.
      + rewrite (proj2 (Rltb_false x_min 0)) by lra.
        rewrite (proj2 (Rltb_true 0 x_min)) by lra. reflexivity. }
  assert (Hedge0 : hex_edge 0 = 0).
  { unfold hex_edge. replace (0 ^ 2 / (3 / 2 * sqrt 3)) with 0.
    - apply sqrt_0.
    - unfold Rdiv. ring. }
  split; [exact Hzero |]. split; [| split].
  - unfold create_planning_unit_grid. rewrite Hedge0, Hzero. reflexivity.
  - unfold create_planning_unit_grid, hex_edge.
    replace ((- Area) ^ 2) with (Area ^ 2) by ring. reflexivity.
  - intros fbox. unfold create_hexgrid, truediv.
    cbn [fmul lit_1_5 fis_zero Binary64.float_PyFloat].
    change (PrimFloat.eqb (PrimFloat.mul 1.5 0) PrimFloat.zero) with true.
    cbv iota.
    destruct (flt (py_min (bbx0 fbox) (bbx2 fbox)) (of_int 0)
              || flt (of_int 0) (py_min (bbx0 fbox) (bbx2 fbox)));
      [now left | now right].
Qed.

Lemma inner_loop_backwards (v_step v_end c_x : R) (fuel : nat) :
  v_step < 0 ->
  forall (grid : list (R * R)) (c_y : R),
    inner_loop fuel grid c_x c_y v_step v_end = Done grid
    \/ inner_loop fuel grid c_x c_y v_step v_end = OutOfFuel.
Proof.
  intros Hv.
  assert (Hstuck : forall f grid c_y,
             c_y < v_end ->
             inner_loop f grid c_x c_y v_step v_end = OutOfFuel).
  { induction f as [| f' IH]; intros grid c_y Hlt; [reflexivity |].
    simpl.
    replace (Rltb c_y v_end) with true by (symmetry; now apply Rltb_true).
    apply IH. lra. }
  intros grid c_y. destruct (Rlt_dec c_y v_end) as [Hlt | Hge].
  - right. now apply Hstuck.
  - destruct fuel as [| fuel']; [now right |]. left. simpl.
    replace (Rltb c_y v_end) with false by (symmetry; apply Rltb_false; lra).
    reflexivity.
Qed.

Lemma outer_loop_never_ends (h_step v_step h_end v_end : R) (arr : R * R)
      (fuel : nat) :
  h_step < 0 -> v_step < 0 ->
  forall (n : nat) (grid : list (R * R)) (c_x c_y : R) (idx : Z),
    c_x < h_end ->
    outer_loop fuel n grid c_x c_y idx h_step v_step h_end v_end arr
    = OutOfFuel.
Proof.
  intros Hh Hv.
  induction n as [| n' IH]; intros grid c_x c_y idx Hlt; [reflexivity |].
  simpl.
  replace (Rltb c_x h_end) with true by (symmetry; now apply Rltb_true).
  destruct (inner_loop_backwards v_end c_x fuel Hv grid c_y) as [-> | ->];
    simpl; [apply IH; lra | reflexivity].
Qed.

(** X6. A negative edge length never yields a center. In exact arithmetic,
    for [side < 0] both steps are negative and the start column is
    [h_start = h_skip * h_step]: when it is already at or beyond
    [h_end = x_max + h_step], [create_hexgrid] returns the empty list;
    otherwise it keeps stepping away from [h_end] and never returns,
    whatever fuel the model is given. *)
Theorem create_hexgrid_negative_side (bbx : bbox) (side : R) :
  side < 0 ->
  let h_step := 1.5 * side in
  let x_min := Rmin (bbx0 bbx) (bbx2 bbx) in
  let x_max := Rmax (bbx0 bbx) (bbx2 bbx) in
  let h_start := IZR (Rceil (x_min / h_step) - 1) * h_step in
  let h_end := x_max + h_step in
  (h_end <= h_start ->
   forall fuel, (0 < fuel)%nat -> create_hexgrid fuel bbx side = Done [])
  /\ (h_start < h_end ->
      forall fuel, create_hexgrid fuel bbx side = OutOfFuel).
Proof.
  intros Hside h_step x_min x_max h_start h_end.
  pose proof sqrt3_pos as Hs.
  assert (Hh : h_step < 0) by (unfold h_step; lra).
  assert (Hv : sqrt 3 * side < 0) by nra.
  assert (Hrun : forall fuel,
             exists c_y idx arr,
               create_hexgrid fuel bbx side
               = outer_loop fuel fuel [] h_start c_y idx h_step
                            (sqrt 3 * side) h_end
                            (Rmax (bbx1 bbx) (bbx3 bbx) + sqrt 3 * side)
                            arr).
  { intros fuel. unfold create_hexgrid, truediv.
    rewrite !py_min_Rmin, !py_max_Rmax.
    cbn [fmul fsqrt of_int lit_1_5 fis_zero ceil fadd R_PyFloat].
    fold h_step x_min x_max.
    rewrite !Reqb_false by lra. cbn [bind].
    fold h_start h_end. eexists _, _, _. reflexivity. }
  split.
  - intros Hpast fuel Hfuel.
    destruct (Hrun fuel) as (c_y & idx & arr & ->).
    destruct fuel as [| fuel']; [lia |]. cbn [outer_loop].
    replace (flt h_start h_end) with false; [reflexivity |].
    symmetry. apply Rltb_false. exact Hpast.
  - intros Hbefore fuel.
    destruct (Hrun fuel) as (c_y & idx & arr & ->).
    now apply outer_loop_never_ends.
Qed.

Lemma create_hexgrid_negative_side_witness :
  - 1 < 0
  /\ (forall fuel, create_hexgrid fuel (0, 0, 10, 10) (- 1) = OutOfFuel)
  /\ (forall fuel, (0 < fuel)%nat ->
                   create_hexgrid fuel (0, 0, 1, 1) (- 1) = Done []).
Proof.
  assert (Hside : - 1 < 0) by lra.
  assert (Hzero : Rceil (0 / (1.5 * - 1)) = 0%Z)
    by (apply Rceil_unique; simpl; lra).
  split; [exact Hside |]. split.
  - apply (@create_hexgrid_negative_side (0, 0, 10, 10) (- 1) Hside).
    cbn [bbx0 bbx2 fst snd].
    rewrite Rmin_left, Rmax_right by lra. rewrite Hzero. simpl. lra.
  - apply (@create_hexgrid_negative_side (0, 0, 1, 1) (- 1) Hside).
    cbn [bbx0 bbx2 fst snd].
    rewrite Rmin_left, Rmax_right by lra. rewrite Hzero. simpl. lra.
Defined.

(** X7. The order of the box's corners does not matter: in exact
    arithmetic [create_hexgrid] gives the same result for the box
    [(x0, y0, x1, y1)] and for the same box with its x-coordinates, its
    y-coordinates or both exchanged. *)
Theorem create_hexgrid_corner_order (fuel : nat) (x0 y0 x1 y1 side : R) :
  create_hexgrid fuel (x1, y1, x0, y0) side
  = create_hexgrid fuel (x0, y0, x1, y1) side
  /\ create_hexgrid fuel (x1, y0, x0, y1) side
     = create_hexgrid fuel (x0, y0, x1, y1) side
  /\ create_hexgrid fuel (x0, y1, x1, y0) side
     = create_hexgrid fuel (x0, y0, x1, y1) side.
Proof.
  unfold create_hexgrid. cbn [bbx0 bbx1 bbx2 bbx3 fst snd].
  rewrite !py_min_Rmin, !py_max_Rmax.
  rewrite (Rmin_comm x1 x0), (Rmax_comm x1 x0),
    (Rmin_comm y1 y0), (Rmax_comm y1 y0).
  repeat split; reflexivity.
Qed.

End GridEdgeCases.

(** ** create_hexagon: a regular hexagon that tiles with its neighbours *)

Section HexagonShape.
Import Exact Hexagon GridFacts.
Local Open Scope R_scope.

(** X8. [create_hexagon l x y] is a regular hexagon of edge [l] centered
    on [(x, y)]: its six vertices lie at squared distance [l * l] from the
    center, each vertex lies at squared distance [l * l] from the next one
    around the shell, and its area is [3 * sqrt 3 / 2 * l ^ 2], wherever
    the center is. *)
Theorem create_hexagon_regular (l x y : R) :
  let shell := create_hexagon l x y in
  List.length shell = 6%nat
  /\ Forall (fun v => sqdist v (x, y) = l * l) shell
  /\ (forall i v w,
        nth_error shell i = Some v ->
        nth_error shell (S i mod 6) = Some w ->
        sqdist v w = l * l)
  /\ polygon_area shell = 3 * sqrt 3 / 2 * (l * l).
Proof.
  cbv zeta. split; [apply create_hexagon_length |].
  assert (Hs : sqrt 3 * sqrt 3 = 3) by (apply sqrt_sqrt; lra).
  split; [| split; [| apply create_hexagon_area]].
  - rewrite create_hexagon_vertices.
    repeat constructor; unfold sqdist; cbn [fst snd]; nra.
  - rewrite create_hexagon_vertices. intros i v w Hv Hw.
    do 6 (destruct i as [| i];
          [cbn in Hv, Hw; injection Hv as <-; injection Hw as <-;
           unfold sqdist; cbn [fst snd]; nra |]).
    destruct i; discriminate.
Qed.

(** X9. In exact arithmetic the steps of [create_hexgrid] fit the
    hexagons of [create_hexagon]: the hexagon of a center and the hexagon
    one [v_step] above it have two vertices, the ends of an edge, in
    common, and so have the hexagon of a center and those one [h_step] to
    the right and half a [v_step] above or below. (In binary64 the
    vertices are computed from different centers and agree only up to
    rounding.) *)
Theorem neighbouring_hexagons_share_an_edge (side x y : R) :
  let v_step := sqrt 3 * side in
  let h_step := 1.5 * side in
  let here := create_hexagon side x y in
  let above := create_hexagon side x (y + v_step) in
  let upper_right := create_hexagon side (x + h_step) (y + v_step / 2) in
  let lower_right := create_hexagon side (x + h_step) (y - v_step / 2) in
  (nth_error here 1 = nth_error above 5
   /\ nth_error here 2 = nth_error above 4)
  /\ (nth_error here 0 = nth_error upper_right 4
      /\ nth_error here 1 = nth_error upper_right 3)
  /\ (nth_error here 5 = nth_error lower_right 3
      /\ nth_error here 0 = nth_error lower_right 2).
Proof.
  cbv zeta. rewrite !create_hexagon_vertices. cbn [nth_error].
  repeat split; do 2 f_equal; lra.
Qed.

End HexagonShape.

(** ** The overlap engine: partitions, skipped layers, what comes back *)

Section Partitions.

Lemma split_sizes_lengths (A : Type) (sizes : list nat) :
  forall ary : list A,
    list_sum sizes = List.length ary ->
    map (@List.length A) (split_sizes ary sizes) = sizes.
Proof.
  induction sizes as [| s rest IH]; intros ary Hsum; [reflexivity |].
  simpl in *. rewrite IH.
  - f_equal. rewrite length_firstn. lia.
  - rewrite length_skipn. lia.
Qed.

(** X10. The grid is cut into exactly [n] contiguous sections of nearly
    equal size: the first [len mod n] sections hold [len / n + 1] rows,
    the others [len / n], and in order they make up the grid again. More
    sections than rows leaves the last ones empty. *)
Theorem array_split_balanced (A : Type) (ary : list A) (n : nat) :
  n <> 0%nat ->
  exists sections,
    array_split ary n = Done sections
    /\ List.length sections = n
    /\ concat sections = ary
    /\ map (@List.length A) sections
       = (repeat (S (List.length ary / n)) (List.length ary mod n)
          ++ repeat (List.length ary / n) (n - List.length ary mod n))%nat.
Proof.
  intros Hn.
  destruct (array_split_sections ary Hn) as (sections & Hsplit & Hlen & Hcat).
  exists sections. repeat split; try assumption.
  unfold array_split in Hsplit.
  destruct (Nat.eqb_spec n 0) as [-> | _]; [contradiction |].
  apply Done_inj in Hsplit. rewrite <- Hsplit.
  apply split_sizes_lengths.
  pose proof (Nat.mod_upper_bound (List.length ary) n Hn) as Hmod.
  rewrite list_sum_app, !list_sum_repeat.
  pose proof (Nat.div_mod_eq (List.length ary) n) as Hdiv. nia.
Qed.

Lemma array_split_balanced_witness :
  exists sections,
    array_split [1; 2; 3; 4; 5; 6; 7]%nat 3 = Done sections
    /\ List.length sections = 3%nat
    /\ concat sections = [1; 2; 3; 4; 5; 6; 7]%nat
    /\ map (@List.length nat) sections = [3; 2; 2]%nat.
Proof.
  apply (@array_split_balanced nat [1; 2; 3; 4; 5; 6; 7]%nat 3).
  discriminate.
Defined.

End Partitions.

Section SkippedLayers.
Variable G : Type.
Variable lib : geopandas G.

Lemma calculate_loop_skips (planning_grid : GeoDataFrame G)
      (cons_layers : list (Layer G)) :
  forall intersections out out',
    snd (calculate_loop lib planning_grid cons_layers intersections out)
    = snd (calculate_loop lib planning_grid (nonempty_layers cons_layers)
                          intersections out').
Proof.
  induction cons_layers as [| layer rest IH]; intros acc out out';
    [reflexivity |].
  unfold nonempty_layers in *. simpl.
  destruct (negb (empty layer)) eqn:E; simpl.
  - rewrite E.
    destruct (layer_intersection lib planning_grid layer);
      [apply IH | reflexivity | reflexivity].
  - apply IH.
Qed.

Lemma calculate_loop_counts (planning_grid : GeoDataFrame G)
      (cons_layers : list (Layer G)) :
  forall intersections out frames,
    snd (calculate_loop lib planning_grid cons_layers intersections out)
    = Done frames ->
    List.length frames
    = (List.length intersections
       + List.length (nonempty_layers cons_layers))%nat
    /\ fst (calculate_loop lib planning_grid cons_layers intersections out)
       = out ++ repeat "Skipping empty conservation layer."%string
                       (List.length (empty_layers cons_layers)).
Proof.
  induction cons_layers as [| layer rest IH]; intros acc out frames Hret.
  - simpl in *. apply Done_inj in Hret. subst frames.
    split; [lia | now rewrite app_nil_r].
  - unfold nonempty_layers, empty_layers in *. simpl in *.
    destruct (empty layer) eqn:E; simpl in *.
    + destruct (IH _ _ _ Hret) as [Hlen Hout]. split; [exact Hlen |].
      rewrite Hout, <- app_assoc. reflexivity.
    + destruct (layer_intersection lib planning_grid layer);
        try discriminate.
      destruct (IH _ _ _ Hret) as [Hlen Hout]. split; [| exact Hout].
      rewrite Hlen, length_app. simpl. lia.
Qed.

(** X11. [calculate] passes over empty layers without calling the
    library: with any geopandas, its outcome is the one for the non-empty
    layers alone; and when it returns, it returns one frame per non-empty
    layer and has printed the skip warning once per empty layer. *)
Theorem calculate_skips_empty_layers (planning_grid : GeoDataFrame G)
        (cons_layers : list (Layer G)) :
  snd (calculate lib planning_grid cons_layers)
  = snd (calculate lib planning_grid (nonempty_layers cons_layers))
  /\ forall frames,
      snd (calculate lib planning_grid cons_layers) = Done frames ->
      List.length frames = List.length (nonempty_layers cons_layers)
      /\ fst (calculate lib planning_grid cons_layers)
         = repeat "Skipping empty conservation layer."%string
                  (List.length (empty_layers cons_layers)).
Proof.
  unfold calculate. split; [apply calculate_loop_skips |].
  intros frames Hret.
  destruct (calculate_loop_counts _ _ _ _ Hret) as [Hlen Hout].
  split; assumption.
Qed.

Lemma extend_results_counts (a b : nat)
      (results : list (list string *
                       result (list (list (intersection_row G))))) :
  Forall (fun r => forall frames,
              snd r = Done frames ->
              List.length frames = a /\ List.length (fst r) = b) results ->
  forall intersections out frames,
    snd (extend_results results intersections out) = Done frames ->
    List.length frames
    = (List.length intersections + List.length results * a)%nat
    /\ List.length (fst (extend_results results intersections out))
       = (List.length out + List.length results * b)%nat.
Proof.
  induction 1 as [| [printed r] rest Hr Hrest IH];
    intros acc out frames Hret; simpl in *.
  - apply Done_inj in Hret. subst. lia.
  - destruct r as [frames' | e |]; try discriminate.
    destruct (Hr frames' eq_refl) as [Ha Hb].
    destruct (IH _ _ _ Hret) as [Hlen Hout].
    rewrite Hlen, Hout, !length_app. lia.
Qed.

Lemma extend_results_printed (w : string) (e : nat)
      (results : list (list string *
                       result (list (list (intersection_row G))))) :
  Forall (fun r => forall frames,
              snd r = Done frames -> fst r = repeat w e) results ->
  forall intersections out frames,
    snd (extend_results results intersections out) = Done frames ->
    fst (extend_results results intersections out)
    = out ++ repeat w (List.length results * e).
Proof.
  induction 1 as [| [printed r] rest Hr Hrest IH];
    intros acc out frames Hret.
  - simpl. now rewrite app_nil_r.
  - cbn [extend_results] in *.
    destruct r as [frames' | x |]; try discriminate.
    pose proof (Hr frames' eq_refl) as Hp. cbn [fst] in Hp. subst printed.
    rewrite (IH _ _ _ Hret), <- app_assoc, <- repeat_app. reflexivity.
Qed.

(** X12. What a successful [calculate_overlap] hands back, with any
    geopandas: for a non-empty grid cut into [CORES] partitions it
    returns [CORES] frames per non-empty layer (one per partition and
    layer, left for the caller to concatenate), and the skip warning has
    been printed once per empty layer by every partition, [CORES] times
    per empty layer in all. *)
Theorem calculate_overlap_frames (planning_grid : GeoDataFrame G)
        (cons_layers : list (Layer G)) (CORES : nat)
        (completion : list nat)
        (frames : list (list (intersection_row G))) :
  planning_grid <> [] ->
  cons_layers <> [] ->
  Permutation completion (seq 0 CORES) ->
  snd (calculate_overlap lib planning_grid cons_layers CORES completion)
  = Done frames ->
  List.length frames
  = (CORES * List.length (nonempty_layers cons_layers))%nat
  /\ fst (calculate_overlap lib planning_grid cons_layers CORES completion)
     = repeat "Skipping empty conservation layer."%string
              (CORES * List.length (empty_layers cons_layers)).
Proof.
  intros Hgrid Hlayers Hperm Hret. unfold calculate_overlap in *.
  destruct cons_layers as [| l0 ls]; [contradiction |].
  destruct planning_grid as [| c0 cs]; [contradiction |].
  cbn [List.length Nat.eqb empty] in *.
  destruct CORES as [| k].
  { simpl in Hret. discriminate. }
  destruct (@array_split_sections _ (c0 :: cs) (S k))
    as (divisions & Hsplit & Hlen & _); [discriminate |].
  rewrite Hsplit in *.
  set (results := completion_order completion
                    (map (fun division => calculate lib division (l0 :: ls))
                         divisions)) in *.
  assert (Hres : Forall
                   (fun r => forall fr,
                        snd r = Done fr ->
                        List.length fr
                        = List.length (nonempty_layers (l0 :: ls))
                        /\ fst r
                           = repeat "Skipping empty conservation layer."%string
                                    (List.length (empty_layers (l0 :: ls))))
                   results).
  { apply Forall_forall. intros r Hr. unfold results, completion_order in Hr.
    apply in_flat_map in Hr. destruct Hr as (i & _ & Hr).
    destruct (nth_error _ i) as [t |] eqn:Hi; [| contradiction].
    destruct Hr as [<- | []]. apply nth_error_In in Hi.
    apply in_map_iff in Hi. destruct Hi as (d & <- & _).
    intros fr Hfr.
    now apply (proj2 (calculate_skips_empty_layers d (l0 :: ls))). }
  assert (Hcount : List.length results = S k).
  { assert (Hp : Permutation
                   results
                   (map (fun division => calculate lib division (l0 :: ls))
                        divisions)).
    { apply completion_order_permutation. rewrite length_map.
      eapply Permutation_trans; [exact Hperm |].
      rewrite <- Hlen. apply Permutation_refl. }
    rewrite (Permutation_length Hp), length_map. exact Hlen. }
  split.
  - assert (Hres' : Forall
                      (fun r => forall fr,
                           snd r = Done fr ->
                           List.length fr
                           = List.length (nonempty_layers (l0 :: ls))
                           /\ List.length (fst r)
                              = List.length (empty_layers (l0 :: ls)))
                      results).
    { eapply Forall_impl; [| exact Hres]. intros r Hr fr Hfr.
      destruct (Hr fr Hfr) as [H1 H2]. split; [exact H1 |].
      now rewrite H2, repeat_length. }
    destruct (extend_results_counts Hres' [] [] Hret) as [Hf _].
    rewrite Hf, Hcount. reflexivity.
  - assert (Hres' : Forall
                      (fun r => forall fr,
                           snd r = Done fr ->
                           fst r
                           = repeat "Skipping empty conservation layer."%string
                                    (List.length (empty_layers (l0 :: ls))))
                      results).
    { eapply Forall_impl; [| exact Hres]. intros r Hr fr Hfr.
      apply (Hr fr Hfr). }
    rewrite (@extend_results_printed _ _ results Hres' [] [] frames Hret).
    rewrite Hcount. reflexivity.
Qed.

End SkippedLayers.

Section SkippedLayersExample.
Import Raster.

Lemma calculate_overlap_frames_witness :
  exists frames,
    snd (calculate_overlap (ideal raster) sample_grid
                           [sample_layer; []; sample_layer] 2 [1; 0]%nat)
    = Done frames
    /\ List.length frames = 4%nat
    /\ fst (calculate_overlap (ideal raster) sample_grid
                              [sample_layer; []; sample_layer] 2 [1; 0]%nat)
       = repeat "Skipping empty conservation layer."%string 2.
Proof.
  eexists. split; [reflexivity |].
  apply (@calculate_overlap_frames _ (ideal raster) sample_grid
           [sample_layer; []; sample_layer] 2 [1; 0]%nat).
  - discriminate.
  - discriminate.
  - apply perm_swap.
  - reflexivity.
Defined.

End SkippedLayersExample.

Section ContainedFeature.
Variable G : Type.
Variable ops : geometry_ops G.
Hypothesis laws : geometry_laws ops.

(** X13. A feature lying inside a single cell comes back with its own
    area: for a grid of one cell and one layer of one non-empty polygon
    contained in the cell, the clip of the cell being a polygon too,
    [calculate_overlap] on exact geometry returns exactly one record, for
    that cell and feature, whose amount is the feature's area rounded and
    cast to int64 -- the rounded area itself when it fits int64 -- for
    every positive core count and every order of completion. *)
Theorem contained_feature_record (c : planning_unit G) (f : feature G)
        (CORES : nat) (completion : list nat) :
  intersection ops (geometry c) (f_geometry f) = f_geometry f ->
  is_empty ops (f_geometry f) = false ->
  type_isin (geom_type ops (f_geometry f)) polys = true ->
  type_isin
    (geom_type ops
       (clipped_geometry ops
          (unary_union ops [convex_hull ops (f_geometry f)]) (geometry c)))
    polys = true ->
  CORES <> 0%nat ->
  Permutation completion (seq 0 CORES) ->
  exists intersections,
    snd (calculate_overlap (ideal ops) [c] [[f]] CORES completion)
    = Done intersections
    /\ records intersections
       = [(PUID c, ID (f_attributes f),
           astype_int (series_round (area ops (f_geometry f))))]
    /\ (in_int64 (round_half_even (area ops (f_geometry f))) = true ->
        records intersections
        = [(PUID c, ID (f_attributes f),
            round_half_even (area ops (f_geometry f)))]).
Proof.
  intros Hinside Hnonempty Hfeature Hcell Hcores Hperm.
  destruct (@calculate_overlap_polygonal _ ops laws [c] [[f]] CORES
              completion Hcores Hperm) as (rs & Hrs & Hrows).
  { intros layer [<- | []] _. split.
    - apply polys_not_mixed. intros g [<- | []]. exact Hfeature.
    - intros c' [<- | []] hulls _. exact Hcell. }
  assert (Hrec : records rs
                 = [(PUID c, ID (f_attributes f),
                     astype_int (series_round (area ops (f_geometry f))))]).
  { apply Permutation_length_1_inv. apply Permutation_sym.
    unfold records. rewrite Hrows.
    cbn [nonempty_layers filter empty negb flat_map]. rewrite app_nil_r.
    rewrite polygon_rows_records.
    unfold expected_records, pair_records, intersects.
    cbn [flat_map]. rewrite Hinside, Hnonempty. cbn [negb].
    rewrite (kept_polygon ops _ Hfeature). apply Permutation_refl. }
  exists rs. split; [exact Hrs |]. split; [exact Hrec |].
  intros Hfit. rewrite Hrec. now rewrite (astype_int_series_round _ Hfit).
Qed.

End ContainedFeature.

Section ContainedFeatureExample.
Import Strip.

Lemma contained_feature_record_witness :
  exists intersections,
    snd (calculate_overlap (ideal strip) [wide_cell] [[inner_feature]] 3
                           [2; 0; 1]%nat)
    = Done intersections
    /\ records intersections = [(7, 3, 2)]%Z.
Proof.
  destruct (@contained_feature_record _ strip strip_laws wide_cell
              inner_feature 3 [2; 0; 1]%nat)
    as (rs & Hrs & _ & Hrec).
  - reflexivity.
  - reflexivity.
  - reflexivity.
  - reflexivity.
  - discriminate.
  - apply Permutation_sym.
    apply (@perm_trans _ _ [0; 2; 1]%nat);
      [apply perm_skip, perm_swap | apply perm_swap].
  - exists rs. split; [exact Hrs | apply Hrec; reflexivity].
Defined.

End ContainedFeatureExample.

(** ** The bounding box built from user input *)

Section UserInputBox.
Import Exact Hexagon UserInput.
Local Open Scope R_scope.

Ltac below_min :=
  first [ apply Rle_refl | apply Rmin_r | apply Rmin_l
        | eapply Rle_trans; [apply Rmin_l | below_min] ].

Ltac above_max :=
  first [ apply Rle_refl | apply Rmax_r | apply Rmax_l
        | eapply Rle_trans; [| apply Rmax_l]; above_max ].

(** X14. Menu entry 3 builds its box around the anchor point: in exact
    arithmetic, whenever [cos grid_lat] is not zero the box is well formed
    ([xmin <= xmax], [ymin <= ymax], whatever the signs of the sizes),
    its center is [(grid_lon, grid_lat)], its height is [grid_size_y]
    metres turned into degrees, and its width is [grid_size_x] metres
    turned into degrees and divided by the cosine of [grid_lat] -- the
    latitude being passed to [cos] as it was typed. *)
Theorem user_input_box_centered (grid_size_x grid_size_y grid_lat grid_lon : R) :
  cos grid_lat <> 0 ->
  exists xmin ymin xmax ymax : R,
    user_input_box grid_size_x grid_size_y grid_lat grid_lon
    = Done (xmin, ymin, xmax, ymax)
    /\ xmin <= xmax /\ ymin <= ymax
    /\ (xmin + xmax) / 2 = grid_lon
    /\ (ymin + ymax) / 2 = grid_lat
    /\ xmax - xmin
       = Rabs (180 / PI * (grid_size_x / 6378137) / cos grid_lat)
    /\ ymax - ymin = Rabs (180 / PI * (grid_size_y / 6378137)).
Proof.
  intros Hcos. unfold user_input_box. rewrite Reqb_false by assumption.
  unfold total_bounds. cbn [map fold_left fst snd].
  eexists _, _, _, _. split; [reflexivity |].
  replace (180 / PI * (grid_size_x / 2 / 6378137) / cos grid_lat)
    with (180 / PI * (grid_size_x / 6378137) / cos grid_lat / 2)
    by (field; split; first [assumption | apply PI_neq0]).
  replace (180 / PI * (grid_size_y / 2 / 6378137))
    with (180 / PI * (grid_size_y / 6378137) / 2)
    by (field; apply PI_neq0).
  generalize (180 / PI * (grid_size_x / 6378137) / cos grid_lat).
  generalize (180 / PI * (grid_size_y / 6378137)).
  intros dy dx.
  rewrite (Rmin_left _ _ (Rle_refl (grid_lon - dx / 2))).
  rewrite (Rmax_left _ _ (Rle_refl (grid_lon - dx / 2))).
  rewrite !(Rmin_left (Rmin _ _) _) by below_min.
  rewrite !(Rmax_left (Rmax _ _) _) by above_max.
  unfold Rmin, Rmax, Rabs.
  destruct (Rle_dec (grid_lon - dx / 2) (grid_lon + dx / 2)),
    (Rle_dec (grid_lat - dy / 2) (grid_lat + dy / 2)),
    (Rcase_abs dx), (Rcase_abs dy); repeat split; lra.
Qed.

Lemma user_input_box_centered_witness :
  exists xmin ymin xmax ymax : R,
    user_input_box 2000 (- 1000) 0 10 = Done (xmin, ymin, xmax, ymax)
    /\ xmin <= xmax /\ ymin <= ymax
    /\ (xmin + xmax) / 2 = 10
    /\ (ymin + ymax) / 2 = 0
    /\ xmax - xmin = Rabs (180 / PI * (2000 / 6378137) / cos 0)
    /\ ymax - ymin = Rabs (180 / PI * (- 1000 / 6378137)).
Proof.
  apply (@user_input_box_centered 2000 (- 1000) 0 10).
  rewrite cos_0. lra.
Defined.

End UserInputBox.

(** ** The menus *)

Section QueryMenu.
Variable G : Type.

Lemma filter_filter (A : Type) (p q : A -> bool) (l : list A) :
  filter p (filter q l) = filter (fun a => q a && p a) l.
Proof.
  induction l as [| a l' IH]; [reflexivity |].
  simpl. destruct (q a); simpl; [destruct (p a) |]; now rewrite IH.
Qed.

Lemma query_loop_filters (script : list query_input)
      (conserv_layers : list (Layer G)) :
  forall filtered out out' layers,
    query_loop script conserv_layers filtered out = (out', Finished layers) ->
    layers = map (filter (passes (applied_filters script))) filtered.
Proof.
  induction script as [| [| selection chosen] rest IH];
    intros filtered out out' layers Hrun; simpl in Hrun.
  - discriminate.
  - simpl. eapply IH. exact Hrun.
  - simpl. destruct (query_field selection) as [fld |].
    + rewrite (IH _ _ _ _ Hrun), map_map. apply map_ext. intros gdf.
      unfold keep_rows. rewrite filter_filter. reflexivity.
    + destruct (selection =? 9)%Z.
      * injection Hrun as _ <-. simpl.
        rewrite <- (map_id filtered) at 1. apply map_ext. intros gdf.
        symmetry. apply forallb_filter_id. apply forallb_forall. reflexivity.
      * eapply IH. exact Hrun.
Qed.

(** X15. What [query_conservation_layers] returns: when the session ends
    (choice 9), layer [i] of the result is layer [i] of the input reduced
    to the features that pass every filter chosen so far -- the value of
    the filter's column is among the values the user selected. The
    layers keep their number and order, features keep theirs, and
    nothing is added or changed. *)
Theorem query_conservation_layers_result
        (conserv_layers : list (Layer G)) (script : list query_input)
        (out : list output) (layers : list (Layer G)) :
  conserv_layers <> [] ->
  query_conservation_layers conserv_layers script = (out, Finished layers) ->
  layers = map (filter (passes (applied_filters script))) conserv_layers
  /\ List.length layers = List.length conserv_layers.
Proof.
  intros Hne Hrun. unfold query_conservation_layers in Hrun.
  destruct conserv_layers as [| l0 ls]; [contradiction |].
  cbn [List.length Nat.eqb] in Hrun.
  apply query_loop_filters in Hrun. rewrite map_id in Hrun.
  split; [exact Hrun |]. rewrite Hrun. apply length_map.
Qed.

Lemma passes_same_filters (f1 f2 : list (field * list value))
      (f : feature G) :
  (forall flt, In flt f1 <-> In flt f2) -> passes f1 f = passes f2 f.
Proof.
  intros Hsame. unfold passes.
  apply eq_true_iff_eq. rewrite !forallb_forall.
  split; intros H flt Hin; apply H, Hsame, Hin.
Qed.

(** X16. The filters of the query menu combine as a conjunction: two
    sessions over the same layers that apply the same filters -- in any
    order, any of them repeated -- return the same layers. *)
Theorem query_filters_commute
        (conserv_layers : list (Layer G)) (script1 script2 : list query_input)
        (out1 out2 : list output) (layers1 layers2 : list (Layer G)) :
  query_conservation_layers conserv_layers script1
  = (out1, Finished layers1) ->
  query_conservation_layers conserv_layers script2
  = (out2, Finished layers2) ->
  (forall flt, In flt (applied_filters script1)
               <-> In flt (applied_filters script2)) ->
  layers1 = layers2.
Proof.
  intros H1 H2 Hsame. unfold query_conservation_layers in *.
  destruct conserv_layers as [| l0 ls].
  - simpl in *. congruence.
  - cbn [List.length Nat.eqb] in *.
    apply query_loop_filters in H1, H2. subst layers1 layers2.
    apply map_ext. intros gdf. apply filter_ext. intros f.
    now apply passes_same_filters.
Qed.

End QueryMenu.

Section QueryMenuExamples.
Import Raster MenuExamples.

Lemma query_conservation_layers_result_witness :
  query_conservation_layers two_layers id_then_class
  = (fst (query_conservation_layers two_layers id_then_class),
     Finished [[feat 10 30%N]; [feat 12 3%N]])
  /\ [[feat 10 30%N]; [feat 12 3%N]]
     = map (filter (passes (applied_filters id_then_class))) two_layers
  /\ List.length [[feat 10 30%N]; [feat 12 3%N]] = List.length two_layers.
Proof.
  split; [reflexivity |].
  apply (@query_conservation_layers_result N two_layers id_then_class
           (fst (query_conservation_layers two_layers id_then_class))
           [[feat 10 30%N]; [feat 12 3%N]]).
  - discriminate.
  - reflexivity.
Defined.

Lemma query_filters_commute_witness :
  exists layers1 layers2,
    snd (query_conservation_layers two_layers id_then_class)
    = Finished layers1
    /\ snd (query_conservation_layers two_layers class_then_id)
       = Finished layers2
    /\ layers1 = layers2.
Proof.
  exists [[feat 10 30%N]; [feat 12 3%N]], [[feat 10 30%N]; [feat 12 3%N]].
  split; [reflexivity |]. split; [reflexivity |].
  apply (@query_filters_commute N two_layers id_then_class class_then_id
           (fst (query_conservation_layers two_layers id_then_class))
           (fst (query_conservation_layers two_layers class_then_id))
           [[feat 10 30%N]; [feat 12 3%N]]
           [[feat 10 30%N]; [feat 12 3%N]]).
  - reflexivity.
  - reflexivity.
  - intros flt. simpl. tauto.
Defined.

End QueryMenuExamples.

Section LoadAndMainMenu.
Variable G : Type.

(** X17. [load_convservation_layers] returns either the list it was
    given, when the user leaves with choice 9, or what [load_files] made
    of the first non-empty file selection (choice 1 or 2); an empty file
    selection, an unknown choice or a line that is not an integer only
    prints a warning and asks again. *)
Theorem load_convservation_layers_result
        (conserv_layers : list (Layer G)) (script : list (load_input G))
        (out out' : list output) (layers : list (Layer G)) :
  load_convservation_layers conserv_layers script out
  = (out', Finished layers) ->
  (layers = conserv_layers
   /\ exists files loaded, In (L_choice 9 files loaded) script)
  \/ (exists selection files,
        (selection = 1 \/ selection = 2)%Z
        /\ files <> []
        /\ In (L_choice selection files (Done layers)) script).
Proof.
  revert out. induction script as [| [| selection files loaded] rest IH];
    intros out Hrun; simpl in Hrun.
  - discriminate.
  - destruct (IH _ Hrun) as [[Heq (fs & ld & Hin)] | (sel & fs & Hsel & Hfs & Hin)].
    + left. split; [exact Heq |]. exists fs, ld. now right.
    + right. exists sel, fs. repeat split; try assumption. now right.
  - assert (Hrest : forall o,
               load_convservation_layers conserv_layers rest o
               = (out', Finished layers) ->
               (layers = conserv_layers
                /\ exists files0 loaded0,
                    In (L_choice 9 files0 loaded0)
                       (L_choice selection files loaded :: rest))
               \/ (exists selection0 files0,
                     (selection0 = 1 \/ selection0 = 2)%Z
                     /\ files0 <> []
                     /\ In (L_choice selection0 files0 (Done layers))
                           (L_choice selection files loaded :: rest))).
    { intros o Ho.
      destruct (IH _ Ho) as [[Heq (fs & ld & Hin)] | (sel & fs & Hsel & Hfs & Hin)].
      - left. split; [exact Heq |]. exists fs, ld. now right.
      - right. exists sel, fs. repeat split; try assumption. now right. }
    assert (Hload : files <> [] ->
               after_load loaded out = (out', Finished layers) ->
               loaded = Done layers).
    { intros _ H. destruct loaded; simpl in H; try discriminate.
      now injection H as _ ->. }
    destruct (Z.eqb_spec selection 1) as [-> | H1].
    { destruct files as [| f fs]; simpl in Hrun; [now apply Hrest in Hrun |].
      right. exists 1%Z, (f :: fs).
      split; [now left |]. split; [discriminate |].
      left. f_equal. apply Hload; [discriminate | exact Hrun]. }
    destruct (Z.eqb_spec selection 2) as [-> | H2].
    { destruct files as [| f fs]; simpl in Hrun; [now apply Hrest in Hrun |].
      right. exists 2%Z, (f :: fs).
      split; [now right |]. split; [discriminate |].
      left. f_equal. apply Hload; [discriminate | exact Hrun]. }
    destruct (Z.eqb_spec selection 9) as [-> | H9].
    { injection Hrun as _ <-. left. split; [reflexivity |].
      exists files, loaded. now left. }
    now apply Hrest in Hrun.
Qed.

Variable show : list G -> result unit.

Lemma plot_each_returns (layers : list (list G)) :
  forall out,
    (forall layer, show layer <> OutOfFuel) ->
    snd (plot_each show layers out) <> OutOfFuel.
Proof.
  induction layers as [| layer rest IH]; intros out Hshow; simpl.
  - discriminate.
  - destruct (empty layer); [now apply IH |].
    pose proof (Hshow layer) as Hlayer.
    destruct (show layer); [now apply IH | discriminate | contradiction].
Qed.

Lemma plot_returns (layers : list (list G)) (out : list output) :
  (forall layer, show layer <> OutOfFuel) ->
  snd (plot show layers out) = true.
Proof.
  intros Hshow. unfold plot.
  destruct (negb (Nat.eqb (List.length layers) 0)); [| reflexivity].
  pose proof (@plot_each_returns layers (out ++ [Info "Plotting"%string])
                Hshow) as H.
  destruct (plot_each show layers (out ++ [Info "Plotting"%string]))
    as [out' [u | e |]]; simpl in *; [reflexivity | reflexivity |].
  now contradiction H.
Qed.

(** X18. The view menu contains the failures of the plotting library:
    whatever [layer.plot()] raises, on any frame, is reported and the menu
    goes on, so once the user types 9 [plot_layers] returns to the main
    menu -- provided each call of the library comes back at all. *)
Theorem plot_layers_returns_on_9
        (planning_unit_grid : GeoDataFrame G)
        (conserv_layers filtered_conserv_layers : list (Layer G))
        (script : list view_input) (out : list output) :
  (forall layer, show layer <> OutOfFuel) ->
  In (V_choice 9) script ->
  snd (plot_layers show planning_unit_grid conserv_layers
                   filtered_conserv_layers script out) = Finished tt.
Proof.
  intros Hshow. revert out.
  induction script as [| [| selection] rest IH]; intros out Hin.
  - contradiction.
  - simpl. apply IH. destruct Hin as [Heq | Hin]; [discriminate | exact Hin].
  - cbn [plot_layers].
    assert (Hrest : selection <> 9%Z -> In (V_choice 9) rest).
    { intros Hne. destruct Hin as [Heq | Hin]; [| exact Hin].
      injection Heq as Heq. contradiction. }
    destruct (Z.eqb_spec selection 1) as [-> | H1].
    { rewrite plot_returns by exact Hshow. apply IH. now apply Hrest. }
    destruct (Z.eqb_spec selection 2) as [-> | H2].
    { rewrite plot_returns by exact Hshow. apply IH. now apply Hrest. }
    destruct (Z.eqb_spec selection 3) as [-> | H3].
    { rewrite plot_returns by exact Hshow. apply IH. now apply Hrest. }
    destruct (Z.eqb_spec selection 9) as [-> | H9]; [reflexivity |].
    apply IH. now apply Hrest.
Qed.

Variable lib : geopandas G.
Variable CORES : nat.

Lemma query_loop_no_save (script : list query_input)
      (conserv_layers : list (Layer G)) :
  forall filtered out,
    Forall no_save out ->
    Forall no_save (fst (query_loop script conserv_layers filtered out)).
Proof.
  induction script as [| [| selection chosen] rest IH];
    intros filtered out Hout; simpl.
  - exact Hout.
  - apply IH. apply Forall_app. split; [exact Hout | now repeat constructor].
  - destruct (query_field selection).
    + apply IH. apply Forall_app.
      split; [exact Hout | now repeat constructor].
    + destruct (selection =? 9)%Z; [exact Hout |].
      apply IH. apply Forall_app.
      split; [exact Hout | now repeat constructor].
Qed.

Lemma load_no_save (script : list (load_input G))
      (conserv_layers : list (Layer G)) :
  forall out,
    Forall no_save out ->
    Forall no_save (fst (load_convservation_layers conserv_layers script out)).
Proof.
  induction script as [| [| selection files loaded] rest IH];
    intros out Hout; simpl.
  - exact Hout.
  - apply IH. apply Forall_app. split; [exact Hout | now repeat constructor].
  - assert (Hwarn : forall msg, Forall no_save (out ++ [Warning msg])).
    { intros msg. apply Forall_app.
      split; [exact Hout | now repeat constructor]. }
    assert (Hafter : Forall no_save (fst (after_load loaded out))).
    { destruct loaded; exact Hout. }
    destruct (selection =? 1)%Z;
      [destruct (negb (empty files)); [exact Hafter | now apply IH] |].
    destruct (selection =? 2)%Z;
      [destruct (negb (empty files)); [exact Hafter | now apply IH] |].
    destruct (selection =? 9)%Z; [exact Hout | now apply IH].
Qed.

Lemma Forall_no_save_snoc (out : list output) (o : output) :
  Forall no_save out -> no_save o -> Forall no_save (out ++ [o]).
Proof.
  intros Hout Ho. apply Forall_app. split; [exact Hout | now constructor].
Qed.

Lemma plot_each_no_save (layers : list (list G)) :
  forall out,
    Forall no_save out ->
    Forall no_save (fst (plot_each show layers out)).
Proof.
  induction layers as [| layer rest IH]; intros out Hout; simpl.
  - exact Hout.
  - destruct (empty layer).
    + apply IH. now apply Forall_no_save_snoc.
    + destruct (show layer); [| exact Hout | exact Hout].
      apply IH. now apply Forall_no_save_snoc.
Qed.

Lemma plot_no_save (layers : list (list G)) (out : list output) :
  Forall no_save out ->
  Forall no_save (fst (plot show layers out)).
Proof.
  intros Hout. unfold plot.
  destruct (negb (Nat.eqb (List.length layers) 0));
    [| now apply Forall_no_save_snoc].
  pose proof (@plot_each_no_save layers (out ++ [Info "Plotting"%string])
                (@Forall_no_save_snoc out (Info "Plotting"%string) Hout I))
    as H.
  destruct (plot_each show layers (out ++ [Info "Plotting"%string]))
    as [out' [u | e |]]; simpl in *; try exact H.
  apply Forall_app. split; [exact H | now repeat constructor].
Qed.

Lemma plot_layers_no_save (planning_unit_grid : GeoDataFrame G)
      (conserv_layers filtered_conserv_layers : list (Layer G))
      (script : list view_input) :
  forall out,
    Forall no_save out ->
    Forall no_save (fst (plot_layers show planning_unit_grid conserv_layers
                                     filtered_conserv_layers script out)).
Proof.
  induction script as [| [| selection] rest IH]; intros out Hout.
  - exact Hout.
  - simpl. apply IH. now apply Forall_no_save_snoc.
  - cbn [plot_layers].
    assert (Hagain : forall layers msg,
               Forall no_save
                 (fst (if snd (plot show layers (out ++ [Info msg]))
                       then plot_layers show planning_unit_grid
                              conserv_layers filtered_conserv_layers rest
                              (fst (plot show layers (out ++ [Info msg])))
                       else (fst (plot show layers (out ++ [Info msg])),
                             Waiting)))).
    { intros layers msg.
      pose proof (@plot_no_save layers (out ++ [Info msg])
                    (@Forall_no_save_snoc out (Info msg) Hout I)) as H.
      destruct (snd (plot show layers (out ++ [Info msg])));
        [now apply IH | exact H]. }
    destruct (selection =? 1)%Z; [apply Hagain |].
    destruct (selection =? 2)%Z; [apply Hagain |].
    destruct (selection =? 3)%Z; [apply Hagain |].
    destruct (selection =? 9)%Z; [exact Hout |].
    apply IH. now apply Forall_no_save_snoc.
Qed.

Lemma main_loop_invariant (script : list (main_input G)) :
  forall (s : menu_state G) (out : list output),
    planning_unit_grid s = [] ->
    intersections_df s = [] ->
    Forall no_save out ->
    Forall no_save (fst (main_loop show lib CORES script s out))
    /\ match snd (main_loop show lib CORES script s out) with
       | Finished s' => planning_unit_grid s' = [] /\ intersections_df s' = []
       | Aborted e => True
       | Waiting => True
       end.
Proof.
  induction script as [| [| selection ls qs vs completion file] rest IH];
    intros s out Hgrid Hdf Hout; simpl.
  - split; [exact Hout | exact I].
  - apply IH; try assumption. now apply Forall_no_save_snoc.
  - destruct (selection =? 1)%Z; [split; [exact Hout | exact I] |].
    destruct (selection =? 2)%Z; [now apply IH |].
    destruct (selection =? 3)%Z.
    { pose proof (@load_no_save ls (conserv_layers s) [] (Forall_nil _))
        as Hl.
      destruct (load_convservation_layers (conserv_layers s) ls [])
        as [printed [layers | e |]]; simpl in Hl.
      - apply IH; try assumption. apply Forall_app. now split.
      - split; [apply Forall_app; now split | exact I].
      - split; [apply Forall_app; now split | exact I]. }
    destruct (selection =? 4)%Z.
    { assert (Hq : Forall no_save
                     (fst (query_conservation_layers (conserv_layers s) qs))).
      { unfold query_conservation_layers.
        destruct (Nat.eqb (List.length (conserv_layers s)) 0);
          [now repeat constructor |].
        apply query_loop_no_save. constructor. }
      destruct (query_conservation_layers (conserv_layers s) qs)
        as [printed [layers | e |]]; simpl in Hq.
      - apply IH; try assumption. apply Forall_app. now split.
      - split; [apply Forall_app; now split | exact I].
      - split; [apply Forall_app; now split | exact I]. }
    destruct (selection =? 5)%Z.
    { pose proof (@plot_layers_no_save (planning_unit_grid s)
                    (conserv_layers s) (filtered_conserv_layers s) vs []
                    (Forall_nil _)) as Hv.
      destruct (plot_layers show (planning_unit_grid s) (conserv_layers s)
                            (filtered_conserv_layers s) vs [])
        as [printed [u | e |]]; simpl in Hv.
      - apply IH; try assumption. apply Forall_app. now split.
      - split; [apply Forall_app; now split | exact I].
      - split; [apply Forall_app; now split | exact I]. }
    destruct (selection =? 6)%Z.
    { rewrite Hgrid. unfold calculate_overlap.
      destruct (Nat.eqb (List.length (conserv_layers s)) 0);
        cbn [empty]; apply IH; simpl;
        first [reflexivity | exact Hgrid | exact Hdf
               | now apply Forall_no_save_snoc]. }
    destruct (selection =? 7)%Z.
    { rewrite Hdf. cbn [empty]. apply IH; try assumption.
      now apply Forall_no_save_snoc. }
    destruct (selection =? 9)%Z; [split; [exact Hout | now split] |].
    apply IH; try assumption. now apply Forall_no_save_snoc.
Qed.

(** X19. From the main menu the planning grid is never set and nothing is
    ever saved. Choice 1 calls [create_planning_unit_grid] without its
    argument and ends the program with [TypeError]; no other choice
    assigns the grid, so "Calculate Overlap" always stops at one of its
    two guards, and "Save Results" always finds an empty table: whatever
    is typed, with any geopandas, plotting library and core count, the
    session writes no file, and if it ends with choice 9 the grid and the
    results are still empty. *)
Theorem main_menu_never_saves (script : list (main_input G)) :
  Forall no_save (fst (main_menu show lib CORES script))
  /\ (forall s, snd (main_menu show lib CORES script) = Finished s ->
                planning_unit_grid s = [] /\ intersections_df s = [])
  /\ (forall ls qs vs completion file rest,
        main_menu show lib CORES
                  (M_choice 1 ls qs vs completion file :: rest)
        = ([], Aborted TypeError)).
Proof.
  unfold main_menu.
  destruct (@main_loop_invariant script
              {| planning_unit_grid := [];
                 conserv_layers := [];
                 filtered_conserv_layers := [];
                 intersections_gdf := [];
                 intersections_df := [] |} [] eq_refl eq_refl (Forall_nil _))
    as [Hout Hend].
  split; [exact Hout |]. split; [| reflexivity].
  intros s Hs. rewrite Hs in Hend. exact Hend.
Qed.

End LoadAndMainMenu.

Section LoadAndViewExamples.
Import Raster MenuExamples.

Lemma load_convservation_layers_result_witness :
  load_convservation_layers [] load_twice []
  = (fst (load_convservation_layers [] load_twice []), Finished two_layers)
  /\ ((two_layers = []
       /\ exists files loaded, In (L_choice 9 files loaded) load_twice)
      \/ (exists selection files,
            (selection = 1 \/ selection = 2)%Z
            /\ files <> []
            /\ In (L_choice selection files (Done two_layers)) load_twice)).
Proof.
  split; [reflexivity |].
  apply (@load_convservation_layers_result N [] load_twice []
           (fst (load_convservation_layers [] load_twice []))
           two_layers).
  reflexivity.
Defined.

Lemma plot_layers_returns_on_9_witness :
  (forall layer, show_fails layer <> OutOfFuel)
  /\ In (V_choice 9) view_all
  /\ snd (plot_layers show_fails [] two_layers [] view_all [])
     = Finished tt.
Proof.
  assert (Hshow : forall layer, show_fails layer <> OutOfFuel)
    by (intros layer; discriminate).
  assert (Hin : In (V_choice 9) view_all) by (simpl; tauto).
  split; [exact Hshow |]. split; [exact Hin |].
  apply (@plot_layers_returns_on_9 N show_fails [] two_layers [] view_all []
           Hshow Hin).
Defined.

End LoadAndViewExamples.

(** ** Boxes with a NaN coordinate (binary64) *)

Section NaNBox.
Import Binary64.

Lemma ltb_nan_l (x : float) : PrimFloat.ltb nan x = false.
Proof.
  rewrite ltb_spec. change (Prim2SF nan) with S754_nan.
  now destruct (Prim2SF x).
Qed.

Lemma ltb_nan_r (x : float) : PrimFloat.ltb x nan = false.
Proof.
  rewrite ltb_spec. change (Prim2SF nan) with S754_nan.
  now destruct (Prim2SF x).
Qed.

Lemma float_ceil_nan_div (h : float) :
  float_ceil (PrimFloat.div nan h) = Raised ValueError.
Proof.
  unfold float_ceil. rewrite div_spec.
  change (Prim2SF nan) with S754_nan.
  now destruct (Prim2SF h).
Qed.

(** X20. A NaN coordinate is caught in the first corner only (binary64).
    For every box whose [bbx[0]] is NaN -- the bounds of a frame without
    features are four NaNs -- [create_hexgrid] raises [ValueError] at
    [math.ceil] (unless [h_step] is zero, which raises first). A NaN in
    [bbx[2]] is not noticed: [min] and [max] keep their first argument
    when a comparison with NaN fails, and the result is that of the box
    with [bbx[2]] replaced by [bbx[0]]. *)
Theorem create_hexgrid_nan_corner (fuel : nat)
        (b1 b2 b3 x0 y0 y1 side : float) :
  fis_zero (fmul lit_1_5 side) = false ->
  create_hexgrid fuel (nan, b1, b2, b3) side = Raised ValueError
  /\ create_hexgrid fuel (x0, y0, nan, y1) side
     = create_hexgrid fuel (x0, y0, x0, y1) side.
Proof.
  intros Hstep. split.
  - unfold create_hexgrid, truediv, py_min, bbx0, bbx2. cbn [fst snd].
    cbn [flt float_PyFloat]. rewrite ltb_nan_r.
    rewrite Hstep. cbn [bind]. cbn [ceil fdiv float_PyFloat].
    rewrite float_ceil_nan_div. reflexivity.
  - unfold create_hexgrid, py_min, py_max, bbx0, bbx2. cbn [fst snd].
    cbn [flt float_PyFloat]. rewrite ltb_nan_l, ltb_nan_r.
    assert (Hirr : PrimFloat.ltb x0 x0 = false).
    { rewrite ltb_spec. unfold SFltb.
      destruct (SFcompare (Prim2SF x0) (Prim2SF x0)) as [[| |] |] eqn:Hc;
        try reflexivity.
      exfalso. revert Hc.
      destruct (Prim2SF x0) as [[|] | [|] | | [|] m e]; simpl;
        try discriminate.
      - rewrite Z.compare_refl, Pos.compare_cont_refl. discriminate.
      - rewrite Z.compare_refl, Pos.compare_cont_refl. discriminate. }
    rewrite Hirr. reflexivity.
Qed.

Lemma create_hexgrid_nan_corner_witness :
  fis_zero (fmul lit_1_5 1%float) = false
  /\ create_hexgrid 10 (nan, nan, nan, nan) 1%float = Raised ValueError
  /\ create_hexgrid 10 (0%float, 0%float, nan, 1%float) 1%float
     = create_hexgrid 10 (0%float, 0%float, 0%float, 1%float) 1%float.
Proof.
  split; [reflexivity |].
  apply (@create_hexgrid_nan_corner 10 nan nan nan 0%float 0%float 1%float
           1%float).
  reflexivity.
Defined.

End NaNBox.
